(** * tunnel-flow: a shallow embedding of the request-multiplexing core

    The development follows the Go sources:
    - [GoStrings]: the functions of package [strings] that the pattern
      matcher uses, on byte strings;
    - [Pattern]: [internal/utils/pattern.go];
    - [Protocol], [Database], [NetURL]: the frames, the store and the
      query values the core works with;
    - [Websocket]: the connection manager and the pending-request table
      ([internal/websocket]);
    - [Proxy]: the proxy front door ([internal/proxy]);
    - [Agent]: the two dials of the agent ([tunnel-flow-agent]);
    - [Scenario]: concrete states and inputs.
    The properties follow the definitions. *)

From Stdlib Require Import ZArith String Ascii List Bool Lia Sorted.
From stdpp Require Import base gmap strings list fin_maps.

Local Open Scope string_scope.
Local Open Scope list_scope.
Local Open Scope Z_scope.

(** ** Package [strings] of the Go standard library

    Go strings are byte sequences; [string] is a sequence of [ascii]
    bytes.  Only the functions used by the sources are modelled. *)
Module GoStrings.

(** [len(s)] *)
Definition len (s : string) : nat := String.length s.

(** [s[n:]] *)
Fixpoint drop (n : nat) (s : string) : string :=
  match n, s with
  | O, _ => s
  | S _, EmptyString => EmptyString
  | S k, String _ t => drop k t
  end.

(** [s[:n]] *)
Fixpoint take (n : nat) (s : string) : string :=
  match n, s with
  | O, _ => EmptyString
  | S _, EmptyString => EmptyString
  | S k, String c t => String c (take k t)
  end.

(** [strings.HasPrefix]: [len(s) >= len(prefix) && s[:len(prefix)] == prefix] *)
Fixpoint HasPrefix (s prefix : string) {struct prefix} : bool :=
  match prefix with
  | EmptyString => true
  | String c p =>
      match s with
      | EmptyString => false
      | String d t => Ascii.eqb d c && HasPrefix t p
      end
  end.

(** [strings.HasSuffix]: [len(s) >= len(suffix) && s[len(s)-len(suffix):] == suffix] *)
Definition HasSuffix (s suffix : string) : bool :=
  (len suffix <=? len s)%nat &&
  String.eqb (drop (len s - len suffix) s) suffix.

(** [strings.TrimPrefix] *)
Definition TrimPrefix (s prefix : string) : string :=
  if HasPrefix s prefix then drop (len prefix) s else s.

(** [strings.TrimSuffix] *)
Definition TrimSuffix (s suffix : string) : string :=
  if HasSuffix s suffix then take (len s - len suffix) s else s.

(** [strings.Index]: the byte index of the first occurrence, or [-1]. *)
Fixpoint Index (s substr : string) : Z :=
  if HasPrefix s substr then 0
  else match s with
       | EmptyString => -1
       | String _ t =>
           let r := Index t substr in
           if r <? 0 then -1 else r + 1
       end.

(** [strings.Contains]: [Index(s, substr) >= 0] *)
Definition Contains (s substr : string) : bool := 0 <=? Index s substr.

(** Non-overlapping occurrences of a non-empty [substr], scanning from
    the left; [skip] counts the bytes of a match still to be passed. *)
Fixpoint count_from (s substr : string) (skip : nat) : Z :=
  match s with
  | EmptyString => 0
  | String _ t =>
      match skip with
      | S k => count_from t substr k
      | O =>
          if HasPrefix s substr
          then 1 + count_from t substr (len substr - 1)
          else count_from t substr 0
      end
  end.

(** [strings.Count]; for the empty [substr] Go returns the number of
    runes plus one, which is [len(s) + 1] on ASCII input. *)
Definition Count (s substr : string) : Z :=
  match substr with
  | EmptyString => Z.of_nat (len s) + 1
  | _ => count_from s substr 0
  end.

(** The fields between the non-overlapping occurrences of a non-empty
    [sep]; [cur] is the field being read, last byte first. *)
Fixpoint split_from (s sep : string) (skip : nat) (cur : string) : list string :=
  match s with
  | EmptyString => [String.rev cur]
  | String c t =>
      match skip with
      | S k => split_from t sep k cur
      | O =>
          if HasPrefix s sep
          then String.rev cur :: split_from t sep (len sep - 1) EmptyString
          else split_from t sep 0 (String c cur)
      end
  end.

(** Every byte as a string of its own ([strings.Split] with an empty
    separator, on ASCII input). *)
Fixpoint explode (s : string) : list string :=
  match s with
  | EmptyString => []
  | String c t => String c EmptyString :: explode t
  end.

(** [strings.Split] *)
Definition Split (s sep : string) : list string :=
  match sep with
  | EmptyString => explode s
  | _ => split_from s sep 0 EmptyString
  end.

(** Is byte [c] one of the bytes of [cutset]? *)
Fixpoint in_cutset (c : ascii) (cutset : string) : bool :=
  match cutset with
  | EmptyString => false
  | String d t => Ascii.eqb c d || in_cutset c t
  end.

(** [strings.TrimLeft] *)
Fixpoint TrimLeft (s cutset : string) : string :=
  match s with
  | EmptyString => EmptyString
  | String c t => if in_cutset c cutset then TrimLeft t cutset else s
  end.

(** [strings.TrimRight] *)
Definition TrimRight (s cutset : string) : string :=
  String.rev (TrimLeft (String.rev s) cutset).

(** [strings.Trim] *)
Definition Trim (s cutset : string) : string :=
  TrimRight (TrimLeft s cutset) cutset.

(** [strings.ToLower], on ASCII input. *)
Definition lower_byte (c : ascii) : ascii :=
  let n := nat_of_ascii c in
  if (65 <=? n)%nat && (n <=? 90)%nat then ascii_of_nat (n + 32) else c.

Fixpoint ToLower (s : string) : string :=
  match s with
  | EmptyString => EmptyString
  | String c t => String (lower_byte c) (ToLower t)
  end.

(** The decimal digits of [s], most significant first, after [acc]. *)
Fixpoint digits (s : string) (acc : Z) : option Z :=
  match s with
  | EmptyString => Some acc
  | String c t =>
      let n := nat_of_ascii c in
      if (48 <=? n)%nat && (n <=? 57)%nat
      then digits t (10 * acc + (Z.of_nat n - 48))
      else None
  end.

(** [strconv.Atoi] into a 64-bit [int]: [None] is an error. *)
Definition Atoi (s : string) : option Z :=
  let in_range (z : Z) : option Z :=
    if (- 2 ^ 63 <=? z) && (z <? 2 ^ 63) then Some z else None in
  match s with
  | EmptyString => None
  | String c t =>
      if Ascii.eqb c "+" then
        match t with
        | EmptyString => None
        | _ => z ← digits t 0; in_range z
        end
      else if Ascii.eqb c "-" then
        match t with
        | EmptyString => None
        | _ => z ← digits t 0; in_range (- z)
        end
      else z ← digits s 0; in_range z
  end.

End GoStrings.

(** ** [internal/utils/pattern.go] *)
Module Pattern.
Import GoStrings.

(** The loop of [matchSegmentWithWildcard]: [i] is the index of the
    head of [rest] in [parts], [n] is [len(parts)]. *)
Fixpoint matchSegment_loop (rest : list string) (i n : nat)
         (segment : string) (currentPos : nat) : bool :=
  match rest with
  | [] => true
  | part :: rest' =>
      if String.eqb part "" then
        matchSegment_loop rest' (S i) n segment currentPos
      else
        let pos := Index (drop currentPos segment) part in
        if pos =? -1 then false
        else if (i =? 0)%nat && negb (pos =? 0) then false
        else if (i =? n - 1)%nat &&
                negb (Z.of_nat currentPos + pos + Z.of_nat (len part)
                      =? Z.of_nat (len segment)) then false
        else matchSegment_loop rest' (S i) n segment
               (currentPos + Z.to_nat pos + len part)
  end.

Definition matchSegmentWithWildcard (pattern segment : string) : bool :=
  let parts := Split pattern "*" in
  match parts with
  | [p0] => if String.eqb p0 "" then true
            else matchSegment_loop parts 0 (length parts) segment 0
  | _ => matchSegment_loop parts 0 (length parts) segment 0
  end.

Definition matchPrefix (pattern path : string) : bool :=
  let prefix := TrimSuffix pattern "*" in
  let prefix := TrimSuffix prefix "/" in
  if String.eqb prefix "" then true
  else HasPrefix path prefix.

Definition matchSuffix (pattern path : string) : bool :=
  let suffix := TrimPrefix pattern "*" in
  let suffix := TrimPrefix suffix "/" in
  if String.eqb suffix "" then true
  else HasSuffix path suffix.

(** The segment-by-segment loop of [MatchPattern]; both lists have the
    same length when it is entered. *)
Fixpoint matchSegments (patternParts pathParts : list string) : bool :=
  match patternParts, pathParts with
  | patternPart :: ps, pathPart :: qs =>
      if String.eqb patternPart "*" then matchSegments ps qs
      else if Contains patternPart "*" then
        if negb (matchSegmentWithWildcard patternPart pathPart) then false
        else matchSegments ps qs
      else if negb (String.eqb patternPart pathPart) then false
      else matchSegments ps qs
  | _, _ => true
  end.

(** The last element of a non-empty slice, [parts[len(parts)-1]]. *)
Definition last_part (parts : list string) : string := List.last parts "".

(** The first element, [parts[0]]. *)
Definition first_part (parts : list string) : string := List.hd "" parts.

(** The interior loop of [matchWithDoubleWildcard],
    [for i := 1; i < len(parts)-1; i++]: [middle] is [parts[1:len(parts)-1]]. *)
Fixpoint middle_loop (middle : list string) (path : string) : bool :=
  match middle with
  | [] => true
  | part :: rest =>
      if String.eqb part "" then middle_loop rest path
      else
        let middlePart := Trim part "/" in
        if negb (Contains path middlePart) then false
        else middle_loop rest path
  end.

(** [parts[1:len(parts)-1]] *)
Definition interior (parts : list string) : list string :=
  List.removelast (List.tl parts).

(** [MatchPattern] and [matchWithDoubleWildcard] call each other in the
    source; each body is written here over the other function, and the
    knot is tied below ([MatchPattern_unfold],
    [matchWithDoubleWildcard_unfold]). *)
Definition matchWithDoubleWildcard_body
           (MatchPattern : string -> string -> bool)
           (pattern path : string) : bool :=
  let parts := Split pattern "**" in
  if (length parts =? 1)%nat then MatchPattern pattern path
  else
    (* prefix part *)
    let step1 : option string :=
      if negb (String.eqb (first_part parts) "") then
        let prefix := TrimSuffix (first_part parts) "/" in
        if negb (String.eqb prefix "") && negb (HasPrefix path prefix)
        then None
        else Some (TrimPrefix path prefix)
      else Some path in
    match step1 with
    | None => false
    | Some path1 =>
        (* suffix part *)
        let step2 : option string :=
          if (1 <? length parts)%nat && negb (String.eqb (last_part parts) "") then
            let suffix := TrimPrefix (last_part parts) "/" in
            if negb (String.eqb suffix "") && negb (HasSuffix path1 suffix)
            then None
            else Some (TrimSuffix path1 suffix)
          else Some path1 in
        match step2 with
        | None => false
        | Some path2 =>
            if (2 <? length parts)%nat then middle_loop (interior parts) path2
            else true
        end
    end.

Definition MatchPattern_body
           (matchWithDoubleWildcard : string -> string -> bool)
           (pattern path : string) : bool :=
  if String.eqb pattern path then true
  else if negb (Contains pattern "*") then String.eqb pattern path
  else if Contains pattern "**" then matchWithDoubleWildcard pattern path
  else
    let patternParts := Split pattern "/" in
    let pathParts := Split path "/" in
    if negb (length patternParts =? length pathParts)%nat then
      if (0 <? length patternParts)%nat && HasSuffix (last_part patternParts) "*"
      then matchPrefix pattern path
      else if (0 <? length patternParts)%nat && HasPrefix (first_part patternParts) "*"
      then matchSuffix pattern path
      else false
    else matchSegments patternParts pathParts.

(** [MatchPattern] on a pattern without ["**"]: the branch that calls
    [matchWithDoubleWildcard] is not taken there. *)
Definition MatchPattern_single : string -> string -> bool :=
  MatchPattern_body (fun _ _ => false).

Definition matchWithDoubleWildcard : string -> string -> bool :=
  matchWithDoubleWildcard_body MatchPattern_single.

Definition MatchPattern : string -> string -> bool :=
  MatchPattern_body matchWithDoubleWildcard.

(** The position loop of [GetPatternPriority]:
    [for i, part := range parts]. *)
Fixpoint position_penalty (rest : list string) (i n : nat) (priority : Z) : Z :=
  match rest with
  | [] => priority
  | part :: rest' =>
      let priority' :=
        if String.eqb part "*" then priority - (Z.of_nat n - Z.of_nat i) * 10
        else if Contains part "*" then priority - (Z.of_nat n - Z.of_nat i) * 5
        else priority in
      position_penalty rest' (S i) n priority'
  end.

Definition GetPatternPriority (pattern : string) : Z :=
  if negb (Contains pattern "*") then 1000
  else if Contains pattern "**" then
    let doubleWildcardCount := Count pattern "**" in
    let priority := 300 - doubleWildcardCount * 50 in
    let singleWildcardCount := Count pattern "*" - doubleWildcardCount * 2 in
    priority - singleWildcardCount * 20
  else if HasSuffix pattern "*" then
    let prefixLen := Z.of_nat (len (TrimSuffix pattern "*")) in
    150 + prefixLen
  else if HasPrefix pattern "*" then
    let suffixLen := Z.of_nat (len (TrimPrefix pattern "*")) in
    100 + suffixLen
  else
    let wildcardCount := Count pattern "*" in
    let priority := 700 - wildcardCount * 100 in
    let parts := Split pattern "/" in
    let priority := position_penalty parts 0 (length parts) priority in
    if priority <? 0 then 1 else priority.

Definition IsValidPattern (pattern : string) : bool :=
  if String.eqb pattern "" then false
  else if negb (HasPrefix pattern "/") then false
  else if Contains pattern "//" then false
  else true.

Definition NormalizePattern (pattern : string) : string :=
  let pattern := if negb (HasPrefix pattern "/") then "/" +:+ pattern else pattern in
  if (1 <? len pattern)%nat && HasSuffix pattern "/"
  then TrimSuffix pattern "/"
  else pattern.

End Pattern.


(** ** Wire protocol ([internal/protocol], the server's package) *)
Module Protocol.

Definition MessageTypeControl : string := "CONTROL".
Definition MessageTypeMessage : string := "MESSAGE".
Definition MessageTypeACK : string := "ACK".
Definition MessageTypeError : string := "ERROR".

Definition OpRegister : string := "REGISTER".
Definition OpRegisterAck : string := "REGISTER_ACK".
Definition OpRouteSync : string := "ROUTE_SYNC".
Definition OpRouteSyncAck : string := "ROUTE_SYNC_ACK".
Definition OpRequest : string := "REQUEST".
Definition OpResponse : string := "RESPONSE".
Definition OpACK : string := "ACK".
Definition OpPing : string := "PING".
Definition OpPong : string := "PONG".
Definition OpCancel : string := "CANCEL".
Definition OpError : string := "ERROR".

Module RequestPayload.
(** [Body] is an [interface{}] in the source; the proxy stores a
    string in it. *)
Record t := mk {
  URLSuffix : string;
  HTTPMethod : string;
  Headers : gmap string string;
  Params : gmap string string;
  Body : string;
  TimeoutMS : Z;
  TargetsJSON : string;
  DeliveryPolicy : string;
  RouteMode : string
}.
End RequestPayload.

(** A non-nil value held in an [interface{}], as the code looks at it:
    through a type switch with the cases [string] and [[]byte]; a value
    of any other dynamic type (after [json.Unmarshal]: [float64],
    [bool], [[]interface{}], [map[string]interface{}]) is only ever
    formatted with [%v], and is kept as that text. *)
Inductive Value :=
| StringValue (s : string)
| BytesValue (b : string)
| OtherValue (formatted : string).

Module ResponsePayload.
(** [Body] is an [interface{}]; [None] is [nil]. *)
Record t := mk {
  HTTPStatus : Z;
  Headers : gmap string string;
  Body : option Value;
  LatencyMS : Z;
  Error : option string
}.
End ResponsePayload.

Record ErrorPayload := mkErrorPayload {
  Code : string;
  ErrMessage : string;
  Details : string
}.

(** The payload structs of the frames the server builds. *)
Inductive OutPayload :=
| OutRequest (r : RequestPayload.t)
| OutPing (timestamp : Z)
| OutPong (timestamp : Z)
| OutRegisterAck (success : bool) (message : string).

(** [Message].  [Payload] is a [json.RawMessage]: on a frame decoded
    from the socket it is the JSON text of the payload ([P := string]);
    on a frame built by the server it is kept as the payload struct that
    [NewMessage] marshals ([P := OutPayload]). *)
Record Message (P : Type) := mkMessage {
  Type_ : string;
  Op : string;
  MsgID : option string;
  ClientID : string;
  TS : Z;
  Payload : P
}.
Arguments mkMessage {P}.
Arguments Type_ {P}.
Arguments Op {P}.
Arguments MsgID {P}.
Arguments ClientID {P}.
Arguments TS {P}.
Arguments Payload {P}.

(** [NewMessage]; [now] is [time.Now().UnixMilli()].  ([json.Marshal]
    does not fail on the payload structs above.) *)
Definition NewMessage (msgType op clientID : string) (msgID : option string)
           (payload : OutPayload) (now : Z) : Message OutPayload :=
  mkMessage msgType op msgID clientID now payload.

(** [encoding/json], as far as the manager uses it: decoding a text
    frame into a [Message], and decoding a payload into the struct a
    handler asks for.  [None] is a decoding error. *)
Class JSON := {
  Unmarshal_Message : string -> option (Message string);
  Unmarshal_ResponsePayload : string -> option ResponsePayload.t;
  Unmarshal_ErrorPayload : string -> option ErrorPayload
}.

(** [Message.ParsePayload] into a [ResponsePayload]. *)
Definition ParsePayload_Response `{J : JSON} (m : Message string)
  : option ResponsePayload.t :=
  Unmarshal_ResponsePayload (Payload m).

(** [Message.ParsePayload] into an [ErrorPayload]. *)
Definition ParsePayload_Error `{J : JSON} (m : Message string)
  : option ErrorPayload :=
  Unmarshal_ErrorPayload (Payload m).

End Protocol.

(** ** The store ([internal/database]) *)
Module Database.

Definition MessageStatePending : string := "pending".
Definition MessageStateProcessing : string := "processing".
Definition MessageStateDone : string := "done".
Definition MessageStateFailed : string := "failed".
Definition MessageStateCancelled : string := "cancelled".

Record ServerRoute := mkServerRoute {
  ID : Z;
  URLSuffix : string;
  RouteClientID : string;
  TargetsJSON : string;
  DeliveryPolicy : string;
  RouteMode : string;
  RouteEnabled : Z;
  Description : string
}.

Definition ServerRoute_IsEnabled (sr : ServerRoute) : bool :=
  RouteEnabled sr =? 1.

Record Client := mkClient {
  ClientID : string;
  AuthToken : string;
  Status : string;
  Enabled : Z;
  LastSeenTS : option Z;
  LocalIPs : string
}.

Record PendingMessage := mkPendingMessage {
  PMClientID : string;
  PMURLSuffix : string;
  State : string;
  ResponseMeta : option Protocol.ResponsePayload.t
}.

(** The tables the core reads and writes.  [failing] stands for a store
    whose statements return an error: reads fail, writes change
    nothing. *)
Record Repository := mkRepository {
  server_routes : list ServerRoute;
  clients_table : gmap string Client;
  pending_messages : gmap string PendingMessage;
  failing : bool
}.

Definition ListServerRoutes (r : Repository) : option (list ServerRoute) :=
  if failing r then None else Some (server_routes r).

(** [GetClient]: an error when the row is missing. *)
Definition GetClient (r : Repository) (clientID : string) : option Client :=
  if failing r then None else clients_table r !! clientID.

Definition set_pending_messages (f : gmap string PendingMessage -> gmap string PendingMessage)
           (r : Repository) : Repository :=
  mkRepository (server_routes r) (clients_table r) (f (pending_messages r)) (failing r).

Definition set_clients_table (f : gmap string Client -> gmap string Client)
           (r : Repository) : Repository :=
  mkRepository (server_routes r) (f (clients_table r)) (pending_messages r) (failing r).

(** [CreatePendingMessage]: an [INSERT]; [msg_id] is the primary key. *)
Definition CreatePendingMessage (r : Repository) (msgID : string)
           (pm : PendingMessage) : Repository :=
  if failing r then r
  else match pending_messages r !! msgID with
       | Some _ => r
       | None => set_pending_messages (insert msgID pm) r
       end.

(** [UpdatePendingMessageState]: [UPDATE ... SET state = ? WHERE msg_id = ?] *)
Definition UpdatePendingMessageState (r : Repository) (msgID state : string)
  : Repository :=
  if failing r then r
  else set_pending_messages
         (alter (fun pm => mkPendingMessage (PMClientID pm) (PMURLSuffix pm)
                             state (ResponseMeta pm)) msgID) r.

(** [UpdatePendingMessageResponse] *)
Definition UpdatePendingMessageResponse (r : Repository) (msgID state : string)
           (meta : Protocol.ResponsePayload.t) : Repository :=
  if failing r then r
  else set_pending_messages
         (alter (fun pm => mkPendingMessage (PMClientID pm) (PMURLSuffix pm)
                             state (Some meta)) msgID) r.

(** [UpdateClientStatus]; [now] is [time.Now().UnixMilli()]. *)
Definition UpdateClientStatus (r : Repository) (clientID status : string)
           (now : Z) : Repository :=
  if failing r then r
  else set_clients_table
         (alter (fun c => mkClient (ClientID c) (AuthToken c) status
                            (Enabled c) (Some now) (LocalIPs c)) clientID) r.

(** [UpdateClientLastSeen] *)
Definition UpdateClientLastSeen (r : Repository) (clientID : string)
           (lastSeenTS : Z) : Repository :=
  if failing r then r
  else set_clients_table
         (alter (fun c => mkClient (ClientID c) (AuthToken c) (Status c)
                            (Enabled c) (Some lastSeenTS) (LocalIPs c)) clientID) r.

(** [UpdateClientLocalIPs]: [UPDATE clients SET local_ips = ? WHERE client_id = ?] *)
Definition UpdateClientLocalIPs (r : Repository) (clientID localIPs : string)
  : Repository :=
  if failing r then r
  else set_clients_table
         (alter (fun c => mkClient (ClientID c) (AuthToken c) (Status c)
                            (Enabled c) (LastSeenTS c) localIPs) clientID) r.

(** [UpdateClientLastActiveTime]; [lastActiveTime] is the instant in
    milliseconds. *)
Definition UpdateClientLastActiveTime (r : Repository) (clientID : string)
           (lastActiveTime : Z) : Repository :=
  if failing r then r
  else set_clients_table
         (alter (fun c => mkClient (ClientID c) (AuthToken c) (Status c)
                            (Enabled c) (Some lastActiveTime) (LocalIPs c)) clientID) r.

End Database.

(** ** [net/url]: query values *)
Module NetURL.

(** [url.Values], a [map[string][]string].  A URL carries its query as
    the text [Values.Encode] produces and [URL.Query] parses back; the
    model keeps the values themselves. *)
Abbreviation Values := (gmap string (list string)).

(** [Values.Set] *)
Definition Set_ (v : Values) (key value : string) : Values :=
  <[key := [value]]> v.

(** [Values.Get]: the first value of [key], or the empty string. *)
Definition Get (v : Values) (key : string) : string :=
  match v !! key with
  | Some (x :: _) => x
  | _ => ""
  end.

(** [url.URL], with [Host] as the pair that [fmt.Sprintf("%s:%d", ...)]
    prints. *)
Record URL := mkURL {
  Scheme : string;
  Host : string * Z;
  Path : string;
  Query : Values
}.

End NetURL.

(** ** The connection manager ([internal/websocket]) *)
Module Websocket.
Import Protocol.

(** Frame kinds of the WebSocket library (gorilla/websocket). *)
Definition TextMessage : Z := 1.
Definition BinaryMessage : Z := 2.
Definition CloseMessage : Z := 8.
Definition PingMessage : Z := 9.
Definition PongMessage : Z := 10.

(** [ClientConn].  [sendQueue] is the buffered channel (oldest frame
    first) and [sendQueueSize] its capacity; the frames are kept as
    built, before [json.Marshal].  [cancelled] is the state of [ctx]
    ([cancel] sets it), [closed] that of the socket ([conn.Close]). *)
Record ClientConn := mkClientConn {
  clientID : string;
  sendQueue : list (Message OutPayload);
  sendQueueSize : nat;
  lastSeen : Z;
  lastActivity : Z;
  connectedAt : Z;
  messageCount : Z;
  adaptiveInterval : Z;
  networkQuality : string;
  rttSamples : list Z;
  cancelled : bool;
  closed : bool
}.

Definition conn_cancel (c : ClientConn) : ClientConn :=
  mkClientConn (clientID c) (sendQueue c) (sendQueueSize c) (lastSeen c)
    (lastActivity c) (connectedAt c) (messageCount c) (adaptiveInterval c)
    (networkQuality c) (rttSamples c) true (closed c).

Definition conn_close (c : ClientConn) : ClientConn :=
  mkClientConn (clientID c) (sendQueue c) (sendQueueSize c) (lastSeen c)
    (lastActivity c) (connectedAt c) (messageCount c) (adaptiveInterval c)
    (networkQuality c) (rttSamples c) (cancelled c) true.

Definition conn_set_lastSeen (now : Z) (c : ClientConn) : ClientConn :=
  mkClientConn (clientID c) (sendQueue c) (sendQueueSize c) now
    (lastActivity c) (connectedAt c) (messageCount c) (adaptiveInterval c)
    (networkQuality c) (rttSamples c) (cancelled c) (closed c).

Definition conn_set_lastActivity (now : Z) (c : ClientConn) : ClientConn :=
  mkClientConn (clientID c) (sendQueue c) (sendQueueSize c) (lastSeen c)
    now (connectedAt c) (messageCount c) (adaptiveInterval c)
    (networkQuality c) (rttSamples c) (cancelled c) (closed c).

Definition conn_enqueue (msg : Message OutPayload) (c : ClientConn) : ClientConn :=
  mkClientConn (clientID c) (sendQueue c ++ [msg]) (sendQueueSize c) (lastSeen c)
    (lastActivity c) (connectedAt c) (messageCount c + 1) (adaptiveInterval c)
    (networkQuality c) (rttSamples c) (cancelled c) (closed c).

Definition conn_init_quality (base : Z) (c : ClientConn) : ClientConn :=
  mkClientConn (clientID c) (sendQueue c) (sendQueueSize c) (lastSeen c)
    (lastActivity c) (connectedAt c) (messageCount c) base
    "unknown" [] (cancelled c) (closed c).

(** [PendingContext].  [resultCh] is the channel of capacity 1 (its
    buffer; an element [None] is a [nil] pointer), [resultClosed] says
    whether it was closed; [ctx] is a context with a deadline:
    [ctxCancelled] records a call of [cancel], [deadline] is the
    instant the timeout fires. *)
Record PendingContext := mkPendingContext {
  msgID : string;
  resultCh : list (option ResponsePayload.t);
  resultClosed : bool;
  deadline : Z;
  ctxCancelled : bool;
  createdAt : Z
}.

Definition pending_cancel (p : PendingContext) : PendingContext :=
  mkPendingContext (msgID p) (resultCh p) (resultClosed p) (deadline p)
    true (createdAt p).

Definition pending_close (p : PendingContext) : PendingContext :=
  mkPendingContext (msgID p) (resultCh p) true (deadline p)
    (ctxCancelled p) (createdAt p).

Definition pending_set_resultCh (ch : list (option ResponsePayload.t))
           (p : PendingContext) : PendingContext :=
  mkPendingContext (msgID p) ch (resultClosed p) (deadline p)
    (ctxCancelled p) (createdAt p).

(** [ctx.Done()] is ready at instant [now]. *)
Definition ctx_done (p : PendingContext) (now : Z) : bool :=
  ctxCancelled p || (deadline p <=? now).

(** The non-blocking send [select { case ch <- v: ... default: ... }]
    on the channel of capacity 1: the new buffer, and whether the value
    was taken. *)
Definition try_send (v : option ResponsePayload.t)
           (ch : list (option ResponsePayload.t))
  : list (option ResponsePayload.t) * bool :=
  if (length ch <? 1)%nat then (ch ++ [v], true) else (ch, false).

(** Configuration values the manager reads. *)
Record Config := mkConfig {
  SendQueueSize : nat;
  PingInterval : Z;
  RequestTimeout : Z
}.

(** [Manager].  Its mutex makes each function below that takes it one
    step: the functions are state transformers, and what runs
    concurrently is an interleaving of them.  The maps of the source
    hold pointers: [clients] and [pending] hold addresses, [conns] and
    [pctxs] are the records they point to, so that a record stays
    reachable by whoever holds its address after its map entry is
    replaced or deleted.  [db] is the repository, [metricsErrors] the
    error counter of the metrics collector, [logs] what [log.Printf]
    wrote (format strings, newest last). *)
Record Manager := mkManager {
  config : Config;
  clients : gmap string nat;
  conns : gmap nat ClientConn;
  pending : gmap string nat;
  pctxs : gmap nat PendingContext;
  db : Database.Repository;
  statsTotalConnections : Z;
  statsActiveConnections : Z;
  baseHeartbeatInterval : Z;
  metricsErrors : Z;
  logs : list string
}.

Definition set_clients (f : gmap string nat -> gmap string nat) (m : Manager) : Manager :=
  mkManager (config m) (f (clients m)) (conns m) (pending m) (pctxs m) (db m)
    (statsTotalConnections m) (statsActiveConnections m)
    (baseHeartbeatInterval m) (metricsErrors m) (logs m).

Definition set_conns (f : gmap nat ClientConn -> gmap nat ClientConn) (m : Manager) : Manager :=
  mkManager (config m) (clients m) (f (conns m)) (pending m) (pctxs m) (db m)
    (statsTotalConnections m) (statsActiveConnections m)
    (baseHeartbeatInterval m) (metricsErrors m) (logs m).

Definition set_pending (f : gmap string nat -> gmap string nat) (m : Manager) : Manager :=
  mkManager (config m) (clients m) (conns m) (f (pending m)) (pctxs m) (db m)
    (statsTotalConnections m) (statsActiveConnections m)
    (baseHeartbeatInterval m) (metricsErrors m) (logs m).

Definition set_pctxs (f : gmap nat PendingContext -> gmap nat PendingContext) (m : Manager) : Manager :=
  mkManager (config m) (clients m) (conns m) (pending m) (f (pctxs m)) (db m)
    (statsTotalConnections m) (statsActiveConnections m)
    (baseHeartbeatInterval m) (metricsErrors m) (logs m).

Definition set_db (f : Database.Repository -> Database.Repository) (m : Manager) : Manager :=
  mkManager (config m) (clients m) (conns m) (pending m) (pctxs m) (f (db m))
    (statsTotalConnections m) (statsActiveConnections m)
    (baseHeartbeatInterval m) (metricsErrors m) (logs m).

Definition set_stats (total active : Z) (m : Manager) : Manager :=
  mkManager (config m) (clients m) (conns m) (pending m) (pctxs m) (db m)
    total active (baseHeartbeatInterval m) (metricsErrors m) (logs m).

(** [collector.IncrementErrors()] *)
Definition IncrementErrors (m : Manager) : Manager :=
  mkManager (config m) (clients m) (conns m) (pending m) (pctxs m) (db m)
    (statsTotalConnections m) (statsActiveConnections m)
    (baseHeartbeatInterval m) (metricsErrors m + 1) (logs m).

(** [log.Printf(format, ...)] *)
Definition logf (format : string) (m : Manager) : Manager :=
  mkManager (config m) (clients m) (conns m) (pending m) (pctxs m) (db m)
    (statsTotalConnections m) (statsActiveConnections m)
    (baseHeartbeatInterval m) (metricsErrors m) (logs m ++ [format]).

(** [registerClient]; [client] is the address of the new connection
    record, already allocated in [conns] by [handleConnection]. *)
Definition registerClient (m : Manager) (client : nat) : Manager :=
  match conns m !! client with
  | None => m
  | Some c =>
      let m := set_clients (insert (clientID c) client) m in
      let m := set_stats (statsTotalConnections m + 1)
                         (Z.of_nat (size (clients m))) m in
      let m := set_conns (alter (conn_init_quality (baseHeartbeatInterval m)) client) m in
      logf "Client %s registered, total clients: %d" m
  end.

(** [unregisterClient].  [poolFull] says whether the worker pool
    refuses the status update ([Submit] returns an error); otherwise
    the [DatabaseUpdateTask] is run, at instant [now]. *)
Definition unregisterClient (m : Manager) (clientID : string)
           (poolFull : bool) (now : Z) : Manager :=
  let m := set_clients (delete clientID) m in
  if poolFull
  then logf "Worker pool queue full, skipping status update for client %s: %v" m
  else set_db (fun r => Database.UpdateClientStatus r clientID "offline" now) m.

(** [handleConnection], up to the start of the two loops: the record
    is allocated at the fresh address [client] and registered. *)
Definition handleConnection_enter (m : Manager) (id : string)
           (client : nat) (now : Z) : Manager :=
  let c := mkClientConn id [] (SendQueueSize (config m)) now 0 now 0
             (PingInterval (config m)) "" [] false false in
  registerClient (set_conns (insert client c) m) client.

(** [handleConnection], the deferred function, run when both loops
    have returned. *)
Definition handleConnection_exit (m : Manager) (id : string)
           (client : nat) (poolFull : bool) (now : Z) : Manager :=
  let m := set_conns (alter conn_cancel client) m in
  let m := unregisterClient m id poolFull now in
  let m := set_conns (alter conn_close client) m in
  logf "Client %s disconnected" m.

(** [IsClientConnected] *)
Definition IsClientConnected (m : Manager) (clientID : string) : bool :=
  bool_decide (is_Some (clients m !! clientID)).

(** [SendToClient]: the new state and the error, if any. *)
Definition SendToClient (m : Manager) (clientID : string)
           (msg : Message OutPayload) : Manager * option string :=
  match clients m !! clientID with
  | None => (m, Some "client %s not found")
  | Some client =>
      match conns m !! client with
      | None => (m, Some "client %s not found")
      | Some c =>
          if (length (sendQueue c) <? sendQueueSize c)%nat
          then (set_conns (alter (conn_enqueue msg) client) m, None)
          else (m, Some "client %s send queue is full")
      end
  end.


(** A store write whose error is only logged. *)
Definition db_write (f : Database.Repository -> Database.Repository)
           (errFormat : string) (m : Manager) : Manager :=
  if Database.failing (db m) then logf errFormat m else set_db f m.

(** The tail of [handleResponse] and of [handleErrorMessage]: look the
    waiter up and hand [v] over without blocking. *)
Definition notify_pending (m : Manager) (id : string)
           (v : ResponsePayload.t) : option (Manager * bool) :=
  match pending m !! id with
  | None => None
  | Some p =>
      match pctxs m !! p with
      | None => None
      | Some pc =>
          let '(ch, sent) := try_send (Some v) (resultCh pc) in
          if sent then Some (set_pctxs (alter (pending_set_resultCh ch) p) m, true)
          else Some (m, false)
      end
  end.

(** [handleResponse].  ([json.Marshal] of the response meta-data, a
    value that was just decoded from JSON, does not fail.) *)
Definition handleResponse `{J : JSON} (m : Manager) (client : nat)
           (msg : Message string) : Manager :=
  match MsgID msg with
  | None => logf "Response message from client %s missing msg_id" m
  | Some id =>
      let m := logf "[WebSocket Receive] Raw message from client %s: %+v" m in
      match ParsePayload_Response msg with
      | None => logf "Failed to parse response payload from client %s: %v" m
      | Some responsePayload =>
          let m := logf "[WebSocket Receive] Parsed response from client %s for message %s" m in
          let m := match ResponsePayload.Body responsePayload with
                   | Some _ => logf "[WebSocket Receive] Response body preview: %s" m
                   | None => m
                   end in
          let state :=
            if (400 <=? ResponsePayload.HTTPStatus responsePayload)
               || bool_decide (is_Some (ResponsePayload.Error responsePayload))
            then Database.MessageStateFailed
            else Database.MessageStateDone in
          let m := db_write
                     (fun r => Database.UpdatePendingMessageResponse r id state responsePayload)
                     "Failed to update pending message response: %v" m in
          let m := logf "[WebSocket Receive] Looking for pending request with msgID: %s" m in
          match pending m !! id with
          | Some _ =>
              let m := logf "[WebSocket Receive] Found pending request for msgID: %s, attempting to notify waiting goroutine" m in
              match notify_pending m id responsePayload with
              | Some (m', true) =>
                  logf "[WebSocket Receive] Successfully notified waiting goroutine for msgID: %s" m'
              | Some (m', false) =>
                  logf "[WebSocket Receive] Failed to send response to pending request %s - channel blocked or closed" m'
              | None => m
              end
          | None =>
              let m := logf "[WebSocket Receive] No pending request found for msgID: %s" m in
              logf "[WebSocket Receive] Current pending request IDs: %v" m
          end
      end
  end.

(** [handleErrorMessage] *)
Definition handleErrorMessage `{J : JSON} (m : Manager) (client : nat)
           (msg : Message string) : Manager :=
  match ParsePayload_Error msg with
  | None => logf "Failed to parse error payload from client %s: %v" m
  | Some errorPayload =>
      let m := logf "Received error from client %s: %s - %s" m in
      match MsgID msg with
      | None => m
      | Some id =>
          let m := db_write
                     (fun r => Database.UpdatePendingMessageState r id Database.MessageStateFailed)
                     "Failed to update pending message state: %v" m in
          match notify_pending m id
                  (ResponsePayload.mk 500 ∅ None 0 (Some (ErrMessage errorPayload))) with
          | Some (m', _) => m'
          | None => m
          end
      end
  end.

(** The addresses among [ptrs] get [cancel()] called. *)
Definition cancel_pctxs (ptrs : list nat) (h : gmap nat PendingContext)
  : gmap nat PendingContext :=
  foldr (fun p h => alter pending_cancel p h) h ptrs.

(** Is the entry at address [p] older than [maxAge] at [now]
    ([now.Sub(pending.createdAt) > maxAge])? *)
Definition is_expired (m : Manager) (now maxAge : Z) (p : nat) : bool :=
  match pctxs m !! p with
  | Some pc => maxAge <? now - createdAt pc
  | None => false
  end.

(** [cleanupExpiredPending], the sweep of the background task: expired
    entries are cancelled and deleted. *)
Definition cleanupExpiredPending (m : Manager) (now : Z) : Manager :=
  let maxAge := RequestTimeout (config m) in
  let expired := filter (fun kv => is_expired m now maxAge kv.2 = true) (pending m) in
  let m := set_pctxs (cancel_pctxs (map snd (map_to_list expired))) m in
  set_pending (filter (fun kv => is_expired m now maxAge kv.2 <> true)) m.

(** The synthetic response of [CleanupExpiredPending]. *)
Definition timeoutResponse : ResponsePayload.t :=
  ResponsePayload.mk 504 ∅ None 0 (Some "Request timeout").

(** The second loop of [CleanupExpiredPending]. *)
Fixpoint expire_entries (expired : list string) (m : Manager) : Manager :=
  match expired with
  | [] => m
  | id :: rest =>
      let m :=
        match notify_pending m id timeoutResponse with
        | Some (m', _) => set_pending (delete id) m'
        | None => m
        end in
      expire_entries rest m
  end.

(** [CleanupExpiredPending] *)
Definition CleanupExpiredPending (m : Manager) (maxAge now : Z) : Manager :=
  let expired :=
    map fst (map_to_list
      (filter (fun kv => is_expired m now maxAge kv.2 = true) (pending m))) in
  let m := expire_entries expired m in
  if (0 <? length expired)%nat
  then logf "Cleaned up %d expired pending requests" m
  else m.

(** [Close]: the manager's context is cancelled, and with it the
    context of every connection, which was derived from it; then every
    pending request is cancelled. *)
Definition Close (m : Manager) : Manager :=
  let m := set_conns (fmap conn_cancel) m in
  let m := set_pctxs (cancel_pctxs (map snd (map_to_list (pending m)))) m in
  logf "WebSocket manager resources cleaned up" m.

(** The result of [SendRequestAndWait]. *)
Inductive result :=
| Ok (response : ResponsePayload.t)
| Err (error : string).

(** The deferred function of [SendRequestAndWait]: delete the entry,
    [cancel()], [close(resultCh)]. *)
Definition SendRequestAndWait_cleanup (m : Manager) (id : string) (p : nat)
  : Manager :=
  let m := set_pending (delete id) m in
  let m := set_pctxs (alter pending_cancel p) m in
  let m := set_pctxs (alter pending_close p) m in
  logf "[SendRequestAndWait] Cleaned up pending request %s, remaining pending: %d" m.

(** [SendRequestAndWait] up to the [select]: [id] is the UUID drawn for
    this call and [p] the fresh address of its [PendingContext]; [now]
    is the instant of the call.  [Some err]: the call has returned
    [err] (the deferred cleanup included); [None]: the request is in
    the client's queue and the caller waits. *)
Definition SendRequestAndWait_send (m : Manager) (clientID : string)
           (requestPayload : RequestPayload.t) (timeout : Z)
           (id : string) (p : nat) (now : Z) : Manager * option string :=
  if negb (IsClientConnected m clientID)
  then (m, Some "client %s is not connected")
  else
    let requestMsg :=
      NewMessage MessageTypeMessage OpRequest clientID (Some id)
                 (OutRequest requestPayload) now in
    let pc := mkPendingContext id [] false (now + timeout) false now in
    let m := set_pctxs (insert p pc) m in
    let m := set_pending (insert id p) m in
    let m := logf "[SendRequestAndWait] Registered pending request %s, total pending: %d" m in
    let pendingMsg :=
      Database.mkPendingMessage clientID (RequestPayload.URLSuffix requestPayload)
                                Database.MessageStatePending None in
    let m := if Database.failing (db m)
                || bool_decide (is_Some (Database.pending_messages (db m) !! id))
             then logf "Failed to save pending message to database: %v" m
             else set_db (fun r => Database.CreatePendingMessage r id pendingMsg) m in
    let m := logf "[SendRequestAndWait] Sending request %s to client %s: %s %s" m in
    match SendToClient m clientID requestMsg with
    | (m, Some _) =>
        let m := logf "[SendRequestAndWait] Failed to send request %s to client %s: %v" m in
        (SendRequestAndWait_cleanup m id p,
         Some "failed to send request to client: %w")
    | (m, None) =>
        let m := logf "[SendRequestAndWait] Successfully sent request %s to client %s, waiting for response..." m in
        (logf "[SendRequestAndWait] Waiting for response to request %s (timeout: %v)" m,
         None)
    end.

(** What the [select] of the waiter can choose. *)
Inductive wait_outcome :=
| Received (response : option ResponsePayload.t)
| Done.

(** The [select] over [<-resultCh] and [<-pending.ctx.Done()] at
    instant [now]: [None] while neither is ready; when both are ready
    Go picks either, [pickResult] says which. *)
Definition select_wait (pc : PendingContext) (now : Z) (pickResult : bool)
  : option (wait_outcome * PendingContext) :=
  let recv : option (wait_outcome * PendingContext) :=
    match resultCh pc with
    | v :: rest => Some (Received v, pending_set_resultCh rest pc)
    | [] => if resultClosed pc then Some (Received None, pc) else None
    end in
  match recv, ctx_done pc now with
  | None, false => None
  | Some r, false => Some r
  | None, true => Some (Done, pc)
  | Some r, true => if pickResult then Some r else Some (Done, pc)
  end.

(** [SendRequestAndWait] from the [select] on, run in state [m] at
    instant [now]: [None] while the caller is still blocked. *)
Definition SendRequestAndWait_wait (m : Manager) (id : string) (p : nat)
           (now : Z) (pickResult : bool) : option (Manager * result) :=
  match pctxs m !! p with
  | None => None
  | Some pc =>
      match select_wait pc now pickResult with
      | None => None
      | Some (Received None, pc') =>
          let m := set_pctxs (insert p pc') m in
          let m := logf "[SendRequestAndWait] Received nil response for request %s" m in
          Some (SendRequestAndWait_cleanup m id p, Err "received nil response")
      | Some (Received (Some response), pc') =>
          let m := set_pctxs (insert p pc') m in
          let m := logf "[SendRequestAndWait] Successfully received response for request %s - Status: %d" m in
          Some (SendRequestAndWait_cleanup m id p, Ok response)
      | Some (Done, _) =>
          let m := logf "[SendRequestAndWait] Request %s timed out after %v" m in
          let m := db_write
                     (fun r => Database.UpdatePendingMessageState r id Database.MessageStateFailed)
                     "[SendRequestAndWait] Failed to update message state to timeout for %s: %v" m in
          Some (SendRequestAndWait_cleanup m id p, Err "request timeout after %v")
      end
  end.

(** [SendRequestAndWait].  Between the send (at [now]) and the moment
    the [select] fires (at [now']) the other goroutines run: [others]
    is what they do to the manager in that time. *)
Definition SendRequestAndWait (m : Manager) (clientID : string)
           (requestPayload : RequestPayload.t) (timeout : Z)
           (id : string) (p : nat) (now : Z)
           (others : Manager -> Manager) (now' : Z) (pickResult : bool)
  : option (Manager * result) :=
  match SendRequestAndWait_send m clientID requestPayload timeout id p now with
  | (m, Some err) => Some (m, Err err)
  | (m, None) => SendRequestAndWait_wait (others m) id p now' pickResult
  end.

(** The handlers of the REGISTER, PING, PONG and ACK frames
    ([handleRegister], [handlePing], [handlePong], [handleACKMessage]):
    state transformers on the manager, at the connection whose address
    they are given. *)
Class Handlers := {
  handleRegister : Manager -> nat -> Message string -> Manager;
  handlePong : Manager -> nat -> Message string -> Manager;
  handlePing : Manager -> nat -> Message string -> Manager;
  handleACKMessage : Manager -> nat -> Message string -> Manager
}.

(** [handleControlMessage] *)
Definition handleControlMessage `{Hd : Handlers} (m : Manager) (client : nat)
           (msg : Message string) : Manager :=
  if String.eqb (Op msg) OpRegister then handleRegister m client msg
  else if String.eqb (Op msg) OpPong then handlePong m client msg
  else if String.eqb (Op msg) OpPing then handlePing m client msg
  else logf "Unknown control operation %s from client %s" m.

(** [handleDataMessage] *)
Definition handleDataMessage `{J : JSON} (m : Manager) (client : nat)
           (msg : Message string) : Manager :=
  if String.eqb (Op msg) OpRequest then
    logf "Handling request message from client %s" m
  else if String.eqb (Op msg) OpResponse then
    handleResponse (logf "Handling response message from client %s" m) client msg
  else logf "Unknown data operation: %s" m.

(** [MessageTask]: [client] is the address of the connection. *)
Record MessageTask := mkMessageTask {
  client : nat;
  messageType : Z;
  data : string
}.

Record TaskResult := mkTaskResult { Success : bool }.

(** [MessageTask.Execute], run at instant [now]. *)
Definition Execute `{J : JSON} `{Hd : Handlers} (t : MessageTask) (m : Manager) (now : Z)
  : Manager * TaskResult :=
  if messageType t =? PingMessage then
    let m := logf "Received ping from client %s" m in
    (set_conns (alter (conn_set_lastSeen now) (client t)) m, mkTaskResult true)
  else if messageType t =? PongMessage then
    let m := logf "Received pong from client %s" m in
    (set_conns (alter (conn_set_lastSeen now) (client t)) m, mkTaskResult true)
  else if messageType t =? CloseMessage then
    (logf "Received close message from client %s" m, mkTaskResult true)
  else if messageType t =? BinaryMessage then
    (logf "Received binary message from client %s, length: %d" m, mkTaskResult true)
  else if messageType t =? TextMessage then
    match Unmarshal_Message (data t) with
    | None =>
        let m := logf "Failed to parse JSON message from client %s: %v" m in
        let m := logf "Raw message data (first 200 chars): %s" m in
        let m := IncrementErrors m in
        let m := logf "Ignoring non-JSON message from client %s" m in
        (m, mkTaskResult true)
    | Some msg =>
        let m :=
          if String.eqb (Type_ msg) MessageTypeControl then
            handleControlMessage m (client t) msg
          else if String.eqb (Type_ msg) MessageTypeMessage then
            handleDataMessage m (client t) msg
          else if String.eqb (Type_ msg) MessageTypeACK then
            handleACKMessage m (client t) msg
          else if String.eqb (Type_ msg) MessageTypeError then
            handleErrorMessage m (client t) msg
          else logf "Unknown message type: %s" m in
        (m, mkTaskResult true)
    end
  else
    (logf "Received unknown message type %d from client %s" m, mkTaskResult true).

(** [handleMessage]: the task is handed to the worker pool, which runs
    it unless its queue is full ([poolFull]). *)
Definition handleMessage `{J : JSON} `{Hd : Handlers} (m : Manager) (client : nat)
           (messageType : Z) (data : string) (poolFull : bool) (now : Z)
  : Manager :=
  if poolFull then
    IncrementErrors (logf "Failed to submit message task: %v" m)
  else fst (Execute (mkMessageTask client messageType data) m now).

(** What [conn.ReadMessage()] returns. *)
Inductive read_result :=
| ReadError
| ReadFrame (messageType : Z) (data : string).

(** One turn of the loop of [clientReader]; the boolean says whether
    the loop goes on ([false]: the function has returned). *)
Definition clientReader_turn `{J : JSON} `{Hd : Handlers} (m : Manager) (client : nat)
           (rd : read_result) (poolFull : bool) (now : Z) : Manager * bool :=
  match conns m !! client with
  | None => (m, false)
  | Some c =>
      if cancelled c then (m, false)
      else
        match rd with
        | ReadError => (set_conns (alter conn_cancel client) m, false)
        | ReadFrame messageType data =>
            let m := set_conns (alter (conn_set_lastSeen now) client) m in
            let m := set_conns (alter (conn_set_lastActivity now) client) m in
            (handleMessage m client messageType data poolFull now, true)
        end
  end.

(** How [HandleWebSocket] answers the upgrade request. *)
Inductive upgrade_outcome :=
| Rejected (status : Z) (message : string)
| UpgradeFailed
| Upgraded (clientID : string).

(** [validateToken] *)
Definition validateToken (tokenString : string) : bool :=
  if String.eqb tokenString "" then false else true.

(** [HandleWebSocket], up to the call of [handleConnection]: [query] is
    [r.URL.Query()], [upgradeOK] says whether [upgrader.Upgrade]
    succeeds, [now] is [time.Now().UnixMilli()]. *)
Definition HandleWebSocket (m : Manager) (query : NetURL.Values)
           (upgradeOK : bool) (now : Z) : Manager * upgrade_outcome :=
  let clientID := NetURL.Get query "client_id" in
  if String.eqb clientID "" then (m, Rejected 400 "client_id is required")
  else
    let token := NetURL.Get query "token" in
    if String.eqb token "" then (m, Rejected 401 "token is required")
    else if negb (validateToken token) then (m, Rejected 401 "invalid token")
    else
      let m := logf "Client %s connecting" m in
      match Database.GetClient (db m) clientID with
      | None =>
          (logf "Client %s not found in database: %v" m,
           Rejected 404 "Client not found")
      | Some client =>
          if negb (String.eqb (Database.AuthToken client) token) then
            (logf "Client %s provided invalid auth token" m,
             Rejected 401 "Invalid auth token")
          else
            let m := db_write
                       (fun r => Database.UpdateClientLastSeen r clientID now)
                       "Failed to update client %s last seen: %v" m in
            if negb (Database.Enabled client =? 1) then
              (logf "Client %s is disabled, rejecting connection" m,
               Rejected 403 "Client is disabled")
            else if upgradeOK then (m, Upgraded clientID)
            else (logf "Failed to upgrade connection: %v" m, UpgradeFailed)
      end.

End Websocket.

(** ** The proxy front door ([internal/proxy]) *)
Module Proxy.
Import GoStrings Protocol.

(** The part of [http.Request] the handlers read. *)
Record Request := mkRequest {
  Method : string;
  URLPath : string;
  Header : gmap string (list string);
  Body : option string;
  RemoteAddr : string
}.

(** What a handler did to its [http.ResponseWriter], as the calls it
    made: [StatusCode] is the argument of [WriteHeader], [HeaderSet]
    the calls [Header().Set(name, value)] by the name passed, [Written]
    the bytes passed to [Write] (empty when [Write] was not called).
    What [net/http] makes of these calls on the wire (canonical header
    names, no body after a 1xx, 204 or 304 status or for a HEAD
    request) is not part of this record. *)
Record Response := mkResponse {
  StatusCode : Z;
  HeaderSet : gmap string string;
  Written : string
}.

Definition StatusBadRequest : Z := 400.
Definition StatusNotFound : Z := 404.
Definition StatusInternalServerError : Z := 500.
Definition StatusBadGateway : Z := 502.
Definition StatusServiceUnavailable : Z := 503.
Definition StatusGatewayTimeout : Z := 504.

(** [http.Error] *)
Definition http_Error (error : string) (code : Z) : Response :=
  mkResponse code
    (<["Content-Type" := "text/plain; charset=utf-8"]>
       (<["X-Content-Type-Options" := "nosniff"]> ∅))
    (error +:+ String "010"%char EmptyString).

(** [http.NotFound] *)
Definition http_NotFound : Response :=
  http_Error "404 page not found" StatusNotFound.

(** [Handler]: the repository is the one inside the manager. *)
Definition Handler : Type := Websocket.Manager.

(** The routes that match [urlPath] and are enabled, in the order of
    the list. *)
Definition matchRoutes (routes : list Database.ServerRoute) (urlPath : string)
  : list Database.ServerRoute :=
  List.filter
    (fun route => Pattern.MatchPattern (Database.URLSuffix route) urlPath
                  && Database.ServerRoute_IsEnabled route)
    routes.

(** The comparison given to [sort.Slice]. *)
Definition higherPriority (a b : Database.ServerRoute) : bool :=
  Pattern.GetPatternPriority (Database.URLSuffix b)
  <? Pattern.GetPatternPriority (Database.URLSuffix a).

(** [sort.Slice] with that comparison.  Go does not say in which order
    it leaves routes of equal priority; this insertion sort keeps
    theirs. *)
Fixpoint insertByPriority (r : Database.ServerRoute)
         (sorted : list Database.ServerRoute) : list Database.ServerRoute :=
  match sorted with
  | [] => [r]
  | x :: rest =>
      if higherPriority x r then x :: insertByPriority r rest
      else r :: sorted
  end.

Definition sortByPriority (routes : list Database.ServerRoute)
  : list Database.ServerRoute :=
  if (1 <? length routes)%nat
  then foldr insertByPriority [] routes
  else routes.

(** The selection loop: the first route whose client is connected and
    enabled. *)
Fixpoint selectRoute (h : Handler) (matchedRoutes : list Database.ServerRoute)
  : option Database.ServerRoute :=
  match matchedRoutes with
  | [] => None
  | route :: rest =>
      if Websocket.IsClientConnected h (Database.RouteClientID route) then
        match Database.GetClient (Websocket.db h) (Database.RouteClientID route) with
        | Some clientInfo =>
            if Database.Enabled clientInfo =? 1 then Some route
            else selectRoute h rest
        | None => selectRoute h rest
        end
      else selectRoute h rest
  end.

(** A handler either answers at once or goes on to
    [forwardRequestToClient]. *)
Inductive dispatch :=
| Reply (response : Response)
| Forward (selectedRoute : Database.ServerRoute) (urlPath : string).

(** The common part of the two handlers, from the route lookup on. *)
Definition dispatchRoutes (h : Handler) (urlPath : string) : dispatch :=
  match Database.ListServerRoutes (Websocket.db h) with
  | None => Reply (http_Error "Internal server error" StatusInternalServerError)
  | Some routes =>
      let matchedRoutes := sortByPriority (matchRoutes routes urlPath) in
      if (length matchedRoutes =? 0)%nat
      then Reply (http_Error "Route not found" StatusNotFound)
      else match selectRoute h matchedRoutes with
           | None => Reply (http_Error "No available backend" StatusServiceUnavailable)
           | Some selectedRoute => Forward selectedRoute urlPath
           end
  end.

(** [HandleProxyRequest] *)
Definition HandleProxyRequest (h : Handler) (r : Request) : dispatch :=
  let urlPath := TrimPrefix (URLPath r) "/proxy" in
  if String.eqb urlPath ""
  then Reply (http_Error "Invalid proxy path" StatusBadRequest)
  else dispatchRoutes h urlPath.

(** [HandleDirectProxyRequest] *)
Definition HandleDirectProxyRequest (h : Handler) (r : Request) : dispatch :=
  if String.eqb (URLPath r) "/upload" || String.eqb (URLPath r) "/health"
     || String.eqb (URLPath r) "/status" || HasPrefix (URLPath r) "/proxy/"
  then Reply http_NotFound
  else
    let urlPath := URLPath r in
    if String.eqb urlPath "/"
    then Reply (http_Error "Root path not allowed" StatusBadRequest)
    else dispatchRoutes h urlPath.

(** The header loop of [forwardRequestToClient]:
    [for name, values := range r.Header]. *)
Definition copyHeaders (header : gmap string (list string)) : gmap string string :=
  map_fold
    (fun name values headers =>
       match values with
       | v0 :: _ => <[name := v0]> headers
       | [] => headers
       end)
    ∅ header.

(** The REQUEST payload [forwardRequestToClient] builds. *)
Definition buildRequestPayload (r : Request) (selectedRoute : Database.ServerRoute)
           (urlPath : string) : RequestPayload.t :=
  RequestPayload.mk urlPath (Method r) (copyHeaders (Header r)) ∅
    (default "" (Body r)) 0
    (Database.TargetsJSON selectedRoute)
    (Database.DeliveryPolicy selectedRoute)
    (Database.RouteMode selectedRoute).

(** The request timeout of [forwardRequestToClient],
    [30*time.Second], in milliseconds. *)
Definition forwardTimeout : Z := 30000.

(** [ResponseWriter.WriteHeader] panics on a code that is not of three
    digits ([net/http]'s [checkWriteHeaderCode]); a handler that calls
    it with such a code ends there. *)
Definition WriteHeader_panics (code : Z) : bool :=
  (code <? 100) || (999 <? code).

(** The bytes [forwardRequestToClient] passes to [Write] for a body:
    none for [nil], a [string] or a [[]byte] as it is, any other value
    as [fmt.Sprintf("%v", body)] (no call when that is empty). *)
Definition bodyBytes (body : option Value) : string :=
  match body with
  | None => ""
  | Some (StringValue s) => s
  | Some (BytesValue b) => b
  | Some (OtherValue formatted) => formatted
  end.

(** [forwardRequestToClient]; [id], [p], [now], [others], [now'] and
    [pickResult] are those of [SendRequestAndWait].  [None] while the
    handler is blocked.  On a response the handler sets the headers,
    then calls [WriteHeader], then writes the body; when [WriteHeader]
    panics the body is not written. *)
Definition forwardRequestToClient (h : Handler) (r : Request)
           (selectedRoute : Database.ServerRoute) (urlPath : string)
           (id : string) (p : nat) (now : Z)
           (others : Websocket.Manager -> Websocket.Manager)
           (now' : Z) (pickResult : bool)
  : option (Handler * Response) :=
  let requestPayload := buildRequestPayload r selectedRoute urlPath in
  match Websocket.SendRequestAndWait h (Database.RouteClientID selectedRoute)
          requestPayload forwardTimeout id p now others now' pickResult with
  | None => None
  | Some (h, Websocket.Err _) =>
      Some (h, http_Error "Backend request failed" StatusBadGateway)
  | Some (h, Websocket.Ok response) =>
      Some (h, mkResponse (ResponsePayload.HTTPStatus response)
                          (ResponsePayload.Headers response)
                          (if WriteHeader_panics (ResponsePayload.HTTPStatus response)
                           then ""
                           else bodyBytes (ResponsePayload.Body response)))
  end.

End Proxy.

(** ** The agent ([tunnel-flow-agent]) *)
Module Agent.
Import GoStrings.

(** What [url.Parse] makes of the configured server URL; [RawQuery] is
    its query, as [URL.Query] returns it. *)
Record ParsedURL := mkParsedURL {
  Scheme : string;
  Hostname : string;
  Port : string;
  RawQuery : NetURL.Values
}.

(** The agent's [Config]: [ServerURL] is [url.Parse(c.Server.URL)],
    [None] when that fails. *)
Record Config := mkConfig {
  ServerURL : option ParsedURL;
  ClientID : string;
  AuthToken : string
}.

Definition UseSSL (c : Config) : bool :=
  match ServerURL c with
  | None => false
  | Some u => String.eqb (ToLower (Scheme u)) "wss"
  end.

Definition ServerHost (c : Config) : string :=
  match ServerURL c with
  | None => "localhost"
  | Some u => Hostname u
  end.

Definition ServerPort (c : Config) : Z :=
  match ServerURL c with
  | None => 8081
  | Some u =>
      if String.eqb (Port u) "" then (if UseSSL c then 443 else 80)
      else match Atoi (Port u) with
           | Some portInt => portInt
           | None => 8081
           end
  end.

(** [Connector.buildWebSocketURL], called by [Connector.Connect]
    only. *)
Definition buildWebSocketURL (c : Config) : NetURL.URL :=
  let scheme := if UseSSL c then "wss" else "ws" in
  let query : NetURL.Values := ∅ in
  let query := NetURL.Set_ query "client_id" (ClientID c) in
  let query := NetURL.Set_ query "auth_token" (AuthToken c) in
  NetURL.mkURL scheme (ServerHost c, ServerPort c) "/ws" query.

(** The query of the URL that [Agent.connect] dials (package [agent];
    the connection loop of the agent goes through it): that of the
    configured URL with two parameters set.  [None] when the configured
    URL does not parse. *)
Definition connectQuery (c : Config) : option NetURL.Values :=
  match ServerURL c with
  | None => None
  | Some u =>
      let q := RawQuery u in
      let q := NetURL.Set_ q "client_id" (ClientID c) in
      let q := NetURL.Set_ q "token" (AuthToken c) in
      Some q
  end.

End Agent.

(** ** Concrete states

    The states and inputs at which the properties below are
    exercised. *)
Module Scenario.
Import Websocket.

(** An empty manager with the default configuration (send queues of
    1000 frames, heartbeat every 30 s, requests time out after 30 s;
    instants and durations in milliseconds). *)
Definition emptyManager : Manager :=
  mkManager (mkConfig 1000 30000 30000) ∅ ∅ ∅ ∅
    (Database.mkRepository [] ∅ ∅ false) 0 0 30000 0 [].

(** Agent [agent-1] has connected: its connection record is at
    address 1. *)
Definition oneAgent : Manager :=
  handleConnection_enter emptyManager "agent-1" 1 100.

(** A decoder that knows the frames of a table and takes every other
    text for malformed; it decodes no payload. *)
Definition tableJSON (frames : list (string * Protocol.Message string))
  : Protocol.JSON :=
  {| Protocol.Unmarshal_Message :=
       fun text => snd <$> List.find (fun kv => String.eqb (fst kv) text) frames;
     Protocol.Unmarshal_ResponsePayload := fun _ => None;
     Protocol.Unmarshal_ErrorPayload := fun _ => None |}.

(** Handlers of the known control and ACK frames that write a log line
    and do nothing else. *)
Definition loggingHandlers : Handlers :=
  {| handleRegister := fun m _ _ => logf "register" m;
     handlePong := fun m _ _ => logf "pong" m;
     handlePing := fun m _ _ => logf "ping" m;
     handleACKMessage := fun m _ _ => logf "ack" m |}.

(** A frame whose operation the dispatch does not know: a CONTROL frame
    that is none of REGISTER, PONG, PING, or a MESSAGE frame that is
    neither REQUEST nor RESPONSE. *)
Definition unknown_op (msg : Protocol.Message string) : bool :=
  (String.eqb (Protocol.Type_ msg) Protocol.MessageTypeControl
   && negb (existsb (String.eqb (Protocol.Op msg))
              [Protocol.OpRegister; Protocol.OpPong; Protocol.OpPing]))
  || (String.eqb (Protocol.Type_ msg) Protocol.MessageTypeMessage
      && negb (existsb (String.eqb (Protocol.Op msg))
                 [Protocol.OpRequest; Protocol.OpResponse])).

(** The frame [msg] with another operation. *)
Definition with_op (op : string) (msg : Protocol.Message string)
  : Protocol.Message string :=
  Protocol.mkMessage (Protocol.Type_ msg) op (Protocol.MsgID msg)
    (Protocol.ClientID msg) (Protocol.TS msg) (Protocol.Payload msg).

(** A manager that a frame leaves as it is, but for the two time stamps
    the read loop refreshes on the connection the frame came in on,
    the log lines written, and [errors] more errors on the error
    counter. *)
Definition frame_only_logged (m m' : Manager) (client : nat) (c : ClientConn)
           (now : Z) (errors : Z) : Prop :=
  config m' = config m /\
  clients m' = clients m /\
  conns m' = <[client := conn_set_lastActivity now (conn_set_lastSeen now c)]> (conns m) /\
  pending m' = pending m /\
  pctxs m' = pctxs m /\
  db m' = db m /\
  statsTotalConnections m' = statsTotalConnections m /\
  statsActiveConnections m' = statsActiveConnections m /\
  baseHeartbeatInterval m' = baseHeartbeatInterval m /\
  metricsErrors m' = metricsErrors m + errors /\
  (exists lines, lines <> [] /\ logs m' = logs m ++ lines).

(** The route [/api/users] of [agent-1], enabled. *)
Definition usersRoute : Database.ServerRoute :=
  Database.mkServerRoute 1 "/api/users" "agent-1" "http://127.0.0.1:9000"
    "first" "original_path" 1 "users".

(** The record of [agent-1] in the store, enabled. *)
Definition agentRecord : Database.Client :=
  Database.mkClient "agent-1" "secret" "online" 1 None "[]".

(** [agent-1] is connected and enabled, and the store holds the route
    [/api/users] for it. *)
Definition oneAgentOneRoute : Manager :=
  set_db (fun _ => Database.mkRepository [usersRoute] {["agent-1" := agentRecord]} ∅ false)
         oneAgent.

(** [GET /api/users] with two values for [Accept]. *)
Definition getUsers : Proxy.Request :=
  Proxy.mkRequest "GET" "/api/users"
    {["Accept" := ["text/html"; "application/json"]]} None "203.0.113.7:5000".

(** The request [getUsers] was sent to [agent-1] at instant 1000 under
    the identifier [msg-1] (record at address 7), and its caller
    waits. *)
Definition waiting : Manager :=
  fst (SendRequestAndWait_send oneAgentOneRoute "agent-1"
         (Proxy.buildRequestPayload getUsers usersRoute "/api/users")
         Proxy.forwardTimeout "msg-1" 7 1000).

(** A RESPONSE frame for [msg-1] without payload. *)
Definition lateResponse : Protocol.Message string :=
  Protocol.mkMessage Protocol.MessageTypeMessage Protocol.OpResponse
    (Some "msg-1") "agent-1" 40000 "".

End Scenario.

(** * Control frames, heartbeats and the writer *)
Module Control.
Import GoStrings Protocol Websocket.

Module RegisterPayload.
Record t := mk {
  AuthToken : string;
  Version : string;
  LocalIPs : list string
}.
End RegisterPayload.

Module ACKPayload.
Record t := mk {
  MsgID : string;
  Success : bool;
  Message : string
}.
End ACKPayload.

(** [encoding/json] on the payloads of the control and ACK frames: a
    [PingPayload] and a [PongPayload] are their [Timestamp];
    [Marshal_strings] is [json.Marshal] of a [[]string], which does not
    fail. *)
Class PayloadJSON := {
  Unmarshal_RegisterPayload : string -> option RegisterPayload.t;
  Unmarshal_PingPayload : string -> option Z;
  Unmarshal_PongPayload : string -> option Z;
  Unmarshal_ACKPayload : string -> option ACKPayload.t;
  Marshal_strings : list string -> string
}.

(** [HeartbeatUpdate]; [LastActiveTime] in milliseconds. *)
Record HeartbeatUpdate := mkHeartbeatUpdate {
  ClientID : string;
  LastActiveTime : Z
}.

(** The capacity of [heartbeatQueue]. *)
Definition heartbeatQueueSize : nat := 1000.

(** The non-blocking send to [heartbeatQueue] of [handlePing] and
    [handlePong]; the queue is kept oldest update first. *)
Definition push_heartbeat (m : Manager) (heartbeatQueue : list HeartbeatUpdate)
           (update : HeartbeatUpdate) : Manager * list HeartbeatUpdate :=
  if (length heartbeatQueue <? heartbeatQueueSize)%nat
  then (m, heartbeatQueue ++ [update])
  else (logf "Heartbeat queue full, dropping update for client %s" m, heartbeatQueue).

(** [sendRegisterResponse], for the connection with identifier
    [clientID], at instant [now]. *)
Definition sendRegisterResponse (m : Manager) (clientID : string)
           (success : bool) (message : string) (now : Z) : Manager :=
  let responseMsg :=
    NewMessage MessageTypeControl OpRegisterAck clientID None
               (OutRegisterAck success message) now in
  match SendToClient m clientID responseMsg with
  | (m, Some _) => logf "Failed to send register response to client %s: %v" m
  | (m, None) => m
  end.

(** [handleRegister]; [client] is the address of the connection the
    frame came in on. *)
Definition handleRegister `{P : PayloadJSON} (m : Manager) (client : nat)
           (msg : Message string) (now : Z) : Manager :=
  match conns m !! client with
  | None => m
  | Some c =>
      let id := clientID c in
      match Unmarshal_RegisterPayload (Payload msg) with
      | None =>
          let m := logf "Failed to parse register payload from client %s: %v" m in
          sendRegisterResponse m id false "Invalid register payload" now
      | Some registerPayload =>
          match Database.GetClient (db m) id with
          | None =>
              let m := logf "Client %s not found in database: %v" m in
              sendRegisterResponse m id false "Client not found" now
          | Some clientInfo =>
              if negb (Database.Enabled clientInfo =? 1) then
                let m := logf "Client %s is disabled" m in
                sendRegisterResponse m id false "Client is disabled" now
              else if String.eqb (RegisterPayload.AuthToken registerPayload) "" then
                let m := logf "Client %s provided empty auth token" m in
                sendRegisterResponse m id false "Invalid auth token" now
              else if negb (String.eqb (Database.AuthToken clientInfo)
                                       (RegisterPayload.AuthToken registerPayload)) then
                let m := logf "Client %s provided invalid auth token" m in
                sendRegisterResponse m id false "Invalid auth token" now
              else
                let m := logf "Client %s registered successfully with version %s" m in
                let m := db_write
                           (fun r => Database.UpdateClientStatus r id "online" now)
                           "Failed to update client status: %v" m in
                let m :=
                  if (0 <? length (RegisterPayload.LocalIPs registerPayload))%nat then
                    let localIPsJSON :=
                      Marshal_strings (RegisterPayload.LocalIPs registerPayload) in
                    if Database.failing (db m)
                    then logf "Failed to update client local IPs: %v" m
                    else logf "Updated local IPs for client %s: %v"
                           (set_db (fun r => Database.UpdateClientLocalIPs r id localIPsJSON) m)
                  else m in
                sendRegisterResponse m id true "Registration successful" now
          end
      end
  end.

(** [sendPong] *)
Definition sendPong (m : Manager) (clientID : string) (timestamp now : Z) : Manager :=
  let pongMsg :=
    NewMessage MessageTypeControl OpPong clientID None (OutPong timestamp) now in
  match SendToClient m clientID pongMsg with
  | (m, Some _) => logf "Failed to send pong to client %s: %v" m
  | (m, None) => m
  end.

(** [handlePing], at instant [now] (milliseconds; [time.Now().Unix()]
    is [now / 1000]). *)
Definition handlePing `{P : PayloadJSON} (m : Manager)
           (heartbeatQueue : list HeartbeatUpdate) (client : nat)
           (msg : Message string) (now : Z) : Manager * list HeartbeatUpdate :=
  match conns m !! client with
  | None => (m, heartbeatQueue)
  | Some c =>
      let '(m, timestamp) :=
        if (len (Payload msg) =? 0)%nat then
          (logf "Received ping from client %s (empty payload)" m, now / 1000)
        else match Unmarshal_PingPayload (Payload msg) with
             | None =>
                 (logf "Failed to parse ping payload from client %s, using default: %v" m,
                  now / 1000)
             | Some timestamp => (logf "Received ping from client %s" m, timestamp)
             end in
      let m := set_conns (alter (conn_set_lastSeen now) client) m in
      let '(m, heartbeatQueue) :=
        push_heartbeat m heartbeatQueue (mkHeartbeatUpdate (clientID c) now) in
      (sendPong m (clientID c) timestamp now, heartbeatQueue)
  end.

(** [handlePong] *)
Definition handlePong `{P : PayloadJSON} (m : Manager)
           (heartbeatQueue : list HeartbeatUpdate) (client : nat)
           (msg : Message string) (now : Z) : Manager * list HeartbeatUpdate :=
  match conns m !! client with
  | None => (m, heartbeatQueue)
  | Some c =>
      match Unmarshal_PongPayload (Payload msg) with
      | None =>
          (logf "Failed to parse pong payload from client %s: %v" m, heartbeatQueue)
      | Some _ =>
          let m := logf "Received pong from client %s, latency: %dms" m in
          let m := set_conns (alter (conn_set_lastSeen now) client) m in
          push_heartbeat m heartbeatQueue (mkHeartbeatUpdate (clientID c) now)
      end
  end.

(** [handleACKMessage] *)
Definition handleACKMessage `{P : PayloadJSON} (m : Manager) (client : nat)
           (msg : Message string) : Manager :=
  match Unmarshal_ACKPayload (Payload msg) with
  | None => logf "Failed to parse ACK payload from client %s: %v" m
  | Some ackPayload =>
      let m := logf "Received ACK from client %s for message %s: success=%v" m in
      if ACKPayload.Success ackPayload then
        db_write (fun r => Database.UpdatePendingMessageState r
                             (ACKPayload.MsgID ackPayload)
                             Database.MessageStateProcessing)
                 "Failed to update pending message state: %v" m
      else logf "Client %s failed to process message %s: %s" m
  end.

(** [batchUpdateHeartbeats] *)
Definition batchUpdateHeartbeats (m : Manager) (updates : gmap string Z) : Manager :=
  if (size updates =? 0)%nat then m
  else
    let m := logf "批量更新心跳时间，客户端数量: %d" m in
    map_fold
      (fun clientID lastActiveTime m =>
         db_write (fun r => Database.UpdateClientLastActiveTime r clientID lastActiveTime)
                  "Failed to update client %s last active time: %v" m)
      m updates.

(** What the [select] of [processHeartbeatUpdates] takes. *)
Inductive heartbeat_event :=
| HeartbeatReceived (update : HeartbeatUpdate)
| FlushTick.

(** One turn of the loop of [processHeartbeatUpdates]; [updates] is the
    map the loop keeps. *)
Definition processHeartbeatUpdates_turn (m : Manager) (updates : gmap string Z)
           (ev : heartbeat_event) : Manager * gmap string Z :=
  match ev with
  | HeartbeatReceived update =>
      (m, <[ClientID update := LastActiveTime update]> updates)
  | FlushTick =>
      if (0 <? size updates)%nat then (batchUpdateHeartbeats m updates, ∅)
      else (m, updates)
  end.



(** [sendProtocolPing] *)
Definition sendProtocolPing (m : Manager) (clientID : string) (now : Z)
  : Manager * option string :=
  SendToClient m clientID
    (NewMessage MessageTypeControl OpPing clientID None (OutPing now) now).

Definition conn_set_sendQueue (q : list (Message OutPayload)) (c : ClientConn)
  : ClientConn :=
  mkClientConn (clientID c) q (sendQueueSize c) (lastSeen c)
    (lastActivity c) (connectedAt c) (messageCount c) (adaptiveInterval c)
    (networkQuality c) (rttSamples c) (cancelled c) (closed c).

(** What the [select] of [clientWriter] takes: a frame from the send
    queue ([writeOK] says whether [WriteMessage] succeeds), the ticker,
    or the context.  (No code closes [sendQueue].) *)
Inductive writer_event :=
| FrameReady (writeOK : bool)
| TickerFired
| ContextDone.

(** One turn of the loop of [clientWriter] at instant [now]: [None]
    when the case is not ready; otherwise the new state, the frame
    written to the socket if any, and whether the loop goes on. *)
Definition clientWriter_turn (m : Manager) (client : nat) (ev : writer_event)
           (now : Z) : option (Manager * option (Message OutPayload) * bool) :=
  match conns m !! client with
  | None => None
  | Some c =>
      match ev with
      | FrameReady writeOK =>
          match sendQueue c with
          | [] => None
          | message :: rest =>
              let m := set_conns (alter (conn_set_sendQueue rest) client) m in
              let m := logf "[WebSocket Send] Sending %d bytes to client %s" m in
              if writeOK then
                Some (logf "[WebSocket Send] Successfully sent message to client %s" m,
                      Some message, true)
              else
                let m := logf "Failed to write message to client %s: %v" m in
                Some (set_conns (alter conn_cancel client) m, None, false)
          end
      | TickerFired =>
          let m := logf "[WebSocket Send] Sending protocol ping to client %s" m in
          match sendProtocolPing m (clientID c) now with
          | (m, Some _) =>
              let m := logf "Failed to send protocol ping to client %s: %v" m in
              Some (set_conns (alter conn_cancel client) m, None, false)
          | (m, None) =>
              Some (logf "[WebSocket Send] Successfully sent protocol ping to client %s" m,
                    None, true)
          end
      | ContextDone => if cancelled c then Some (m, None, false) else None
      end
  end.

(** The writer takes [n] frames in a row and writes each: the state
    afterwards and the frames in the order they went out. *)
Fixpoint write_frames (n : nat) (m : Manager) (client : nat) (now : Z)
  : Manager * list (Message OutPayload) :=
  match n with
  | O => (m, [])
  | S k =>
      match clientWriter_turn m client (FrameReady true) now with
      | Some (m', Some frame, true) =>
          let '(m'', frames) := write_frames k m' client now in
          (m'', frame :: frames)
      | _ => (m, [])
      end
  end.

End Control.

(** * The agent's retry strategy ([internal/retry]) *)
Module Retry.
Import GoStrings.

Inductive ErrorType :=
| ErrorTypeNetwork
| ErrorTypeTimeout
| ErrorTypeAuth
| ErrorTypeProtocol
| ErrorTypeServer
| ErrorTypeUnknown.

Inductive Errno :=
| ECONNREFUSED
| ECONNRESET
| ECONNABORTED
| ETIMEDOUT
| EOTHER.

(** A non-nil [error], as [ClassifyError] looks at it: [asNetError] is
    what [err.(net.Error)] gives ([Some timeout] when the assertion
    holds, with the value of [Timeout()]), [asOpError] what the
    assertion to a pointer to [net.OpError] gives, with the result of
    asserting a pointer to [syscall.Errno] on its [Err]; [Error] is
    [err.Error()]. *)
Record GoError := mkGoError {
  asNetError : option bool;
  asOpError : option (option Errno);
  Error : string
}.

(** [s[i:i+len(keyword)] == keyword] for [i] from the given index, for
    the given number of turns. *)
Fixpoint contains_loop (s keyword : string) (i turns : nat) : bool :=
  match turns with
  | O => false
  | S k =>
      if String.eqb (take (len keyword) (drop i s)) keyword then true
      else contains_loop s keyword (S i) k
  end.

(** [contains] *)
Fixpoint contains (s : string) (keywords : list string) : bool :=
  match keywords with
  | [] => false
  | keyword :: rest =>
      if (len keyword <=? len s)%nat
         && contains_loop s keyword 0 (len s - len keyword + 1)
      then true
      else contains s rest
  end.

(** [ClassifyError]; [None] is the [nil] error. *)
Definition ClassifyError (err : option GoError) : ErrorType :=
  match err with
  | None => ErrorTypeUnknown
  | Some e =>
      match asNetError e with
      | Some timeout => if timeout then ErrorTypeTimeout else ErrorTypeNetwork
      | None =>
          match asOpError e with
          | Some (Some ECONNREFUSED) | Some (Some ECONNRESET)
          | Some (Some ECONNABORTED) => ErrorTypeNetwork
          | Some (Some ETIMEDOUT) => ErrorTypeTimeout
          | Some _ => ErrorTypeNetwork
          | None =>
              let errMsg := Error e in
              if contains errMsg ["timeout"; "deadline exceeded"] then ErrorTypeTimeout
              else if contains errMsg ["connection"; "network"; "dial"; "socket"]
              then ErrorTypeNetwork
              else if contains errMsg ["unauthorized"; "forbidden"; "authentication"]
              then ErrorTypeAuth
              else if contains errMsg ["protocol"; "invalid"; "malformed"]
              then ErrorTypeProtocol
              else if contains errMsg ["server"; "internal"; "service"]
              then ErrorTypeServer
              else ErrorTypeUnknown
          end
      end
  end.

(** [RetryConfig], without the fields of the delay. *)
Record RetryConfig := mkRetryConfig {
  MaxAttempts : Z
}.

(** [ShouldRetry] *)
Definition ShouldRetry (config : RetryConfig) (err : option GoError)
           (attempt : Z) : bool :=
  match err with
  | None => false
  | Some _ =>
      if MaxAttempts config <=? attempt then false
      else match ClassifyError err with
           | ErrorTypeNetwork | ErrorTypeTimeout | ErrorTypeServer => true
           | ErrorTypeAuth | ErrorTypeProtocol => false
           | _ => attempt <? 3
           end
  end.

(** How [ExecuteWithRetry] returns: [nil], [ctx.Err()], or the error
    that wraps the last error of [fn]. *)
Inductive outcome :=
| Succeeded
| ContextCancelled
| GaveUp (lastErr : option GoError).

(** The loop of [ExecuteWithRetry] from [attempt] on, for at most
    [turns] turns.  [fn k] is what the [k]-th call of the function
    returns; [done k false] says whether the context is done at the
    check before that call, [done k true] whether the wait after it
    ends by the context.  The result comes with the number of the last
    call made ([calls] so far). *)
Fixpoint retry_loop (config : RetryConfig) (fn : Z -> option GoError)
         (done : Z -> bool -> bool) (attempt : Z) (turns : nat)
         (lastErr : option GoError) (calls : Z) : outcome * Z :=
  match turns with
  | O => (GaveUp lastErr, calls)
  | S k =>
      if done attempt false then (ContextCancelled, calls)
      else
        match fn attempt with
        | None => (Succeeded, attempt)
        | Some e =>
            let lastErr := Some e in
            if negb (ShouldRetry config (Some e) attempt) then (GaveUp lastErr, attempt)
            else if (attempt <? MaxAttempts config) && done attempt true
            then (ContextCancelled, attempt)
            else retry_loop config fn done (attempt + 1) k lastErr attempt
        end
  end.

(** [ExecuteWithRetry] *)
Definition ExecuteWithRetry (config : RetryConfig) (fn : Z -> option GoError)
           (done : Z -> bool -> bool) : outcome * Z :=
  retry_loop config fn done 1 (Z.to_nat (MaxAttempts config)) None 0.

End Retry.

(** * Invariants and further scenarios *)
Module Exchange.
Import Protocol Websocket.

(** Every send queue holds at most as many frames as its capacity. *)
Definition queues_bounded (m : Manager) : Prop :=
  forall p c, conns m !! p = Some c -> (length (sendQueue c) <= sendQueueSize c)%nat.

(** What the sweep [CleanupExpiredPending] does to the record of an
    expired entry: the synthetic response goes into the slot unless the
    slot holds a value. *)
Definition offer_timeout (pc : PendingContext) : PendingContext :=
  match resultCh pc with
  | [] => pending_set_resultCh [Some timeoutResponse] pc
  | _ :: _ => pc
  end.

(** The priority of a route, as the comparison of [sort.Slice] reads
    it. *)
Definition priority (route : Database.ServerRoute) : Z :=
  Pattern.GetPatternPriority (Database.URLSuffix route).

(** The order [sort.Slice] establishes: no route comes before one of
    higher priority. *)
Definition byPriority (a b : Database.ServerRoute) : Prop := priority b <= priority a.

(** The condition under which the selection loop of the proxy takes a
    route: its client is connected, has a record in the store, and is
    enabled. *)
Definition available (h : Proxy.Handler) (route : Database.ServerRoute) : bool :=
  IsClientConnected h (Database.RouteClientID route)
  && match Database.GetClient (db h) (Database.RouteClientID route) with
     | Some clientInfo => Database.Enabled clientInfo =? 1
     | None => false
     end.

(** A route the proxy considers for a path: enabled, with a pattern
    that matches. *)
Definition candidate (urlPath : string) (route : Database.ServerRoute) : bool :=
  Pattern.MatchPattern (Database.URLSuffix route) urlPath
  && Database.ServerRoute_IsEnabled route.

(** The checks of [handleRegister] on a REGISTER frame that came in on a
    connection with identifier [id]. *)
Definition registration_accepted `{P : Control.PayloadJSON} (m : Manager)
           (id : string) (msg : Message string) : bool :=
  match Control.Unmarshal_RegisterPayload (Payload msg),
        Database.GetClient (db m) id with
  | Some registerPayload, Some clientInfo =>
      (Database.Enabled clientInfo =? 1)
      && negb (String.eqb (Control.RegisterPayload.AuthToken registerPayload) "")
      && String.eqb (Database.AuthToken clientInfo)
                    (Control.RegisterPayload.AuthToken registerPayload)
  | _, _ => false
  end.

(** The timestamp [handlePing] answers with. *)
Definition pong_timestamp `{P : Control.PayloadJSON} (msg : Message string)
           (now : Z) : Z :=
  if (GoStrings.len (Payload msg) =? 0)%nat then now / 1000
  else default (now / 1000) (Control.Unmarshal_PingPayload (Payload msg)).

(** A row of the clients table with its last-seen instant replaced. *)
Definition seen_at (t : Z) (c : Database.Client) : Database.Client :=
  Database.mkClient (Database.ClientID c) (Database.AuthToken c) (Database.Status c)
    (Database.Enabled c) (Some t) (Database.LocalIPs c).

(** The loop of [processHeartbeatUpdates] run over a sequence of
    events, from the empty map. *)
Definition processHeartbeatUpdates_run (m : Manager)
           (events : list Control.heartbeat_event) : Manager * gmap string Z :=
  foldl (fun st ev => Control.processHeartbeatUpdates_turn (fst st) (snd st) ev)
        (m, ∅) events.

(** A decoder of control payloads: REGISTER payloads and PING
    timestamps from two tables, nothing else. *)
Definition controlJSON (registers : list (string * Control.RegisterPayload.t))
           (pings : list (string * Z)) : Control.PayloadJSON :=
  {| Control.Unmarshal_RegisterPayload :=
       fun text => snd <$> List.find (fun kv => String.eqb (fst kv) text) registers;
     Control.Unmarshal_PingPayload :=
       fun text => snd <$> List.find (fun kv => String.eqb (fst kv) text) pings;
     Control.Unmarshal_PongPayload := fun _ => None;
     Control.Unmarshal_ACKPayload := fun _ => None;
     Control.Marshal_strings := fun ips => String.concat "," ips |}.

(** The REGISTER frame of [agent-1] with the right token, and a PING
    frame of it. *)
Definition registerFrame : Message string :=
  mkMessage MessageTypeControl OpRegister None "agent-1" 150 "register".

Definition pingFrame : Message string :=
  mkMessage MessageTypeControl OpPing None "agent-1" 160 "ping".

Definition agentJSON : Control.PayloadJSON :=
  controlJSON [("register", Control.RegisterPayload.mk "secret" "1.0" ["192.0.2.10"])]
              [("ping", 155)].

(** A decoder of payloads given by two tables; it decodes no frame. *)
Definition payloadJSON (responses : list (string * ResponsePayload.t))
           (errors : list (string * ErrorPayload)) : JSON :=
  {| Unmarshal_Message := fun _ => None;
     Unmarshal_ResponsePayload :=
       fun text => snd <$> List.find (fun kv => String.eqb (fst kv) text) responses;
     Unmarshal_ErrorPayload :=
       fun text => snd <$> List.find (fun kv => String.eqb (fst kv) text) errors |}.

(** The answer of the agent to [msg-1]. *)
Definition okPayload : ResponsePayload.t :=
  ResponsePayload.mk 200 {["Content-Type" := "text/plain"]}
    (Some (StringValue "OK")) 12 None.

Definition okResponse : Message string :=
  mkMessage MessageTypeMessage OpResponse (Some "msg-1") "agent-1" 1500 "ok".

(** An ERROR frame of the agent for [msg-1]. *)
Definition refusedPayload : ErrorPayload :=
  mkErrorPayload "E_CONN" "connection refused" "".

Definition refusedError : Message string :=
  mkMessage MessageTypeError OpError (Some "msg-1") "agent-1" 1500 "refused".

Definition exchangeJSON : JSON :=
  payloadJSON [("ok", okPayload)] [("refused", refusedPayload)].

(** An ERROR frame for [msg-1] whose operation is none the protocol
    knows, and a decoder that reads it from the text [bogus]. *)
Definition bogusError : Message string :=
  mkMessage MessageTypeError "BOGUS" (Some "msg-1") "agent-1" 1500 "refused".

Definition bogusJSON : JSON :=
  {| Unmarshal_Message :=
       fun text => if String.eqb text "bogus" then Some bogusError else None;
     Unmarshal_ResponsePayload := fun _ => None;
     Unmarshal_ErrorPayload :=
       fun text => if String.eqb text "refused" then Some refusedPayload else None |}.

(** [agent-1] is connected with a send queue of one frame, and the
    queue holds a heartbeat that its writer has not taken yet. *)
Definition narrowManager : Manager :=
  mkManager (mkConfig 1 30000 30000) ∅ ∅ ∅ ∅
    (Database.mkRepository [Scenario.usersRoute]
       {["agent-1" := Scenario.agentRecord]} ∅ false) 0 0 30000 0 [].

Definition busyAgent : Manager :=
  fst (SendToClient (handleConnection_enter narrowManager "agent-1" 1 100) "agent-1"
         (NewMessage MessageTypeControl OpPing "agent-1" None (OutPing 200) 200)).

End Exchange.

(** * Properties *)

(** ** The pattern matcher *)
Section PatternFacts.
Import GoStrings Pattern.

Lemma split_from_cons (c : ascii) (t sep cur : string) :
  split_from (String c t) sep 0 cur
  = if HasPrefix (String c t) sep
    then String.rev cur :: split_from t sep (len sep - 1) ""
    else split_from t sep 0 (String c cur).
Proof. reflexivity. Qed.

Lemma Index_cons (c : ascii) (t substr : string) :
  Index (String c t) substr
  = if HasPrefix (String c t) substr then 0
    else if Index t substr <? 0 then -1 else Index t substr + 1.
Proof. reflexivity. Qed.

Lemma split_from_length (s sep : string) (skip : nat) (cur : string) :
  (1 <= length (split_from s sep skip cur))%nat.
Proof.
  revert skip cur.
  induction s as [|c t IH]; intros skip cur; [simpl; lia|].
  destruct skip as [|k]; [|apply IH].
  rewrite split_from_cons.
  destruct (HasPrefix (String c t) sep); [simpl; lia|apply IH].
Qed.

Lemma Index_no_field_break (s sep : string) (cur : string) :
  sep <> "" ->
  length (split_from s sep 0 cur) = 1%nat ->
  Index s sep < 0.
Proof.
  intros Hsep. revert cur.
  induction s as [|c t IH]; intros cur Hlen.
  - destruct sep as [|d sep']; [congruence|]. simpl. lia.
  - rewrite split_from_cons in Hlen. rewrite Index_cons.
    destruct (HasPrefix (String c t) sep) eqn:Hp.
    + simpl in Hlen.
      pose proof (split_from_length t sep (len sep - 1) "").
      lia.
    + apply IH in Hlen.
      destruct (Index t sep <? 0) eqn:E; [lia|].
      apply Z.ltb_ge in E. lia.
Qed.

Lemma Split_single_no_occurrence (s sep : string) :
  sep <> "" ->
  length (Split s sep) = 1%nat ->
  Contains s sep = false.
Proof.
  intros Hsep Hlen. unfold Contains.
  destruct sep as [|d sep']; [congruence|].
  apply Index_no_field_break in Hlen; [|congruence].
  apply Z.leb_gt. exact Hlen.
Qed.

(** The two functions satisfy the equations of the source: each is its
    body over the other. *)
Lemma MatchPattern_unfold (pattern path : string) :
  MatchPattern pattern path
  = MatchPattern_body matchWithDoubleWildcard pattern path.
Proof. reflexivity. Qed.

Lemma matchWithDoubleWildcard_unfold (pattern path : string) :
  matchWithDoubleWildcard pattern path
  = matchWithDoubleWildcard_body MatchPattern pattern path.
Proof.
  unfold matchWithDoubleWildcard, matchWithDoubleWildcard_body.
  destruct (length (Split pattern "**") =? 1)%nat eqn:E; [|reflexivity].
  apply Nat.eqb_eq in E.
  apply Split_single_no_occurrence in E; [|discriminate].
  unfold MatchPattern, MatchPattern_single, MatchPattern_body.
  rewrite E. reflexivity.
Qed.

(** The cases of [TestMatchPattern]. *)
Example TestMatchPattern :
  map (fun t => MatchPattern t.1 t.2)
    [ ("/api/users", "/api/users"); ("/api/users", "/api/user");
      ("/api/*/users", "/api/v1/users"); ("/api/*/users", "/api/v1/v2/users");
      ("/api/user*", "/api/users"); ("/api/user*", "/api/user123");
      ("/api/user*", "/api/admin");
      ("/api/**/users", "/api/users"); ("/api/**/users", "/api/v1/users");
      ("/api/**/users", "/api/v1/v2/users");
      ("/api/**/users", "/api/v1/v2/v3/users");
      ("/api/**/users", "/api/orders");
      ("/api/*", "/api/users"); ("/api/*", "/api/users/123");
      ("/api/*", "/admin/users");
      ("*/users", "/api/users"); ("*/users", "/admin/api/users");
      ("*/users", "/api/orders");
      ("/api/*/test/*", "/api/v1/test/123");
      ("/api/**/test/**", "/api/v1/v2/test/a/b");
      ("/api/user*/test", "/api/users/test") ]
  = [ true; false; true; false; true; true; false; true; true; true; true;
      false; true; true; false; true; true; false; true; true; true ].
Proof. vm_compute. reflexivity. Qed.

(** The order [TestGetPatternPriority] asks for: exact above single
    wildcard above double wildcard above prefix. *)
Example TestGetPatternPriority :
  map GetPatternPriority
    ["/api/users"; "/api/*/users"; "/api/**/users"; "/api/*"; "*/users"; "/api/user*"]
  = [1000; 580; 250; 155; 106; 159].
Proof. vm_compute. reflexivity. Qed.

(** The cases of [TestIsValidPattern]. *)
Example TestIsValidPattern :
  map IsValidPattern
    ["/api/users"; "/api/*/users"; "api/users"; ""; "/api//users"; "/api/**/users"]
  = [true; true; false; false; false; true].
Proof. vm_compute. reflexivity. Qed.

(** The cases of [TestNormalizePattern]. *)
Example TestNormalizePattern :
  map NormalizePattern ["api/users"; "/api/users/"; "/"; "api/users/"]
  = ["/api/users"; "/api/users"; "/"; "/api/users"].
Proof. vm_compute. reflexivity. Qed.

(** The interior loop looks each literal up in the whole remaining
    path, so the order of the literals plays no part in its answer. *)
Lemma middle_loop_all (middle : list string) (path : string) :
  middle_loop middle path
  = forallb (fun part => String.eqb part "" || Contains path (Trim part "/")) middle.
Proof.
  induction middle as [|part rest IH]; simpl; [reflexivity|].
  destruct (String.eqb part ""); simpl; [exact IH|].
  destruct (Contains path (Trim part "/")); simpl; [exact IH|reflexivity].
Qed.

Lemma middle_loop_Permutation (m1 m2 : list string) (path : string) :
  Permutation m1 m2 -> middle_loop m1 path = middle_loop m2 path.
Proof.
  intros HP. rewrite !middle_loop_all.
  induction HP; simpl.
  - reflexivity.
  - by rewrite IHHP.
  - rewrite !andb_assoc. f_equal. apply andb_comm.
  - congruence.
Qed.

(** *** What a match with [**] does guarantee *)

Lemma len_drop (n : nat) (s : string) : len (drop n s) = (len s - n)%nat.
Proof.
  revert n. induction s as [|c t IH]; intros [|k]; simpl; try reflexivity.
  apply IH.
Qed.

Lemma drop_ge (n : nat) (s : string) : (len s <= n)%nat -> drop n s = "".
Proof.
  revert n. induction s as [|c t IH]; intros [|k] Hle; simpl in *;
    try reflexivity; try lia.
  apply IH. lia.
Qed.

Lemma drop_drop (a b : nat) (s : string) : drop a (drop b s) = drop (b + a) s.
Proof.
  revert b. induction s as [|c t IH]; intros [|k]; simpl; try reflexivity.
  - destruct a; reflexivity.
  - apply IH.
Qed.

Lemma take_len (s : string) : take (len s) s = s.
Proof. induction s as [|c t IH]; simpl; [reflexivity|]. by rewrite IH. Qed.

Lemma HasPrefix_empty (s : string) : HasPrefix s "" = true.
Proof. destruct s; reflexivity. Qed.

Lemma HasSuffix_empty (s : string) : HasSuffix s "" = true.
Proof.
  unfold HasSuffix. simpl len at 1. rewrite Nat.sub_0_r.
  rewrite (drop_ge (len s) s) by lia. reflexivity.
Qed.

Lemma TrimPrefix_empty (s : string) : TrimPrefix s "" = s.
Proof. unfold TrimPrefix. rewrite HasPrefix_empty. reflexivity. Qed.

Lemma TrimSuffix_empty (s : string) : TrimSuffix s "" = s.
Proof.
  unfold TrimSuffix. rewrite HasSuffix_empty. simpl len at 2.
  rewrite Nat.sub_0_r. apply take_len.
Qed.

(** A suffix of what is left after a prefix was cut is a suffix of the
    whole. *)
Lemma HasSuffix_drop (n : nat) (s suffix : string) :
  HasSuffix (drop n s) suffix = true -> HasSuffix s suffix = true.
Proof.
  unfold HasSuffix. rewrite len_drop, drop_drop.
  intros H. apply andb_true_iff in H as [Hlen Heq].
  apply Nat.leb_le in Hlen. apply andb_true_iff. split.
  - apply Nat.leb_le. lia.
  - destruct (decide (n <= len s)%nat) as [Hn|Hn].
    + replace (len s - len suffix)%nat with (n + (len s - n - len suffix))%nat by lia.
      exact Heq.
    + assert (len suffix = 0)%nat as Hz by lia.
      rewrite (drop_ge _ s) in Heq by lia.
      rewrite (drop_ge _ s) by lia. exact Heq.
Qed.

Lemma HasSuffix_TrimPrefix (s prefix suffix : string) :
  HasSuffix (TrimPrefix s prefix) suffix = true -> HasSuffix s suffix = true.
Proof.
  unfold TrimPrefix. destruct (HasPrefix s prefix); [apply HasSuffix_drop|done].
Qed.

(** X4. When a pattern with [**] matches a path other than itself, the path
    starts with the literal before the first [**] and ends with the
    literal after the last one (each without the slash next to the
    [**]), and every interior literal occurs somewhere in what lies
    between. *)
Lemma MatchPattern_double_wildcard_sound (pattern path : string) :
  Contains pattern "**" = true ->
  pattern <> path ->
  MatchPattern pattern path = true ->
  let parts := Split pattern "**" in
  let prefix := TrimSuffix (first_part parts) "/" in
  let suffix := TrimPrefix (last_part parts) "/" in
  HasPrefix path prefix = true /\
  HasSuffix path suffix = true /\
  forallb (fun part =>
             String.eqb part ""
             || Contains (TrimSuffix (TrimPrefix path prefix) suffix) (Trim part "/"))
          (interior parts) = true.
Proof.
  intros Hdw Hne Hmatch parts prefix suffix.
  unfold MatchPattern, MatchPattern_body in Hmatch.
  apply String.eqb_neq in Hne. rewrite Hne, Hdw in Hmatch.
  destruct (negb (Contains pattern "*")); [discriminate|].
  unfold matchWithDoubleWildcard, matchWithDoubleWildcard_body in Hmatch.
  fold parts in Hmatch.
  destruct (length parts =? 1)%nat eqn:Hone.
  { apply Nat.eqb_eq in Hone.
    apply Split_single_no_occurrence in Hone; [congruence|discriminate]. }
  assert (Hlen : (2 <= length parts)%nat).
  { apply Nat.eqb_neq in Hone.
    pose proof (split_from_length pattern "**" 0 "") as Hge.
    change (split_from pattern "**" 0 "") with parts in Hge. lia. }
  assert (H1 : (1 <? length parts)%nat = true) by (apply Nat.ltb_lt; lia).
  rewrite H1 in Hmatch. fold prefix suffix in Hmatch.
  (* the prefix *)
  assert (Hpre : HasPrefix path prefix = true /\
                 exists path1, path1 = TrimPrefix path prefix /\
                   match
                     (if true && negb (String.eqb (last_part parts) "")
                      then if negb (String.eqb suffix "") && negb (HasSuffix path1 suffix)
                           then None else Some (TrimSuffix path1 suffix)
                      else Some path1)
                   with
                   | Some path2 =>
                       if (2 <? length parts)%nat
                       then middle_loop (interior parts) path2 else true
                   | None => false
                   end = true).
  { destruct (String.eqb (first_part parts) "") eqn:Hfirst; simpl in Hmatch.
    - apply String.eqb_eq in Hfirst.
      assert (prefix = "") as Hp by (subst prefix; rewrite Hfirst; reflexivity).
      rewrite Hp, HasPrefix_empty, TrimPrefix_empty. eauto.
    - destruct (String.eqb prefix "") eqn:Hp; simpl in Hmatch.
      + apply String.eqb_eq in Hp. rewrite Hp in *.
        rewrite HasPrefix_empty. rewrite TrimPrefix_empty in *. eauto.
      + destruct (HasPrefix path prefix) eqn:Hhp; simpl in Hmatch; [|discriminate].
        eauto. }
  destruct Hpre as [Hprefix (path1 & -> & Hrest)].
  split; [exact Hprefix|].
  (* the suffix *)
  assert (Hsuf : HasSuffix (TrimPrefix path prefix) suffix = true /\
                 (if (2 <? length parts)%nat
                  then middle_loop (interior parts)
                         (TrimSuffix (TrimPrefix path prefix) suffix)
                  else true) = true).
  { destruct (String.eqb (last_part parts) "") eqn:Hlast; simpl in Hrest.
    - apply String.eqb_eq in Hlast.
      assert (suffix = "") as Hs by (subst suffix; rewrite Hlast; reflexivity).
      rewrite Hs, HasSuffix_empty, TrimSuffix_empty. done.
    - destruct (String.eqb suffix "") eqn:Hs; simpl in Hrest.
      + apply String.eqb_eq in Hs. rewrite Hs in *.
        rewrite HasSuffix_empty. rewrite TrimSuffix_empty in *. done.
      + destruct (HasSuffix (TrimPrefix path prefix) suffix) eqn:Hhs;
          simpl in Hrest; [|discriminate].
        done. }
  destruct Hsuf as [Hsuffix Hmiddle].
  split; [eapply HasSuffix_TrimPrefix; exact Hsuffix|].
  destruct (2 <? length parts)%nat eqn:H2.
  - rewrite middle_loop_all in Hmiddle. exact Hmiddle.
  - apply Nat.ltb_ge in H2.
    assert (length (interior parts) = 0)%nat as Hnil.
    { unfold interior. destruct parts as [|a [|b [|c l]]]; simpl in *; lia. }
    destruct (interior parts); [reflexivity|discriminate].
Qed.

(** C4. A pattern with three [**] and the interior literals [v1] then
    [users] matches the path that has them in this order, and matches
    as well the path in which [users] comes only before [v1]:
    [MatchPattern] does not look at the order of the interior
    literals. *)
Theorem MatchPattern_interior_order_ignored :
  MatchPattern "/api/**/v1/**/users/**/list" "/api/v1/users/list" = true /\
  MatchPattern "/api/**/v1/**/users/**/list" "/api/users/v1/list" = true.
Proof. split; vm_compute; reflexivity. Qed.

(** C5. [GetPatternPriority] is [-50] on a pattern with seven [**] (the
    double-wildcard branch has no floor), and [0] on a pattern of five
    [*] segments (the floor of the last branch applies below zero
    only). *)
Theorem GetPatternPriority_below_one :
  GetPatternPriority "/**/**/**/**/**/**/**" = -50 /\
  GetPatternPriority "/*/*/*/*/*/x" = 0.
Proof. split; vm_compute; reflexivity. Qed.

(** *** Where [NormalizePattern] is idempotent *)

Lemma app_cons (c : ascii) (a b : string) : String c a +:+ b = String c (a +:+ b).
Proof. reflexivity. Qed.

Lemma app_empty_l (b : string) : "" +:+ b = b.
Proof. reflexivity. Qed.

Lemma take_drop (n : nat) (s : string) : take n s +:+ drop n s = s.
Proof.
  revert n. induction s as [|c t IH]; intros [|k]; try reflexivity.
  cbn [take drop]. rewrite app_cons. f_equal. apply IH.
Qed.

Lemma len_app (a b : string) : len (a +:+ b) = (len a + len b)%nat.
Proof.
  unfold len. induction a as [|c t IH]; [reflexivity|].
  rewrite app_cons. cbn [String.length Nat.add]. f_equal. exact IH.
Qed.

Lemma drop_app_len (a b : string) : drop (len a) (a +:+ b) = b.
Proof.
  induction a as [|c t IH]; [rewrite app_empty_l; by destruct b|].
  rewrite app_cons. cbn [len String.length drop]. exact IH.
Qed.

Lemma app_assoc_string (a b c : string) : (a +:+ b) +:+ c = a +:+ (b +:+ c).
Proof.
  induction a as [|x t IH]; [reflexivity|].
  rewrite !app_cons. f_equal. exact IH.
Qed.

Lemma HasSuffix_app (a suffix : string) : HasSuffix (a +:+ suffix) suffix = true.
Proof.
  unfold HasSuffix. rewrite len_app. apply andb_true_iff. split.
  - apply Nat.leb_le. lia.
  - replace (len a + len suffix - len suffix)%nat with (len a) by lia.
    rewrite drop_app_len. apply String.eqb_refl.
Qed.

Lemma HasSuffix_split (s suffix : string) :
  HasSuffix s suffix = true -> s = TrimSuffix s suffix +:+ suffix.
Proof.
  intros H. unfold TrimSuffix. rewrite H.
  unfold HasSuffix in H. apply andb_true_iff in H as [_ Heq].
  apply String.eqb_eq in Heq.
  transitivity (take (len s - len suffix) s +:+ drop (len s - len suffix) s).
  - symmetry. apply take_drop.
  - by rewrite Heq.
Qed.

Lemma HasSuffix_cons (c : ascii) (s suffix : string) :
  (len suffix <= len s)%nat ->
  HasSuffix (String c s) suffix = HasSuffix s suffix.
Proof.
  intros Hle. unfold HasSuffix. cbn [len String.length]. fold (len s).
  replace (S (len s) - len suffix)%nat with (S (len s - len suffix)) by lia.
  cbn [drop].
  replace (len suffix <=? S (len s))%nat with true by (symmetry; apply Nat.leb_le; lia).
  replace (len suffix <=? len s)%nat with true by (symmetry; apply Nat.leb_le; lia).
  reflexivity.
Qed.

Lemma HasPrefix_slash_app (a b : string) :
  a <> "" -> HasPrefix (a +:+ b) "/" = HasPrefix a "/".
Proof. destruct a as [|c t]; [congruence|]. intros _. rewrite app_cons. reflexivity. Qed.

(** [NormalizePattern] after its first step: the pattern with a leading
    slash. *)
Lemma NormalizePattern_rooted (pattern : string) :
  HasPrefix pattern "/" = true ->
  NormalizePattern pattern
  = if (1 <? len pattern)%nat && HasSuffix pattern "/"
    then TrimSuffix pattern "/" else pattern.
Proof. intros H. unfold NormalizePattern. rewrite H. reflexivity. Qed.

(** A rooted pattern that does not end in two slashes is normalised in
    one step. *)
Lemma NormalizePattern_fixpoint_rooted (pattern : string) :
  HasPrefix pattern "/" = true ->
  HasSuffix pattern "//" = false ->
  NormalizePattern (NormalizePattern pattern) = NormalizePattern pattern.
Proof.
  intros Hroot Hdouble.
  rewrite (NormalizePattern_rooted pattern Hroot).
  destruct ((1 <? len pattern)%nat && HasSuffix pattern "/") eqn:Hcond.
  - apply andb_true_iff in Hcond as [Hlen Hslash].
    apply Nat.ltb_lt in Hlen.
    pose proof (HasSuffix_split _ _ Hslash) as Hsplit.
    set (q := TrimSuffix pattern "/") in *.
    assert (Hq : q <> "").
    { intros Hq. rewrite Hq in Hsplit. rewrite Hsplit in Hlen. simpl in Hlen. lia. }
    assert (Hqroot : HasPrefix q "/" = true).
    { rewrite <- (HasPrefix_slash_app q "/") by exact Hq. by rewrite <- Hsplit. }
    rewrite (NormalizePattern_rooted q Hqroot).
    destruct ((1 <? len q)%nat && HasSuffix q "/") eqn:Hcond2; [|reflexivity].
    apply andb_true_iff in Hcond2 as [_ Hslash2].
    pose proof (HasSuffix_split _ _ Hslash2) as Hsplit2.
    rewrite Hsplit2, app_assoc_string in Hsplit.
    change ("/" +:+ "/") with "//" in Hsplit.
    rewrite Hsplit, HasSuffix_app in Hdouble. discriminate.
  - rewrite (NormalizePattern_rooted pattern Hroot), Hcond. reflexivity.
Qed.

(** [NormalizePattern] is idempotent on every pattern that does not end
    in two slashes. *)
Lemma NormalizePattern_idempotent_single_slash (pattern : string) :
  HasSuffix pattern "//" = false ->
  NormalizePattern (NormalizePattern pattern) = NormalizePattern pattern.
Proof.
  intros Hdouble.
  destruct (HasPrefix pattern "/") eqn:Hroot.
  - apply NormalizePattern_fixpoint_rooted; assumption.
  - assert (Hn : NormalizePattern pattern = NormalizePattern ("/" +:+ pattern)).
    { unfold NormalizePattern. rewrite Hroot. reflexivity. }
    rewrite Hn. apply NormalizePattern_fixpoint_rooted; [reflexivity|].
    destruct pattern as [|a [|b t]]; [reflexivity| |].
    + cbn in Hroot. rewrite andb_true_r in Hroot.
      rewrite app_cons, app_empty_l. unfold HasSuffix. cbn.
      rewrite Hroot. reflexivity.
    + rewrite app_cons, app_empty_l.
      rewrite HasSuffix_cons by (simpl; lia). exact Hdouble.
Qed.

(** C6. On [/a//] a second application of [NormalizePattern] changes
    the result of the first: only one of the trailing slashes is
    removed each time. *)
Theorem NormalizePattern_twice_differs :
  NormalizePattern "/a//" = "/a/" /\
  NormalizePattern (NormalizePattern "/a//") = "/a".
Proof. split; vm_compute; reflexivity. Qed.

End PatternFacts.

(** ** The connection table *)
Section ConnectionTable.
Import Websocket Scenario.

(** The setters reach one field each. *)
Lemma clients_logf (s : string) (m : Manager) : clients (logf s m) = clients m.
Proof. reflexivity. Qed.

Lemma registerClient_clients (m : Manager) (client : nat) (c : ClientConn) :
  conns m !! client = Some c ->
  clients (registerClient m client) = <[clientID c := client]> (clients m).
Proof. intros Hc. unfold registerClient. rewrite Hc. reflexivity. Qed.

Lemma registerClient_conns (m : Manager) (client : nat) (c : ClientConn) :
  conns m !! client = Some c ->
  conns (registerClient m client)
  = alter (conn_init_quality (baseHeartbeatInterval m)) client (conns m).
Proof. intros Hc. unfold registerClient. rewrite Hc. reflexivity. Qed.

(** [registerClient] never calls [cancel]: the state of every context
    is what it was. *)
Lemma registerClient_cancelled (m : Manager) (client other : nat) :
  cancelled <$> conns (registerClient m client) !! other
  = cancelled <$> conns m !! other.
Proof.
  unfold registerClient.
  destruct (conns m !! client) as [c|] eqn:Hc; [|reflexivity].
  cbn [conns logf set_conns set_stats set_clients].
  destruct (decide (client = other)) as [->|Hne].
  - rewrite lookup_alter_eq, Hc. reflexivity.
  - rewrite lookup_alter_ne by done. reflexivity.
Qed.

(** C1.  Connection 1 registers for [agent-1]; then connection 2
    registers for the same identifier.  The table now holds connection
    2, but connection 1 was not cancelled first: its context is live,
    its socket open, and its read loop goes on taking frames.  The
    manager is written for one connection per identifier all the same,
    since the deferred [unregisterClient] deletes the entry by
    identifier: when the handler of connection 1 returns it removes the
    entry of connection 2, which is still running, and at its next
    heartbeat tick connection 2 cannot ping itself through the table
    and cancels its own context. *)
Theorem second_register_leaves_two_connections_running :
  let m1 := handleConnection_enter emptyManager "agent-1" 1 100 in
  let m2 := handleConnection_enter m1 "agent-1" 2 200 in
  clients m1 !! "agent-1" = Some 1%nat /\
  clients m2 !! "agent-1" = Some 2%nat /\
  cancelled <$> conns m2 !! 1%nat = Some false /\
  closed <$> conns m2 !! 1%nat = Some false /\
  snd (clientReader_turn (J := tableJSON []) (Hd := loggingHandlers)
         m2 1 (ReadFrame PingMessage "") false 250) = true /\
  let m3 := handleConnection_exit m2 "agent-1" 1 false 300 in
  clients m3 !! "agent-1" = None /\
  cancelled <$> conns m3 !! 2%nat = Some false /\
  exists m4,
    Control.clientWriter_turn m3 2 Control.TickerFired 30200 = Some (m4, None, false) /\
    cancelled <$> conns m4 !! 2%nat = Some true.
Proof.
  cbv zeta.
  split; [reflexivity|]. split; [reflexivity|]. split; [reflexivity|].
  split; [reflexivity|]. split; [reflexivity|]. split; [reflexivity|].
  split; [reflexivity|].
  eexists. split; [vm_compute; reflexivity|reflexivity].
Qed.

End ConnectionTable.


(** ** The read loop and the dispatch of frames *)
Section FrameDispatch.
Import Protocol Websocket Scenario.
Context {J : JSON} {Hd : Handlers}.

Lemma refresh_conns (m : Manager) (client : nat) (c : ClientConn) (now : Z) :
  conns m !! client = Some c ->
  alter (conn_set_lastActivity now) client
    (alter (conn_set_lastSeen now) client (conns m))
  = <[client := conn_set_lastActivity now (conn_set_lastSeen now c)]> (conns m).
Proof.
  intros Hc. apply map_eq. intros i.
  destruct (decide (client = i)) as [->|Hne].
  - rewrite lookup_insert_eq, !lookup_alter_eq, Hc. reflexivity.
  - rewrite lookup_insert_ne, !lookup_alter_ne by done. reflexivity.
Qed.

Lemma eqb_two_constants (s a b : string) :
  a <> b -> String.eqb s b = true -> String.eqb s a = false.
Proof.
  intros Hne Hb. apply String.eqb_eq in Hb. subst s.
  apply String.eqb_neq. congruence.
Qed.

(** [Execute] on a text frame that does not decode. *)
Lemma Execute_malformed (t : MessageTask) (m : Manager) (now : Z) :
  messageType t = TextMessage ->
  Unmarshal_Message (data t) = None ->
  Execute t m now
  = (logf "Ignoring non-JSON message from client %s"
       (IncrementErrors
          (logf "Raw message data (first 200 chars): %s"
             (logf "Failed to parse JSON message from client %s: %v" m))),
     mkTaskResult true).
Proof.
  intros Ht Hdec. unfold Execute. rewrite Ht, Hdec. reflexivity.
Qed.

(** [Execute] on a text frame with an unknown operation: one log line. *)
Lemma Execute_unknown_op (t : MessageTask) (m : Manager) (now : Z)
      (msg : Message string) :
  messageType t = TextMessage ->
  Unmarshal_Message (data t) = Some msg ->
  unknown_op msg = true ->
  exists line, Execute t m now = (logf line m, mkTaskResult true).
Proof.
  intros Ht Hdec Hu. unfold Execute. rewrite Ht, Hdec.
  change (TextMessage =? PingMessage) with false.
  change (TextMessage =? PongMessage) with false.
  change (TextMessage =? CloseMessage) with false.
  change (TextMessage =? BinaryMessage) with false.
  change (TextMessage =? TextMessage) with true.
  cbv iota.
  unfold unknown_op in Hu. simpl existsb in Hu.
  apply orb_true_iff in Hu as [Hu|Hu]; apply andb_true_iff in Hu as [Hty Hop];
    apply negb_true_iff in Hop;
    repeat (apply orb_false_iff in Hop as [? Hop]).
  - rewrite Hty. unfold handleControlMessage.
    repeat match goal with H : String.eqb _ _ = false |- _ => rewrite H; clear H end.
    eexists. reflexivity.
  - rewrite (eqb_two_constants _ MessageTypeControl MessageTypeMessage) by done.
    rewrite Hty. unfold handleDataMessage.
    repeat match goal with H : String.eqb _ _ = false |- _ => rewrite H; clear H end.
    eexists. reflexivity.
Qed.

(** C7, amended.  A text frame that is not valid JSON is logged, counted
    as an error and ignored: the read loop goes on with the next frame
    and the manager stays as it is, the connection neither cancelled
    nor closed nor removed from the table.  The same holds, without the
    error count, for a well-formed CONTROL or MESSAGE frame with an
    unknown operation, which is only logged.  (A frame the worker pool
    refuses is dropped and counted as an error whatever it holds.)  An
    ERROR frame is handled by its type alone: what the server does with
    it does not depend on its operation. *)
Theorem malformed_or_unknown_frame_is_ignored
        (m : Manager) (client : nat) (c : ClientConn) (data : string)
        (poolFull : bool) (now : Z) :
  conns m !! client = Some c ->
  cancelled c = false ->
  ((Unmarshal_Message data = None \/
    exists msg, Unmarshal_Message data = Some msg /\ unknown_op msg = true) ->
   exists m',
     clientReader_turn m client (ReadFrame TextMessage data) poolFull now = (m', true) /\
     frame_only_logged m m' client c now
       (if poolFull then 1
        else match Unmarshal_Message data with None => 1 | Some _ => 0 end) /\
     cancelled <$> conns m' !! client = Some false /\
     closed <$> conns m' !! client = Some (closed c)) /\
  (forall msg op data',
     Unmarshal_Message data = Some msg ->
     Type_ msg = MessageTypeError ->
     Unmarshal_Message data' = Some (with_op op msg) ->
     clientReader_turn m client (ReadFrame TextMessage data') poolFull now
     = clientReader_turn m client (ReadFrame TextMessage data) poolFull now).
Proof.
  intros Hc Hlive. split.
  - intros Hdata.
    unfold clientReader_turn. rewrite Hc, Hlive.
    eexists. split; [reflexivity|].
    assert (Hlook : forall m', conns m' =
              <[client := conn_set_lastActivity now (conn_set_lastSeen now c)]> (conns m) ->
              cancelled <$> conns m' !! client = Some false /\
              closed <$> conns m' !! client = Some (closed c)).
    { intros m' ->. rewrite lookup_insert_eq. simpl. rewrite Hlive. done. }
    unfold handleMessage. destruct poolFull.
    + assert (Hf : frame_only_logged m
                (IncrementErrors (logf "Failed to submit message task: %v"
                   (set_conns (alter (conn_set_lastActivity now) client)
                      (set_conns (alter (conn_set_lastSeen now) client) m))))
                client c now 1).
      { unfold frame_only_logged; simpl. rewrite (refresh_conns _ _ _ _ Hc).
        repeat split; eauto. eexists; split; [|reflexivity]. done. }
      split; [exact Hf|]. apply Hlook, Hf.
    + destruct Hdata as [Hbad|(msg & Hgood & Hop)].
      * rewrite Execute_malformed by done. rewrite Hbad.
        assert (Hf : frame_only_logged m
                  (logf "Ignoring non-JSON message from client %s"
                     (IncrementErrors
                        (logf "Raw message data (first 200 chars): %s"
                           (logf "Failed to parse JSON message from client %s: %v"
                              (set_conns (alter (conn_set_lastActivity now) client)
                                 (set_conns (alter (conn_set_lastSeen now) client) m))))))
                  client c now 1).
        { unfold frame_only_logged; simpl. rewrite (refresh_conns _ _ _ _ Hc).
          repeat split; eauto.
          eexists; split; [|rewrite <- !app_assoc; reflexivity]. done. }
        split; [exact Hf|]. apply Hlook, Hf.
      * edestruct (Execute_unknown_op
                     (mkMessageTask client TextMessage data)
                     (set_conns (alter (conn_set_lastActivity now) client)
                        (set_conns (alter (conn_set_lastSeen now) client) m)) now msg)
          as [line Hex]; [done..|].
        rewrite Hex, Hgood.
        assert (Hf : frame_only_logged m
                  (logf line
                     (set_conns (alter (conn_set_lastActivity now) client)
                        (set_conns (alter (conn_set_lastSeen now) client) m)))
                  client c now 0).
        { unfold frame_only_logged; simpl. rewrite (refresh_conns _ _ _ _ Hc).
          repeat split; eauto; [lia|]. eexists; split; [|reflexivity]. done. }
        split; [exact Hf|]. apply Hlook, Hf.
  - intros msg op data' Hdec Hty Hdec'.
    unfold clientReader_turn. rewrite Hc, Hlive.
    unfold handleMessage. destruct poolFull; [reflexivity|].
    unfold Execute. cbn [Websocket.messageType Websocket.data Websocket.client].
    rewrite Hdec, Hdec'. cbn [with_op Type_]. rewrite Hty.
    reflexivity.
Qed.

End FrameDispatch.

Section FrameDispatchAtWork.
Import Protocol Websocket Scenario Exchange.

(** C7, as stated, fails, in both halves.  Agent [agent-1] is connected
    and sends the text frame [{oops], which is not JSON: the read loop
    goes on, the agent stays in the table, and its connection is
    neither cancelled nor closed.  And while the request [msg-1] waits
    for its answer, the agent sends a well-formed ERROR frame whose
    operation is [BOGUS]: the frame is not ignored, the row of the
    request is marked failed and its caller is handed a response with
    status 500. *)
Lemma malformed_frame_kept_and_unknown_op_error_frame_acted_on :
  let turn := clientReader_turn (J := tableJSON []) (Hd := loggingHandlers)
                oneAgent 1 (ReadFrame TextMessage "{oops") false 200 in
  let turn' := clientReader_turn (J := bogusJSON) (Hd := loggingHandlers)
                 waiting 1 (ReadFrame TextMessage "bogus") false 1500 in
  (snd turn = true /\
   clients (fst turn) !! "agent-1" = Some 1%nat /\
   cancelled <$> conns (fst turn) !! 1%nat = Some false /\
   closed <$> conns (fst turn) !! 1%nat = Some false) /\
  (Unmarshal_Message (JSON := bogusJSON) "bogus" = Some bogusError /\
   existsb (String.eqb (Op bogusError))
     [OpRegister; OpRegisterAck; OpRouteSync; OpRouteSyncAck; OpRequest; OpResponse;
      OpACK; OpPing; OpPong; OpCancel; OpError] = false /\
   Database.State <$> Database.pending_messages (db waiting) !! "msg-1"
   = Some Database.MessageStatePending /\
   Database.State <$> Database.pending_messages (db (fst turn')) !! "msg-1"
   = Some Database.MessageStateFailed /\
   resultCh <$> pctxs (fst turn') !! 7%nat
   = Some [Some (ResponsePayload.mk 500 ∅ None 0 (Some "connection refused"))]).
Proof. vm_compute. repeat split; reflexivity. Qed.

(** The amended C7 at the malformed frame [{oops] of [agent-1]. *)
Lemma malformed_or_unknown_frame_is_ignored_witness :
  exists m',
    clientReader_turn (J := tableJSON []) (Hd := loggingHandlers)
      oneAgent 1 (ReadFrame TextMessage "{oops") false 200
    = (m', true) /\
    metricsErrors m' = 1 /\
    cancelled <$> conns m' !! 1%nat = Some false.
Proof.
  destruct (proj1 (malformed_or_unknown_frame_is_ignored
                     (J := tableJSON []) (Hd := loggingHandlers)
                     oneAgent 1
                     (mkClientConn "agent-1" [] 1000 100 0 100 0 30000 "unknown" []
                                   false false)
                     "{oops" false 200 eq_refl eq_refl)
              (or_introl eq_refl))
    as (m' & Hturn & Hf & Hlive & _).
  exists m'. split; [exact Hturn|]. split; [|exact Hlive].
  destruct Hf as (_ & _ & _ & _ & _ & _ & _ & _ & _ & Herr & _). exact Herr.
Defined.

End FrameDispatchAtWork.

(** ** The pending-request table *)
Section PendingTable.
Import Protocol Websocket Scenario.
Context {J : JSON}.

Lemma pending_db_write f e (m : Manager) : pending (db_write f e m) = pending m.
Proof. unfold db_write. destruct (Database.failing (db m)); reflexivity. Qed.

Lemma pctxs_db_write f e (m : Manager) : pctxs (db_write f e m) = pctxs m.
Proof. unfold db_write. destruct (Database.failing (db m)); reflexivity. Qed.

(** What [notify_pending] does to the two maps. *)
Lemma notify_pending_spec (m : Manager) (id : string) (v : ResponsePayload.t) :
  match notify_pending m id v with
  | None => pending m !! id = None \/
            exists p, pending m !! id = Some p /\ pctxs m !! p = None
  | Some (m', true) =>
      exists p pc, pending m !! id = Some p /\ pctxs m !! p = Some pc /\
                   resultCh pc = [] /\ pending m' = pending m /\
                   pctxs m' = <[p := pending_set_resultCh [Some v] pc]> (pctxs m)
  | Some (m', false) =>
      exists p pc, pending m !! id = Some p /\ pctxs m !! p = Some pc /\
                   resultCh pc <> [] /\ m' = m
  end.
Proof.
  unfold notify_pending.
  destruct (pending m !! id) as [p|] eqn:Hp; [|by left].
  destruct (pctxs m !! p) as [pc|] eqn:Hpc; [|right; eauto].
  unfold try_send.
  destruct (resultCh pc) as [|x rest] eqn:Hch; simpl.
  - exists p, pc. repeat split; try done.
    apply map_eq. intros i. destruct (decide (p = i)) as [->|Hne].
    + rewrite lookup_alter_eq, lookup_insert_eq, Hpc. simpl.
      unfold pending_set_resultCh. reflexivity.
    + rewrite lookup_alter_ne, lookup_insert_ne by done. reflexivity.
  - exists p, pc. repeat split; try done. congruence.
Qed.

(** [handleResponse] never touches the table itself, and changes a
    waiter's record only by the value it hands over. *)
Lemma handleResponse_maps (m : Manager) (client : nat) (msg : Message string) :
  pending (handleResponse m client msg) = pending m /\
  (pctxs (handleResponse m client msg) = pctxs m \/
   exists id resp p pc,
     MsgID msg = Some id /\ ParsePayload_Response msg = Some resp /\
     pending m !! id = Some p /\ pctxs m !! p = Some pc /\ resultCh pc = [] /\
     pctxs (handleResponse m client msg)
     = <[p := pending_set_resultCh [Some resp] pc]> (pctxs m)).
Proof.
  unfold handleResponse.
  destruct (MsgID msg) as [id|] eqn:Hid; [|by split; [|left]].
  destruct (ParsePayload_Response msg) as [resp|] eqn:Hresp; [|by split; [|left]].
  set (m1 := logf "[WebSocket Receive] Looking for pending request with msgID: %s" _).
  assert (Hp1 : pending m1 = pending m).
  { subst m1. cbn [pending logf]. rewrite pending_db_write.
    destruct (ResponsePayload.Body resp); reflexivity. }
  assert (Hc1 : pctxs m1 = pctxs m).
  { subst m1. cbn [pctxs logf]. rewrite pctxs_db_write.
    destruct (ResponsePayload.Body resp); reflexivity. }
  clearbody m1.
  destruct (pending m1 !! id) as [p|] eqn:Hp; [|by split; [|left]].
  set (m2 := logf _ m1).
  assert (Hp2 : pending m2 = pending m) by (subst m2; exact Hp1).
  assert (Hc2 : pctxs m2 = pctxs m) by (subst m2; exact Hc1).
  pose proof (notify_pending_spec m2 id resp) as Hn.
  destruct (notify_pending m2 id resp) as [[m' [|]]|].
  - destruct Hn as (p' & pc & Hp' & Hpc & Hch & Hpm & Hcm).
    cbn [pending pctxs logf]. rewrite Hpm, Hcm, Hp2, Hc2.
    split; [reflexivity|]. right.
    exists id, resp, p', pc. rewrite <- Hp2, <- Hc2. done.
  - destruct Hn as (p' & pc & Hp' & Hpc & Hch & ->).
    cbn [pending pctxs logf]. split; [exact Hp2|left; exact Hc2].
  - split; [exact Hp2|left; exact Hc2].
Qed.

(** A response whose [msg_id] has no entry is dropped. *)
Lemma handleResponse_no_entry (m : Manager) (client : nat)
      (msg : Message string) (id : string) :
  MsgID msg = Some id -> pending m !! id = None ->
  pending (handleResponse m client msg) = pending m /\
  pctxs (handleResponse m client msg) = pctxs m.
Proof.
  intros Hid Hnone.
  destruct (handleResponse_maps m client msg) as [Hp [Hc|Hc]]; [done|].
  destruct Hc as (id' & resp & p & pc & Hid' & _ & Hp' & _).
  congruence.
Qed.

(** A response whose waiter already has a value in its slot is dropped. *)
Lemma handleResponse_slot_full (m : Manager) (client : nat)
      (msg : Message string) (id : string) (p : nat) (pc : PendingContext) :
  MsgID msg = Some id -> pending m !! id = Some p -> pctxs m !! p = Some pc ->
  resultCh pc <> [] ->
  pending (handleResponse m client msg) = pending m /\
  pctxs (handleResponse m client msg) = pctxs m.
Proof.
  intros Hid Hp Hpc Hfull.
  destruct (handleResponse_maps m client msg) as [Hp' [Hc|Hc]]; [done|].
  destruct Hc as (id' & resp & p' & pc' & Hid' & _ & Hp'' & Hpc' & Hch & _).
  congruence.
Qed.

(** The slot never holds more than one value. *)
Lemma handleResponse_capacity (m : Manager) (client : nat) (msg : Message string) :
  (forall p pc, pctxs m !! p = Some pc -> (length (resultCh pc) <= 1)%nat) ->
  forall p pc, pctxs (handleResponse m client msg) !! p = Some pc ->
               (length (resultCh pc) <= 1)%nat.
Proof.
  intros Hinv p pc Hl.
  destruct (handleResponse_maps m client msg) as [_ [Hc|Hc]].
  - rewrite Hc in Hl. eauto.
  - destruct Hc as (id & resp & p' & pc' & _ & _ & _ & Hpc' & _ & Heq).
    rewrite Heq in Hl.
    destruct (decide (p' = p)) as [->|Hne].
    + rewrite lookup_insert_eq in Hl. injection Hl as <-. simpl. lia.
    + rewrite lookup_insert_ne in Hl by done. eauto.
Qed.

Lemma pending_cleanup (m : Manager) (id : string) (p : nat) :
  pending (SendRequestAndWait_cleanup m id p) = delete id (pending m).
Proof. reflexivity. Qed.

(** When the waiter returns, its entry is gone, and what it returns is
    what the [select] chose. *)
Lemma wait_returns (m m' : Manager) (id : string) (p : nat) (pc : PendingContext)
      (now : Z) (pickResult : bool) (r : result) :
  pctxs m !! p = Some pc ->
  SendRequestAndWait_wait m id p now pickResult = Some (m', r) ->
  pending m' !! id = None /\
  match r with
  | Ok response => head (resultCh pc) = Some (Some response)
  | Err _ =>
      head (resultCh pc) = Some None
      \/ (resultCh pc = [] /\ resultClosed pc = true)
      \/ ctx_done pc now = true
  end.
Proof.
  intros Hpc. unfold SendRequestAndWait_wait, select_wait. rewrite Hpc.
  destruct (resultCh pc) as [|v rest] eqn:Hch; simpl.
  - destruct (resultClosed pc) eqn:Hcl, (ctx_done pc now) eqn:Hd;
      try destruct pickResult; intros [= <- <-];
      (split; [rewrite pending_cleanup; apply lookup_delete_eq|]);
      auto.
  - destruct (ctx_done pc now) eqn:Hd; try destruct pickResult;
      try destruct v as [resp|]; intros [= <- <-];
      (split; [rewrite pending_cleanup; apply lookup_delete_eq|]);
      auto.
Qed.

(** A call that ends before the [select], because the client is not
    connected or its queue is full, leaves no entry either. *)
Lemma send_failure_leaves_no_entry (m m' : Manager) (clientID : string)
      (requestPayload : RequestPayload.t) (timeout : Z) (id : string)
      (p : nat) (now : Z) (err : string) :
  pending m !! id = None ->
  SendRequestAndWait_send m clientID requestPayload timeout id p now = (m', Some err) ->
  pending m' !! id = None.
Proof.
  intros Hfresh. unfold SendRequestAndWait_send.
  destruct (IsClientConnected m clientID); cbn [negb].
  - destruct (SendToClient _ clientID _) as [m1 [e|]] eqn:Hs; [|discriminate].
    intros [= <- _]. rewrite pending_cleanup. apply lookup_delete_eq.
  - intros [= <- _]. exact Hfresh.
Qed.

(** The three ways a waiter ends, at the request [msg-1] of
    [Scenario.waiting] (sent at instant 1000, deadline 31000): a
    delivered response, the deadline, a cancellation before the
    deadline.  Each time the entry is gone afterwards. *)
Example waiter_ends_by_delivery :
  let response := ResponsePayload.mk 200 ∅ (Some (StringValue "OK")) 12 None in
  let m := default waiting (fst <$> notify_pending waiting "msg-1" response) in
  exists m', SendRequestAndWait_wait m "msg-1" 7 1500 true = Some (m', Ok response) /\
             pending m' !! "msg-1" = None.
Proof.
  intros response m.
  destruct (SendRequestAndWait_wait m "msg-1" 7 1500 true) as [[m' r]|] eqn:Hw;
    [|vm_compute in Hw; discriminate].
  exists m'. vm_compute in Hw. injection Hw as <- <-. split; reflexivity.
Qed.

Example waiter_ends_by_deadline :
  exists m', SendRequestAndWait_wait (cleanupExpiredPending waiting 31001)
               "msg-1" 7 31001 true
             = Some (m', Err "request timeout after %v") /\
             pending m' !! "msg-1" = None.
Proof.
  destruct (SendRequestAndWait_wait (cleanupExpiredPending waiting 31001)
              "msg-1" 7 31001 true) as [[m' r]|] eqn:Hw;
    [|vm_compute in Hw; discriminate].
  exists m'. vm_compute in Hw. injection Hw as <- <-. split; reflexivity.
Qed.

Example waiter_ends_by_cancellation :
  SendRequestAndWait_wait waiting "msg-1" 7 2000 true = None /\
  exists m', SendRequestAndWait_wait (Close waiting) "msg-1" 7 2000 true
             = Some (m', Err "request timeout after %v") /\
             pending m' !! "msg-1" = None.
Proof.
  split; [vm_compute; reflexivity|].
  destruct (SendRequestAndWait_wait (Close waiting) "msg-1" 7 2000 true)
    as [[m' r]|] eqn:Hw; [|vm_compute in Hw; discriminate].
  exists m'. vm_compute in Hw. injection Hw as <- <-. split; reflexivity.
Qed.

(** The waiter does return: once the deadline has passed the [select]
    is ready whatever else happened. *)
Lemma wait_returns_at_deadline (m : Manager) (id : string) (p : nat)
      (pc : PendingContext) (now : Z) (pickResult : bool) :
  pctxs m !! p = Some pc ->
  deadline pc <= now ->
  is_Some (SendRequestAndWait_wait m id p now pickResult).
Proof.
  intros Hpc Hdl. unfold SendRequestAndWait_wait, select_wait. rewrite Hpc.
  assert (Hd : ctx_done pc now = true).
  { unfold ctx_done. apply orb_true_iff. right. apply Z.leb_le. exact Hdl. }
  rewrite Hd.
  destruct (resultCh pc) as [|[resp|] rest]; [destruct (resultClosed pc)|..];
    destruct pickResult; eauto.
Qed.

End PendingTable.

(** ** At-most-once resolution *)
Section Resolution.
Import Protocol Websocket Scenario.
Context {J : JSON}.

(** C3. Let [p] be the record of the waiter for [id].  Whenever its
    [select] fires, the waiter returns one result: a response that was in
    its result slot, or an error because the slot held [nil] or because
    its context was done (deadline or cancellation); its entry is gone
    from the table when it has returned, and a RESPONSE frame for [id]
    that arrives afterwards changes neither the table nor any record.
    The [select] fires at the deadline at the latest.  A RESPONSE frame
    for an [id] without entry, or for an entry whose slot is full, is
    dropped: nothing is delivered. *)
Theorem pending_entry_resolved_at_most_once
        (m : Manager) (id : string) (p : nat) (pc : PendingContext)
        (client : nat) (msg : Message string) (now : Z) (pickResult : bool) :
  MsgID msg = Some id ->
  pctxs m !! p = Some pc ->
  (forall m' r,
      SendRequestAndWait_wait m id p now pickResult = Some (m', r) ->
      match r with
      | Ok response => head (resultCh pc) = Some (Some response)
      | Err _ =>
          head (resultCh pc) = Some None
          \/ (resultCh pc = [] /\ resultClosed pc = true)
          \/ ctx_done pc now = true
      end /\
      pending m' !! id = None /\
      pending (handleResponse m' client msg) = pending m' /\
      pctxs (handleResponse m' client msg) = pctxs m') /\
  (deadline pc <= now ->
   is_Some (SendRequestAndWait_wait m id p now pickResult)) /\
  (pending m !! id = None ->
   pending (handleResponse m client msg) = pending m /\
   pctxs (handleResponse m client msg) = pctxs m) /\
  (pending m !! id = Some p -> resultCh pc <> [] ->
   pending (handleResponse m client msg) = pending m /\
   pctxs (handleResponse m client msg) = pctxs m).
Proof.
  intros Hid Hpc. repeat apply conj.
  - intros m' r Hwait.
    destruct (wait_returns _ _ _ _ _ _ _ _ Hpc Hwait) as [Hgone Hres].
    split; [exact Hres|]. split; [exact Hgone|].
    apply (handleResponse_no_entry _ _ _ id); assumption.
  - intros Hdl. eapply wait_returns_at_deadline; eassumption.
  - intros Hnone. apply (handleResponse_no_entry _ _ _ id); assumption.
  - intros Hp Hfull. eapply handleResponse_slot_full; eassumption.
Qed.

End Resolution.

(** C3 at the request [msg-1] of [agent-1] that nobody answers: at the
    deadline (instant 31000) the waiter returns. *)
Lemma pending_entry_resolved_at_most_once_witness :
  is_Some (Websocket.SendRequestAndWait_wait Scenario.waiting "msg-1" 7 31000 false).
Proof.
  refine (proj1 (proj2 (pending_entry_resolved_at_most_once
            (J := Scenario.tableJSON []) Scenario.waiting "msg-1" 7
            (Websocket.mkPendingContext "msg-1" [] false 31000 false 1000)
            1 Scenario.lateResponse 31000 false _ _)) _).
  - reflexivity.
  - vm_compute. reflexivity.
  - simpl. lia.
Defined.

(** ** The proxy front door *)
Section FrontDoor.
Import GoStrings Protocol Websocket Proxy Scenario.

(** Every error of [SendRequestAndWait] is answered with 502, the
    timeout like the failed send. *)
Lemma forward_error_is_bad_gateway
      (h h' : Handler) (r : Request) (selectedRoute : Database.ServerRoute)
      (urlPath id : string) (p : nat) (now now' : Z)
      (others : Manager -> Manager) (pickResult : bool) (err : string) :
  SendRequestAndWait h (Database.RouteClientID selectedRoute)
    (buildRequestPayload r selectedRoute urlPath) forwardTimeout id p now
    others now' pickResult = Some (h', Err err) ->
  forwardRequestToClient h r selectedRoute urlPath id p now others now' pickResult
  = Some (h', http_Error "Backend request failed" StatusBadGateway).
Proof. intros Hs. unfold forwardRequestToClient. rewrite Hs. reflexivity. Qed.

(** C2. [GET /api/users] is sent to the connected agent [agent-1] at
    instant 1000 with the 30 s timeout; no frame arrives; the [select]
    fires at the deadline, instant 31000.  The pending message is marked
    failed and the entry is removed, but the caller gets status 502, the
    status of a failed send, not 504. *)
Theorem forward_timeout_answers_502 :
  exists h' response,
    forwardRequestToClient oneAgentOneRoute getUsers usersRoute "/api/users"
      "msg-1" 7 1000 (fun m => m) 31000 false = Some (h', response) /\
    StatusCode response = StatusBadGateway /\
    StatusCode response <> StatusGatewayTimeout /\
    Database.State <$> Database.pending_messages (db h') !! "msg-1"
    = Some Database.MessageStateFailed /\
    pending h' !! "msg-1" = None.
Proof.
  destruct (forwardRequestToClient oneAgentOneRoute getUsers usersRoute
              "/api/users" "msg-1" 7 1000 (fun m => m) 31000 false)
    as [[h' response]|] eqn:Hf; [|vm_compute in Hf; discriminate].
  exists h', response. split; [reflexivity|].
  vm_compute in Hf. injection Hf as <- <-.
  vm_compute. repeat split; congruence.
Qed.

(** The sweep [CleanupExpiredPending] is the path that answers a
    timeout with 504: run on the same request five minutes later, it
    puts its synthetic response into the slot and removes the entry, and
    a caller that takes this response answers 504. *)
Example sweep_timeout_answers_504 :
  exists h' response,
    forwardRequestToClient oneAgentOneRoute getUsers usersRoute "/api/users"
      "msg-1" 7 1000 (fun m => CleanupExpiredPending m 300000 301001) 301001 true
    = Some (h', response) /\
    StatusCode response = StatusGatewayTimeout.
Proof.
  destruct (forwardRequestToClient oneAgentOneRoute getUsers usersRoute
              "/api/users" "msg-1" 7 1000
              (fun m => CleanupExpiredPending m 300000 301001) 301001 true)
    as [[h' response]|] eqn:Hf; [|vm_compute in Hf; discriminate].
  exists h', response. split; [reflexivity|].
  vm_compute in Hf. injection Hf as <- <-. reflexivity.
Qed.

(** The header loop keeps, for every name, the first of its values and
    nothing else. *)
Lemma copyHeaders_lookup (header : gmap string (list string)) (name : string) :
  copyHeaders header !! name = header !! name ≫= head.
Proof.
  unfold copyHeaders. revert name.
  apply (map_fold_weak_ind
           (fun (headers : gmap string string) (hdr : gmap string (list string)) =>
              forall name, headers !! name = hdr !! name ≫= head)).
  - intros name. rewrite !lookup_empty. reflexivity.
  - intros i values hdr headers Hfresh IH name. cbn beta.
    destruct (decide (i = name)) as [->|Hne].
    + rewrite lookup_insert_eq. destruct values as [|v0 rest]; simpl.
      * rewrite IH, Hfresh. reflexivity.
      * apply lookup_insert_eq.
    + rewrite (lookup_insert_ne hdr) by done.
      destruct values as [|v0 rest]; [apply IH|].
      rewrite lookup_insert_ne by done. apply IH.
Qed.

(** A request that [SendRequestAndWait] sends is put, as it was given,
    at the end of the send queue of the client's connection. *)
Lemma send_enqueues_request (m m' : Manager) (clientID : string)
      (requestPayload : RequestPayload.t) (timeout : Z) (id : string)
      (p : nat) (now : Z) :
  SendRequestAndWait_send m clientID requestPayload timeout id p now = (m', None) ->
  exists client c,
    clients m !! clientID = Some client /\
    conns m !! client = Some c /\
    sendQueue <$> conns m' !! client
    = Some (sendQueue c ++
            [NewMessage MessageTypeMessage OpRequest clientID (Some id)
               (OutRequest requestPayload) now]).
Proof.
  unfold SendRequestAndWait_send.
  destruct (IsClientConnected m clientID); cbn [negb]; [|discriminate].
  unfold SendToClient.
  destruct (Database.failing (db _) || bool_decide _);
    cbn [clients conns logf set_db set_pending set_pctxs];
    (destruct (clients m !! clientID) as [client|] eqn:Hcl; [|discriminate]);
    (destruct (conns m !! client) as [c|] eqn:Hco; [|discriminate]);
    (destruct (length (sendQueue c) <? sendQueueSize c)%nat; [|discriminate]);
    intros [= <-]; exists client, c;
    (split; [reflexivity|split; [exact Hco|]]);
    cbn [clients conns logf set_db set_pending set_pctxs set_conns];
    rewrite lookup_alter_eq, Hco; reflexivity.
Qed.

(** C9. In the REQUEST payload built from a request, the value of a
    header name is the first value that name has in the request; a name
    without values is absent, and no other value of a name is in the
    payload. *)
Theorem request_payload_keeps_first_header_value
        (r : Request) (selectedRoute : Database.ServerRoute)
        (urlPath name : string) :
  RequestPayload.Headers (buildRequestPayload r selectedRoute urlPath) !! name
  = match Header r !! name with
    | Some (first :: _) => Some first
    | _ => None
    end.
Proof.
  unfold buildRequestPayload. cbn [RequestPayload.Headers].
  rewrite copyHeaders_lookup.
  destruct (Header r !! name) as [[|first others]|]; reflexivity.
Qed.

(** C10. On the paths [/upload], [/health], [/status] and under
    [/proxy/], [HandleDirectProxyRequest] answers 404 whatever the
    routes and the connected agents are; the request is not forwarded. *)
Theorem direct_entry_refuses_reserved_paths (h : Handler) (r : Request) :
  URLPath r = "/upload" \/ URLPath r = "/health" \/ URLPath r = "/status"
  \/ HasPrefix (URLPath r) "/proxy/" = true ->
  HandleDirectProxyRequest h r = Reply http_NotFound /\
  StatusCode http_NotFound = 404.
Proof.
  intros Hpath. split; [|reflexivity].
  unfold HandleDirectProxyRequest.
  destruct Hpath as [-> | [-> | [-> | ->]]]; try reflexivity.
  rewrite !orb_true_r. reflexivity.
Qed.

End FrontDoor.

(** C10 at [/health]: the store holds an enabled route [/health] of the
    connected agent, which the common dispatch would forward; the direct
    entry answers 404. *)
Lemma direct_entry_refuses_reserved_paths_witness :
  let h := Websocket.set_db
             (fun _ => Database.mkRepository
                         [Database.mkServerRoute 2 "/health" "agent-1"
                            "http://127.0.0.1:9000" "first" "original_path" 1 "health"]
                         {["agent-1" := Scenario.agentRecord]} ∅ false)
             Scenario.oneAgent in
  let r := Proxy.mkRequest "GET" "/health" ∅ None "203.0.113.7:5000" in
  Proxy.HandleDirectProxyRequest h r = Proxy.Reply Proxy.http_NotFound /\
  (exists route, Proxy.dispatchRoutes h "/health" = Proxy.Forward route "/health").
Proof.
  intros h r. split.
  - apply (direct_entry_refuses_reserved_paths h r). right. left. reflexivity.
  - eexists. vm_compute. reflexivity.
Defined.

(** ** The agent's dial *)
Section Dial.
Import Websocket Agent.

(** The URL that [Connector.buildWebSocketURL] builds carries the token
    under [auth_token] and has no [token] parameter; the server's
    upgrade handler would answer it with 401 [token is required] (400
    when the client identifier is empty).  Only [Connector.Connect]
    calls this function, and the agent does not dial through it. *)
Lemma connector_url_has_no_token_parameter
        (c : Config) (m : Manager) (upgradeOK : bool) (now : Z) :
  let query := NetURL.Query (buildWebSocketURL c) in
  NetURL.Get query "client_id" = ClientID c /\
  NetURL.Get query "auth_token" = AuthToken c /\
  query !! "token" = None /\
  HandleWebSocket m query upgradeOK now
  = (m, if String.eqb (ClientID c) "" then Rejected 400 "client_id is required"
        else Rejected 401 "token is required").
Proof.
  intros query. subst query. unfold buildWebSocketURL. cbn [NetURL.Query].
  assert (Hid : NetURL.Get
                  (NetURL.Set_ (NetURL.Set_ ∅ "client_id" (ClientID c))
                               "auth_token" (AuthToken c)) "client_id" = ClientID c).
  { unfold NetURL.Get, NetURL.Set_.
    rewrite lookup_insert_ne by done. rewrite lookup_insert_eq. reflexivity. }
  assert (Htok : NetURL.Set_ (NetURL.Set_ ∅ "client_id" (ClientID c))
                             "auth_token" (AuthToken c) !! "token" = None).
  { unfold NetURL.Set_. rewrite !lookup_insert_ne by done. apply lookup_empty. }
  split; [|split; [|split]].
  - exact Hid.
  - unfold NetURL.Get, NetURL.Set_. rewrite lookup_insert_eq. reflexivity.
  - exact Htok.
  - unfold HandleWebSocket. rewrite Hid.
    destruct (String.eqb (ClientID c) ""); [reflexivity|].
    unfold NetURL.Get at 1. rewrite Htok. reflexivity.
Qed.

(** The dial of the agent, [Agent.connect], carries the token under
    [token]. *)
Lemma agent_connect_has_token_parameter (c : Config) (q : NetURL.Values) :
  connectQuery c = Some q ->
  NetURL.Get q "client_id" = ClientID c /\
  NetURL.Get q "token" = AuthToken c.
Proof.
  unfold connectQuery. destruct (ServerURL c) as [parsed|]; [|discriminate].
  intros [= <-]. unfold NetURL.Get, NetURL.Set_. split.
  - rewrite lookup_insert_ne by done. rewrite lookup_insert_eq. reflexivity.
  - rewrite lookup_insert_eq. reflexivity.
Qed.

(** The upgrade handler reads two parameters of the query,
    [client_id] and [token], and nothing else of it. *)
Lemma HandleWebSocket_reads_two_parameters (m : Manager) (q q' : NetURL.Values)
      (upgradeOK : bool) (now : Z) :
  NetURL.Get q "client_id" = NetURL.Get q' "client_id" ->
  NetURL.Get q "token" = NetURL.Get q' "token" ->
  HandleWebSocket m q upgradeOK now = HandleWebSocket m q' upgradeOK now.
Proof. intros Hid Htok. unfold HandleWebSocket. rewrite Hid, Htok. reflexivity. Qed.

(** C8. The URL the agent dials carries the client identifier under
    [client_id] and the auth token under [token], whatever the query of
    the configured server URL holds; these are the two parameters the
    server's upgrade handler reads, so the handler treats the dial as
    it treats the query that holds just this identifier and this
    token. *)
Theorem agent_dial_carries_client_id_and_token (c : Config) (q : NetURL.Values) :
  connectQuery c = Some q ->
  NetURL.Get q "client_id" = ClientID c /\
  NetURL.Get q "token" = AuthToken c /\
  forall (m : Manager) (upgradeOK : bool) (now : Z),
    HandleWebSocket m q upgradeOK now
    = HandleWebSocket m
        (NetURL.Set_ (NetURL.Set_ ∅ "client_id" (ClientID c)) "token" (AuthToken c))
        upgradeOK now.
Proof.
  intros Hq. destruct (agent_connect_has_token_parameter c q Hq) as [Hid Htok].
  split; [exact Hid|]. split; [exact Htok|].
  intros m upgradeOK now. apply HandleWebSocket_reads_two_parameters.
  - rewrite Hid. unfold NetURL.Get, NetURL.Set_.
    rewrite lookup_insert_ne by done. rewrite lookup_insert_eq. reflexivity.
  - rewrite Htok. unfold NetURL.Get, NetURL.Set_. rewrite lookup_insert_eq. reflexivity.
Qed.

(** C8 at an agent whose configured URL has a query of its own, with a
    stale [token] in it. *)
Lemma agent_dial_carries_client_id_and_token_witness :
  let c := mkConfig
             (Some (mkParsedURL "wss" "tunnel.example" "8443"
                      {["token" := ["stale"]; "region" := ["eu"]]}))
             "agent-1" "secret" in
  exists q, connectQuery c = Some q /\
            NetURL.Get q "client_id" = "agent-1" /\
            NetURL.Get q "token" = "secret".
Proof.
  intros c. eexists. split; [reflexivity|].
  pose proof (agent_dial_carries_client_id_and_token c _ eq_refl) as H.
  split; [exact (proj1 H)|exact (proj1 (proj2 H))].
Defined.

End Dial.

(** * Further properties *)

(** ** Occurrences in strings *)
Section Occurrences.
Import GoStrings.

Lemma app_empty_r (a : string) : a +:+ "" = a.
Proof. induction a as [|c t IH]; [reflexivity|]. rewrite app_cons. by rewrite IH. Qed.

Lemma HasPrefix_iff (s prefix : string) :
  HasPrefix s prefix = true <-> exists rest, s = prefix +:+ rest.
Proof.
  revert s. induction prefix as [|c p IH]; intros s.
  - split; [intros _; exists s; reflexivity|reflexivity].
  - destruct s as [|d t]; cbn [HasPrefix].
    + split; [discriminate|]. intros [rest H]. rewrite app_cons in H. discriminate.
    + rewrite andb_true_iff, IH. split.
      * intros [Hc [rest ->]]. apply Ascii.eqb_eq in Hc. subst d.
        exists rest. by rewrite app_cons.
      * intros [rest H]. rewrite app_cons in H. injection H as -> ->.
        split; [apply Ascii.eqb_refl|eauto].
Qed.

Lemma Index_lower_bound (s substr : string) : -1 <= Index s substr.
Proof.
  induction s as [|c t IH].
  - simpl. destruct (HasPrefix "" substr); lia.
  - rewrite Index_cons.
    destruct (HasPrefix (String c t) substr); [lia|].
    destruct (Index t substr <? 0) eqn:E; [lia|]. apply Z.ltb_ge in E. lia.
Qed.

Lemma Index_empty (substr : string) :
  Index "" substr = if HasPrefix "" substr then 0 else -1.
Proof. reflexivity. Qed.

(** [strings.Contains] says whether the string can be cut around an
    occurrence. *)
Lemma Contains_iff (s substr : string) :
  Contains s substr = true <-> exists a b, s = a +:+ (substr +:+ b).
Proof.
  unfold Contains. rewrite Z.leb_le. split.
  - induction s as [|c t IH].
    + rewrite Index_empty. destruct (HasPrefix "" substr) eqn:Hp; [|lia].
      intros _. apply HasPrefix_iff in Hp as [rest Hp].
      exists "", rest. exact Hp.
    + rewrite Index_cons. destruct (HasPrefix (String c t) substr) eqn:Hp.
      * intros _. apply HasPrefix_iff in Hp as [rest Hp]. exists "", rest. exact Hp.
      * destruct (Index t substr <? 0) eqn:E; [lia|]. intros _.
        apply Z.ltb_ge in E. destruct (IH E) as (a & b & ->).
        exists (String c a), b. by rewrite app_cons.
  - intros (a & b & ->). induction a as [|c a IH].
    + rewrite app_empty_l.
      assert (Hp : HasPrefix (substr +:+ b) substr = true)
        by (apply HasPrefix_iff; eauto).
      destruct (substr +:+ b) as [|d t]; [rewrite Index_empty|rewrite Index_cons];
        rewrite Hp; lia.
    + rewrite app_cons, Index_cons.
      destruct (HasPrefix _ substr); [lia|].
      destruct (Index (a +:+ substr +:+ b) substr <? 0) eqn:E; [|lia].
      apply Z.ltb_lt in E. lia.
Qed.

Lemma HasSuffix_Contains (s suffix : string) :
  HasSuffix s suffix = true -> Contains s suffix = true.
Proof.
  intros H. apply Contains_iff.
  exists (TrimSuffix s suffix), "". rewrite app_empty_r.
  by apply HasSuffix_split.
Qed.

Lemma Contains_TrimSuffix (s suffix substr : string) :
  Contains (TrimSuffix s suffix) substr = true -> Contains s substr = true.
Proof.
  destruct (HasSuffix s suffix) eqn:Hs.
  - rewrite (HasSuffix_split _ _ Hs) at 2.
    rewrite !Contains_iff. intros (a & b & ->).
    exists a, (b +:+ suffix). by rewrite !app_assoc_string.
  - unfold TrimSuffix. by rewrite Hs.
Qed.

Lemma count_from_nonneg (s substr : string) (skip : nat) :
  0 <= count_from s substr skip.
Proof.
  revert skip. induction s as [|c t IH]; intros skip; [simpl; lia|].
  destruct skip as [|k]; [|apply IH].
  change (count_from (String c t) substr 0)
    with (if HasPrefix (String c t) substr
          then 1 + count_from t substr (len substr - 1)
          else count_from t substr 0).
  destruct (HasPrefix (String c t) substr).
  - pose proof (IH (len substr - 1)%nat). lia.
  - apply IH.
Qed.

(** A substring that occurs is counted at least once. *)
Lemma Count_occurring (s substr : string) :
  substr <> "" -> Contains s substr = true -> 1 <= Count s substr.
Proof.
  intros Hne. unfold Contains, Count. rewrite Z.leb_le.
  destruct substr as [|x xs]; [congruence|].
  induction s as [|c t IH].
  - rewrite Index_empty. cbn. lia.
  - rewrite Index_cons.
    change (count_from (String c t) (String x xs) 0)
      with (if HasPrefix (String c t) (String x xs)
            then 1 + count_from t (String x xs) (len (String x xs) - 1)
            else count_from t (String x xs) 0).
    destruct (HasPrefix (String c t) (String x xs)).
    + intros _. pose proof (count_from_nonneg t (String x xs) (len (String x xs) - 1)). lia.
    + destruct (Index t (String x xs) <? 0) eqn:E; [lia|].
      intros _. apply IH. apply Z.ltb_ge in E. exact E.
Qed.

End Occurrences.

(** ** Priorities of patterns *)
Section Priorities.
Import GoStrings Pattern.

Lemma stars_cons (c : ascii) (t : string) :
  count_from (String c t) "*" 0
  = (if Ascii.eqb c "*" then 1 else 0) + count_from t "*" 0.
Proof.
  change (count_from (String c t) "*" 0)
    with (if HasPrefix (String c t) "*"
          then 1 + count_from t "*" 0 else count_from t "*" 0).
  cbn [HasPrefix]. rewrite andb_true_r. destruct (Ascii.eqb c "*"); lia.
Qed.

Lemma pairs_cons (c : ascii) (t : string) :
  count_from (String c t) "**" 0
  = if Ascii.eqb c "*" && HasPrefix t "*"
    then 1 + count_from t "**" 1 else count_from t "**" 0.
Proof. reflexivity. Qed.

Lemma pairs_skip (c : ascii) (t : string) :
  count_from (String c t) "**" 1 = count_from t "**" 0.
Proof. reflexivity. Qed.

Lemma HasPrefix_star_cons (c : ascii) (t : string) :
  HasPrefix (String c t) "*" = Ascii.eqb c "*".
Proof. cbn [HasPrefix]. apply andb_true_r. Qed.

(** Every [**] that [strings.Count] counts is made of two [*] of its
    own. *)
Lemma stars_cover_pairs (s : string) :
  2 * count_from s "**" 0 <= count_from s "*" 0 /\
  2 * count_from s "**" 1 <= count_from s "*" 0 /\
  (HasPrefix s "*" = true -> 2 * count_from s "**" 1 + 1 <= count_from s "*" 0).
Proof.
  induction s as [|c t (IH0 & IH1 & IH2)].
  - cbn. split; [lia|split; [lia|discriminate]].
  - rewrite stars_cons, pairs_cons, pairs_skip, HasPrefix_star_cons.
    destruct (Ascii.eqb c "*") eqn:Hc; cbn [andb].
    + destruct (HasPrefix t "*") eqn:Ht.
      * specialize (IH2 eq_refl). split; [lia|split; [lia|intros _; lia]].
      * split; [lia|split; [lia|intros _; lia]].
    + split; [lia|split; [lia|discriminate]].
Qed.

Lemma Contains_double_single (pattern : string) :
  Contains pattern "**" = true -> Contains pattern "*" = true.
Proof.
  rewrite !Contains_iff. intros (a & b & ->).
  exists a, ("*" +:+ b). reflexivity.
Qed.

(** The position loop only lowers the priority. *)
Lemma position_penalty_upper (rest : list string) (i n : nat) (priority : Z) :
  (i + length rest <= n)%nat ->
  position_penalty rest i n priority <= priority.
Proof.
  revert i priority. induction rest as [|part rest IH]; intros i priority Hn.
  - simpl. lia.
  - cbn [position_penalty]. cbn [length] in Hn.
    etransitivity; [apply IH; lia|].
    destruct (String.eqb part "*"); [lia|].
    destruct (Contains part "*"); lia.
Qed.

(** X1. A pattern with [**] ranks at 250 or below. *)
Theorem double_wildcard_priority_at_most_250 (pattern : string) :
  Contains pattern "**" = true ->
  GetPatternPriority pattern <= 250.
Proof.
  intros Hd. unfold GetPatternPriority.
  rewrite (Contains_double_single _ Hd), Hd. cbn [negb].
  assert (H1 : 1 <= Count pattern "**") by (apply Count_occurring; done).
  destruct (stars_cover_pairs pattern) as (H2 & _).
  change (Count pattern "**") with (count_from pattern "**" 0) in *.
  change (Count pattern "*") with (count_from pattern "*" 0).
  lia.
Qed.

Lemma double_wildcard_priority_at_most_250_witness :
  GetPatternPriority "/api/**/users" <= 250.
Proof.
  apply double_wildcard_priority_at_most_250. vm_compute. reflexivity.
Defined.

(** X2. A pattern with [*] but without [**] that neither ends nor starts
    with [*] ranks between 0 and 600: below every exact pattern, which
    ranks at 1000. *)
Theorem single_wildcard_priority_range (pattern : string) :
  Contains pattern "*" = true ->
  Contains pattern "**" = false ->
  HasSuffix pattern "*" = false ->
  HasPrefix pattern "*" = false ->
  0 <= GetPatternPriority pattern <= 600 /\
  (forall exact, Contains exact "*" = false ->
                 GetPatternPriority pattern < GetPatternPriority exact).
Proof.
  intros Hs Hd Hsuf Hpre.
  assert (Hrange : 0 <= GetPatternPriority pattern <= 600).
  { unfold GetPatternPriority. rewrite Hs, Hd, Hsuf, Hpre. cbn [negb].
    assert (H1 : 1 <= Count pattern "*") by (apply Count_occurring; done).
    pose proof (position_penalty_upper (Split pattern "/") 0
                  (length (Split pattern "/"))
                  (700 - Count pattern "*" * 100)) as Hup.
    destruct (position_penalty _ _ _ _ <? 0) eqn:E.
    - lia.
    - apply Z.ltb_ge in E. split; [exact E|]. etransitivity; [apply Hup; lia|]. lia. }
  split; [exact Hrange|].
  intros exact He. unfold GetPatternPriority at 2. rewrite He. cbn [negb]. lia.
Qed.

Lemma single_wildcard_priority_range_witness :
  0 <= GetPatternPriority "/api/*/users" <= 600.
Proof.
  apply (single_wildcard_priority_range "/api/*/users"); vm_compute; reflexivity.
Defined.

End Priorities.

(** ** Matching and normalising *)
Section MatchingFacts.
Import GoStrings Pattern.

(** X3. A pattern without [*] matches the path equal to it and no other. *)
Theorem literal_pattern_matches_itself_only (pattern path : string) :
  Contains pattern "*" = false ->
  (MatchPattern pattern path = true <-> pattern = path).
Proof.
  intros Hlit. unfold MatchPattern, MatchPattern_body. rewrite Hlit. cbn [negb].
  destruct (String.eqb pattern path) eqn:E.
  - apply String.eqb_eq in E. done.
  - apply String.eqb_neq in E. split; [discriminate|done].
Qed.

Lemma literal_pattern_matches_itself_only_witness :
  MatchPattern "/api/users" "/api/user" = true <-> "/api/users" = "/api/user".
Proof.
  apply literal_pattern_matches_itself_only. vm_compute. reflexivity.
Defined.

(** The match of a pattern with [**] at [/api/**/users] and
    [/api/v1/v2/users]. *)
Lemma double_wildcard_match_sound_witness :
  HasPrefix "/api/v1/v2/users" "/api" = true /\
  HasSuffix "/api/v1/v2/users" "users" = true.
Proof.
  assert (H := MatchPattern_double_wildcard_sound "/api/**/users" "/api/v1/v2/users").
  destruct H as (Hp & Hs & _).
  - vm_compute. reflexivity.
  - discriminate.
  - vm_compute. reflexivity.
  - split; [exact Hp|exact Hs].
Defined.

Lemma TrimSuffix_slash_rooted (pattern : string) :
  HasPrefix pattern "/" = true ->
  (1 < len pattern)%nat ->
  HasSuffix pattern "/" = true ->
  TrimSuffix pattern "/" <> "" /\ HasPrefix (TrimSuffix pattern "/") "/" = true.
Proof.
  intros Hroot Hlen Hslash.
  pose proof (HasSuffix_split _ _ Hslash) as Hsplit.
  assert (Hq : TrimSuffix pattern "/" <> "").
  { intros Hq. rewrite Hq in Hsplit. rewrite Hsplit in Hlen. simpl in Hlen. lia. }
  split; [exact Hq|].
  rewrite <- (HasPrefix_slash_app _ "/") by exact Hq. by rewrite <- Hsplit.
Qed.

Lemma NormalizePattern_nonempty_rooted (pattern : string) :
  NormalizePattern pattern <> "" /\
  HasPrefix (NormalizePattern pattern) "/" = true.
Proof.
  assert (Hrooted : forall p, HasPrefix p "/" = true ->
            NormalizePattern p <> "" /\ HasPrefix (NormalizePattern p) "/" = true).
  { intros p Hroot. rewrite (NormalizePattern_rooted p Hroot).
    destruct ((1 <? len p)%nat && HasSuffix p "/") eqn:Hcond.
    - apply andb_true_iff in Hcond as [Hlen Hslash]. apply Nat.ltb_lt in Hlen.
      by apply TrimSuffix_slash_rooted.
    - split; [|exact Hroot]. intros ->. discriminate. }
  destruct (HasPrefix pattern "/") eqn:Hroot; [by apply Hrooted|].
  replace (NormalizePattern pattern) with (NormalizePattern ("/" +:+ pattern))
    by (unfold NormalizePattern; rewrite Hroot; reflexivity).
  by apply Hrooted.
Qed.

(** X5. Whatever it is given, [NormalizePattern] returns a non-empty string
    that starts with a slash; and unless the input ends in two slashes,
    the result is the root or has no trailing slash. *)
Theorem NormalizePattern_result (pattern : string) :
  NormalizePattern pattern <> "" /\
  HasPrefix (NormalizePattern pattern) "/" = true /\
  (HasSuffix pattern "//" = false ->
   NormalizePattern pattern = "/" \/ HasSuffix (NormalizePattern pattern) "/" = false).
Proof.
  destruct (NormalizePattern_nonempty_rooted pattern) as [Hne Hroot].
  split; [exact Hne|]. split; [exact Hroot|].
  intros Hdouble.
  pose proof (NormalizePattern_idempotent_single_slash pattern Hdouble) as Hidem.
  rewrite (NormalizePattern_rooted _ Hroot) in Hidem.
  destruct (HasSuffix (NormalizePattern pattern) "/") eqn:Hslash; [|by right].
  left. rewrite andb_true_r in Hidem.
  destruct (1 <? len (NormalizePattern pattern))%nat eqn:Hlen.
  - apply Nat.ltb_lt in Hlen.
    pose proof (HasSuffix_split _ _ Hslash) as Hsplit.
    rewrite Hidem in Hsplit.
    apply (f_equal len) in Hsplit. rewrite len_app in Hsplit. simpl in Hsplit. lia.
  - apply Nat.ltb_ge in Hlen.
    destruct (NormalizePattern pattern) as [|c [|d t]]; try done.
    + cbn in Hroot. rewrite andb_true_r in Hroot. apply Ascii.eqb_eq in Hroot.
      by subst c.
    + simpl in Hlen. lia.
Qed.

Lemma NormalizePattern_result_witness :
  NormalizePattern "api/users/" = "/" \/
  HasSuffix (NormalizePattern "api/users/") "/" = false.
Proof.
  apply (NormalizePattern_result "api/users/"). vm_compute. reflexivity.
Defined.

(** X6. Normalising a valid pattern gives a valid pattern, and normalising
    that again changes nothing. *)
Theorem NormalizePattern_keeps_valid (pattern : string) :
  IsValidPattern pattern = true ->
  IsValidPattern (NormalizePattern pattern) = true /\
  NormalizePattern (NormalizePattern pattern) = NormalizePattern pattern.
Proof.
  unfold IsValidPattern.
  destruct (String.eqb pattern "") eqn:He; [discriminate|].
  destruct (HasPrefix pattern "/") eqn:Hroot; cbn [negb]; [|discriminate].
  destruct (Contains pattern "//") eqn:Hc; [discriminate|]. intros _.
  assert (Hdouble : HasSuffix pattern "//" = false).
  { destruct (HasSuffix pattern "//") eqn:Hs; [|reflexivity].
    apply HasSuffix_Contains in Hs. congruence. }
  split; [|by apply NormalizePattern_idempotent_single_slash].
  destruct (NormalizePattern_nonempty_rooted pattern) as (Hne & Hr).
  apply String.eqb_neq in Hne. rewrite Hne, Hr. cbn [negb].
  destruct (Contains (NormalizePattern pattern) "//") eqn:Hc'; [|reflexivity].
  rewrite (NormalizePattern_rooted _ Hroot) in Hc'.
  destruct ((1 <? len pattern)%nat && HasSuffix pattern "/").
  - apply Contains_TrimSuffix in Hc'. congruence.
  - congruence.
Qed.

Lemma NormalizePattern_keeps_valid_witness :
  IsValidPattern (NormalizePattern "/api/users/") = true.
Proof.
  apply (NormalizePattern_keeps_valid "/api/users/"). vm_compute. reflexivity.
Defined.

End MatchingFacts.

(** ** Connections coming and going *)
Section ConnectionLifecycle.
Import Protocol Websocket Scenario Exchange.

Lemma handleConnection_enter_clients (m : Manager) (id : string) (client : nat) (now : Z) :
  clients (handleConnection_enter m id client now) = <[id := client]> (clients m).
Proof.
  unfold handleConnection_enter, registerClient.
  cbn [conns set_conns]. rewrite lookup_insert_eq. reflexivity.
Qed.

Lemma handleConnection_exit_clients (m : Manager) (id : string) (client : nat)
      (poolFull : bool) (now : Z) :
  clients (handleConnection_exit m id client poolFull now) = delete id (clients m).
Proof. unfold handleConnection_exit, unregisterClient. destruct poolFull; reflexivity. Qed.

Lemma handleConnection_exit_conns (m : Manager) (id : string) (client : nat)
      (poolFull : bool) (now : Z) :
  conns (handleConnection_exit m id client poolFull now)
  = alter conn_close client (alter conn_cancel client (conns m)).
Proof. unfold handleConnection_exit, unregisterClient. destruct poolFull; reflexivity. Qed.

(** X7. A connection that comes and goes: while its handler runs the client
    counts as connected; when the handler has returned the table is what
    it was before, and the connection's context is cancelled and its
    socket closed. *)
Theorem connection_enter_then_exit (m : Manager) (id : string) (client : nat)
        (poolFull : bool) (now now' : Z) :
  clients m !! id = None ->
  let m1 := handleConnection_enter m id client now in
  let m2 := handleConnection_exit m1 id client poolFull now' in
  IsClientConnected m1 id = true /\
  clients m2 = clients m /\
  IsClientConnected m2 id = false /\
  cancelled <$> conns m2 !! client = Some true /\
  closed <$> conns m2 !! client = Some true.
Proof.
  intros Hfresh m1 m2. subst m1 m2.
  rewrite handleConnection_exit_clients, handleConnection_exit_conns.
  unfold IsClientConnected.
  rewrite handleConnection_exit_clients, !handleConnection_enter_clients.
  rewrite delete_insert_eq, lookup_insert_eq, (delete_id _ _ Hfresh), Hfresh.
  split; [by apply bool_decide_eq_true|].
  split; [reflexivity|].
  split; [apply bool_decide_eq_false; by intros [? ?]|].
  unfold handleConnection_enter, registerClient.
  cbn [conns set_conns logf set_stats set_clients].
  rewrite lookup_insert_eq. cbn [conns set_conns logf set_stats set_clients].
  rewrite !lookup_alter_eq, lookup_insert_eq. split; reflexivity.
Qed.

Lemma connection_enter_then_exit_witness :
  clients (handleConnection_exit
             (handleConnection_enter emptyManager "agent-1" 1 100)
             "agent-1" 1 false 500)
  = clients emptyManager.
Proof.
  refine (proj1 (proj2 (connection_enter_then_exit emptyManager "agent-1" 1 false 100 500 _))).
  reflexivity.
Defined.

(** X8. The handler of a connection that was replaced in the table removes,
    when it returns, the entry of its successor: the client then counts
    as not connected and frames for it are refused, although the
    successor's record is untouched, its context not cancelled. *)
Theorem replaced_connection_exit_unregisters_successor
        (m : Manager) (id : string) (client successor : nat) (c : ClientConn)
        (poolFull : bool) (now : Z) (msg : Message OutPayload) :
  clients m !! id = Some successor ->
  successor <> client ->
  conns m !! successor = Some c ->
  let m' := handleConnection_exit m id client poolFull now in
  IsClientConnected m' id = false /\
  conns m' !! successor = Some c /\
  SendToClient m' id msg = (m', Some "client %s not found").
Proof.
  intros Hs Hne Hc m'. subst m'.
  assert (Hgone : clients (handleConnection_exit m id client poolFull now) !! id = None).
  { rewrite handleConnection_exit_clients. apply lookup_delete_eq. }
  split; [|split].
  - unfold IsClientConnected. rewrite Hgone.
    apply bool_decide_eq_false. by intros [? ?].
  - rewrite handleConnection_exit_conns, !lookup_alter_ne by done. exact Hc.
  - unfold SendToClient. rewrite Hgone. reflexivity.
Qed.

Lemma replaced_connection_exit_unregisters_successor_witness :
  let m2 := handleConnection_enter oneAgent "agent-1" 2 200 in
  IsClientConnected m2 "agent-1" = true /\
  IsClientConnected (handleConnection_exit m2 "agent-1" 1 false 300) "agent-1" = false.
Proof.
  intros m2. split; [vm_compute; reflexivity|].
  refine (proj1 (replaced_connection_exit_unregisters_successor m2 "agent-1" 1 2
            (mkClientConn "agent-1" [] 1000 200 0 200 0 30000 "unknown" [] false false)
            false 300 (NewMessage MessageTypeControl OpPing "agent-1" None (OutPing 0) 0)
            _ _ _)).
  - reflexivity.
  - lia.
  - reflexivity.
Defined.

(** X9. [SendToClient] keeps the send queues within their capacity; a frame
    it accepts is put behind the frames already queued for the client,
    and a frame it refuses leaves the manager as it was, with an error
    that tells an unknown client from a full queue. *)
Theorem SendToClient_bounded_fifo (m : Manager) (id : string)
        (msg : Message OutPayload) :
  queues_bounded m ->
  queues_bounded (fst (SendToClient m id msg)) /\
  match SendToClient m id msg with
  | (m', None) =>
      exists p c, clients m !! id = Some p /\ conns m !! p = Some c /\
                  conns m' = <[p := conn_enqueue msg c]> (conns m) /\
                  sendQueue (conn_enqueue msg c) = sendQueue c ++ [msg] /\
                  clients m' = clients m
  | (m', Some err) =>
      m' = m /\
      (err = "client %s send queue is full" <->
       exists p c, clients m !! id = Some p /\ conns m !! p = Some c /\
                   (sendQueueSize c <= length (sendQueue c))%nat)
  end.
Proof.
  intros Hb. unfold SendToClient.
  destruct (clients m !! id) as [p|] eqn:Hp.
  2:{ split; [exact Hb|]. split; [reflexivity|].
      split; [discriminate|]. intros (? & ? & ? & _). discriminate. }
  destruct (conns m !! p) as [c|] eqn:Hc.
  2:{ split; [exact Hb|]. split; [reflexivity|].
      split; [discriminate|]. intros (p' & c' & [= <-] & Hc' & _). congruence. }
  destruct (length (sendQueue c) <? sendQueueSize c)%nat eqn:Hroom.
  - apply Nat.ltb_lt in Hroom.
    assert (Hconns : alter (conn_enqueue msg) p (conns m)
                     = <[p := conn_enqueue msg c]> (conns m)).
    { apply map_eq. intros i. destruct (decide (p = i)) as [->|Hne].
      - by rewrite lookup_alter_eq, lookup_insert_eq, Hc.
      - by rewrite lookup_alter_ne, lookup_insert_ne. }
    split.
    + intros q cq. cbn [fst conns set_conns]. rewrite Hconns.
      destruct (decide (p = q)) as [->|Hne].
      * rewrite lookup_insert_eq. intros [= <-]. cbn [sendQueue sendQueueSize conn_enqueue].
        rewrite length_app. simpl. lia.
      * rewrite lookup_insert_ne by done. apply Hb.
    + exists p, c. cbn [conns clients set_conns]. rewrite Hconns. done.
  - apply Nat.ltb_ge in Hroom. split; [exact Hb|]. split; [reflexivity|].
    split; [|reflexivity]. intros _. exists p, c. done.
Qed.

Lemma SendToClient_bounded_fifo_witness :
  queues_bounded (fst (SendToClient oneAgent "agent-1"
                         (NewMessage MessageTypeControl OpPing "agent-1" None (OutPing 0) 0))).
Proof.
  apply SendToClient_bounded_fifo.
  intros p c. revert p c.
  apply (proj1 (map_Forall_lookup
                  (fun _ c => (length (sendQueue c) <= sendQueueSize c)%nat) _)).
  apply (bool_decide_unpack _). vm_compute. reflexivity.
Defined.

End ConnectionLifecycle.

(** ** The way of a response to its waiter *)
Section PendingFlow.
Import Protocol Websocket Scenario Exchange.
Context {J : JSON}.

Lemma db_notify_pending (m m' : Manager) (id : string) (v : ResponsePayload.t) (b : bool) :
  notify_pending m id v = Some (m', b) -> db m' = db m.
Proof.
  unfold notify_pending.
  destruct (pending m !! id) as [p|]; [|discriminate].
  destruct (pctxs m !! p) as [pc|]; [|discriminate].
  destruct (try_send (Some v) (resultCh pc)) as [ch [|]]; intros [= <- _]; reflexivity.
Qed.

(** With an entry whose slot is empty, [notify_pending] hands the value
    over. *)
Lemma notify_pending_delivers (m : Manager) (id : string) (v : ResponsePayload.t)
      (p : nat) (pc : PendingContext) :
  pending m !! id = Some p -> pctxs m !! p = Some pc -> resultCh pc = [] ->
  exists m', notify_pending m id v = Some (m', true) /\
             pending m' = pending m /\
             pctxs m' = <[p := pending_set_resultCh [Some v] pc]> (pctxs m).
Proof.
  intros Hp Hpc Hch.
  pose proof (notify_pending_spec m id v) as Hn.
  destruct (notify_pending m id v) as [[m' [|]]|].
  - destruct Hn as (p' & pc' & Hp' & Hpc' & _ & Hpm & Hcm).
    exists m'. rewrite Hp in Hp'. injection Hp' as <-.
    rewrite Hpc in Hpc'. injection Hpc' as <-. done.
  - destruct Hn as (p' & pc' & Hp' & Hpc' & Hne & _). congruence.
  - destruct Hn as [Hn|(p' & Hp' & Hn)]; congruence.
Qed.

(** A waiter whose slot holds a response takes it, unless its context
    is done and the [select] picks that. *)
Lemma wait_takes_response (m : Manager) (id : string) (p : nat)
      (pc : PendingContext) (v : ResponsePayload.t) (now : Z) (pickResult : bool) :
  pctxs m !! p = Some pc ->
  resultCh pc = [Some v] ->
  ctx_done pc now = false \/ pickResult = true ->
  exists m', SendRequestAndWait_wait m id p now pickResult = Some (m', Ok v) /\
             pending m' !! id = None.
Proof.
  intros Hpc Hch Hsel. unfold SendRequestAndWait_wait, select_wait.
  rewrite Hpc, Hch.
  destruct (ctx_done pc now) eqn:Hd.
  - destruct Hsel as [Hd' | ->]; [discriminate|].
    eexists. split; [reflexivity|]. rewrite pending_cleanup. apply lookup_delete_eq.
  - eexists. split; [reflexivity|]. rewrite pending_cleanup. apply lookup_delete_eq.
Qed.

(** A RESPONSE frame whose identifier has an entry with an empty slot,
    and whose payload decodes, puts the payload into the slot. *)
Lemma handleResponse_delivers (m : Manager) (client : nat)
      (msg : Message string) (id : string) (response : ResponsePayload.t)
      (p : nat) (pc : PendingContext) :
  MsgID msg = Some id ->
  ParsePayload_Response msg = Some response ->
  pending m !! id = Some p ->
  pctxs m !! p = Some pc ->
  resultCh pc = [] ->
  pctxs (handleResponse m client msg) !! p
  = Some (pending_set_resultCh [Some response] pc).
Proof.
  intros Hid Hresp Hp Hpc Hch.
  unfold handleResponse. rewrite Hid, Hresp.
  set (m1 := logf "[WebSocket Receive] Looking for pending request with msgID: %s" _).
  assert (Hp1 : pending m1 = pending m).
  { subst m1. cbn [pending logf]. rewrite pending_db_write.
    destruct (ResponsePayload.Body response); reflexivity. }
  assert (Hc1 : pctxs m1 = pctxs m).
  { subst m1. cbn [pctxs logf]. rewrite pctxs_db_write.
    destruct (ResponsePayload.Body response); reflexivity. }
  clearbody m1. rewrite Hp1, Hp.
  set (m2 := logf _ m1).
  destruct (notify_pending_delivers m2 id response p pc) as (m' & -> & _ & Hcm).
  - subst m2. cbn [pending logf]. rewrite Hp1. exact Hp.
  - subst m2. cbn [pctxs logf]. rewrite Hc1. exact Hpc.
  - exact Hch.
  - cbn [pctxs logf]. rewrite Hcm. subst m2. cbn [pctxs logf].
    rewrite Hc1. apply lookup_insert_eq.
Qed.

(** X10. No response is lost while its caller waits: when a RESPONSE frame
    arrives whose identifier has an entry with an empty slot and whose
    payload decodes, the waiter's [select] returns this very payload
    (unless the deadline has passed and the [select] picks the
    deadline), and the entry is removed. *)
Theorem response_reaches_waiter (m : Manager) (client : nat)
        (msg : Message string) (id : string) (response : ResponsePayload.t)
        (p : nat) (pc : PendingContext) (now : Z) (pickResult : bool) :
  MsgID msg = Some id ->
  ParsePayload_Response msg = Some response ->
  pending m !! id = Some p ->
  pctxs m !! p = Some pc ->
  resultCh pc = [] ->
  ctx_done pc now = false \/ pickResult = true ->
  exists m',
    SendRequestAndWait_wait (handleResponse m client msg) id p now pickResult
    = Some (m', Ok response) /\
    pending m' !! id = None.
Proof.
  intros Hid Hresp Hp Hpc Hch Hsel.
  apply (wait_takes_response _ id p (pending_set_resultCh [Some response] pc));
    [|reflexivity|exact Hsel].
  by apply (handleResponse_delivers m client msg id).
Qed.

(** X11. An ERROR frame that names a waiting request ends it: the row of the
    request is marked failed, and the waiter receives a response with
    status 500 that carries the agent's error message. *)
Theorem error_frame_fails_waiter (m : Manager) (client : nat)
        (msg : Message string) (id : string) (errorPayload : ErrorPayload)
        (pm : Database.PendingMessage)
        (p : nat) (pc : PendingContext) (now : Z) (pickResult : bool) :
  MsgID msg = Some id ->
  ParsePayload_Error msg = Some errorPayload ->
  Database.failing (db m) = false ->
  Database.pending_messages (db m) !! id = Some pm ->
  pending m !! id = Some p ->
  pctxs m !! p = Some pc ->
  resultCh pc = [] ->
  ctx_done pc now = false \/ pickResult = true ->
  let m1 := handleErrorMessage m client msg in
  Database.State <$> Database.pending_messages (db m1) !! id
  = Some Database.MessageStateFailed /\
  exists m',
    SendRequestAndWait_wait m1 id p now pickResult
    = Some (m', Ok (ResponsePayload.mk 500 ∅ None 0 (Some (ErrMessage errorPayload)))) /\
    pending m' !! id = None.
Proof.
  intros Hid Herr Hok Hrow Hp Hpc Hch Hsel m1. subst m1.
  unfold handleErrorMessage. rewrite Herr, Hid.
  set (m2 := db_write _ _ _).
  assert (Hdb : Database.State <$> Database.pending_messages (db m2) !! id
                = Some Database.MessageStateFailed).
  { subst m2. unfold db_write. cbn [db logf]. rewrite Hok.
    cbn [db set_db logf]. unfold Database.UpdatePendingMessageState. rewrite Hok.
    cbn [Database.pending_messages Database.set_pending_messages].
    rewrite lookup_alter_eq, Hrow. reflexivity. }
  destruct (notify_pending_delivers m2 id
              (ResponsePayload.mk 500 ∅ None 0 (Some (ErrMessage errorPayload))) p pc)
    as (m' & Hn & _ & Hcm).
  - subst m2. rewrite pending_db_write. exact Hp.
  - subst m2. rewrite pctxs_db_write. exact Hpc.
  - exact Hch.
  - rewrite Hn. split.
    + rewrite (db_notify_pending _ _ _ _ _ Hn). exact Hdb.
    + apply (wait_takes_response _ id p
               (pending_set_resultCh
                  [Some (ResponsePayload.mk 500 ∅ None 0 (Some (ErrMessage errorPayload)))] pc));
        [|reflexivity|exact Hsel].
      rewrite Hcm. apply lookup_insert_eq.
Qed.

Lemma db_handleResponse_tail (m : Manager) (id : string) (v : ResponsePayload.t)
      (l1 l2 l3 l4 l5 : string) :
  db match pending m !! id with
     | Some _ =>
         match notify_pending (logf l1 m) id v with
         | Some (m', true) => logf l2 m'
         | Some (m', false) => logf l3 m'
         | None => logf l1 m
         end
     | None => logf l5 (logf l4 m)
     end = db m.
Proof.
  destruct (pending m !! id); [|reflexivity].
  destruct (notify_pending (logf l1 m) id v) as [[m' [|]]|] eqn:Hn; [| |reflexivity];
    cbn [db logf]; rewrite (db_notify_pending _ _ _ _ _ Hn); reflexivity.
Qed.

(** X12. The state a RESPONSE frame leaves in the store depends on the frame
    alone: [failed] when its status is 400 or more or it carries an
    error, [done] otherwise; the row gets it, with the response as its
    meta-data, whatever its state was and whether or not a caller still
    waits. *)
Theorem response_state_recorded (m : Manager) (client : nat)
        (msg : Message string) (id : string) (response : ResponsePayload.t)
        (pm : Database.PendingMessage) :
  MsgID msg = Some id ->
  ParsePayload_Response msg = Some response ->
  Database.failing (db m) = false ->
  Database.pending_messages (db m) !! id = Some pm ->
  Database.pending_messages (db (handleResponse m client msg)) !! id
  = Some (Database.mkPendingMessage (Database.PMClientID pm) (Database.PMURLSuffix pm)
            (if (400 <=? ResponsePayload.HTTPStatus response)
                || bool_decide (is_Some (ResponsePayload.Error response))
             then Database.MessageStateFailed else Database.MessageStateDone)
            (Some response)).
Proof.
  intros Hid Hresp Hok Hrow. unfold handleResponse. rewrite Hid, Hresp.
  rewrite db_handleResponse_tail. cbn [db logf].
  unfold db_write.
  assert (Hdb : forall m0 : Manager,
             db match ResponsePayload.Body response with
                | Some _ => logf "[WebSocket Receive] Response body preview: %s" m0
                | None => m0
                end = db m0).
  { intros m0. destruct (ResponsePayload.Body response); reflexivity. }
  rewrite Hdb. cbn [db logf]. rewrite Hok. cbn [db set_db]. rewrite Hdb.
  cbn [db logf]. unfold Database.UpdatePendingMessageResponse. rewrite Hok.
  cbn [Database.pending_messages Database.set_pending_messages].
  rewrite lookup_alter_eq, Hrow. reflexivity.
Qed.

End PendingFlow.

Section PendingFlowAtWork.
Import Protocol Websocket Scenario Exchange.

Lemma response_reaches_waiter_witness :
  exists m',
    SendRequestAndWait_wait (handleResponse (J := exchangeJSON) waiting 1 okResponse)
      "msg-1" 7 1500 true = Some (m', Ok okPayload) /\
    pending m' !! "msg-1" = None.
Proof.
  refine (response_reaches_waiter (J := exchangeJSON) waiting 1 okResponse "msg-1"
            okPayload 7 (mkPendingContext "msg-1" [] false 31000 false 1000)
            1500 true _ _ _ _ _ _);
    try reflexivity.
  right. reflexivity.
Defined.

Lemma error_frame_fails_waiter_witness :
  let m1 := handleErrorMessage (J := exchangeJSON) waiting 1 refusedError in
  Database.State <$> Database.pending_messages (db m1) !! "msg-1"
  = Some Database.MessageStateFailed /\
  exists m',
    SendRequestAndWait_wait m1 "msg-1" 7 1500 true
    = Some (m', Ok (ResponsePayload.mk 500 ∅ None 0 (Some "connection refused"))) /\
    pending m' !! "msg-1" = None.
Proof.
  refine (error_frame_fails_waiter (J := exchangeJSON) waiting 1 refusedError "msg-1"
            refusedPayload
            (Database.mkPendingMessage "agent-1" "/api/users" "pending" None)
            7 (mkPendingContext "msg-1" [] false 31000 false 1000)
            1500 true _ _ _ _ _ _ _ _);
    try reflexivity.
  right. reflexivity.
Defined.

Lemma response_state_recorded_witness :
  Database.State <$>
    Database.pending_messages
      (db (handleResponse (J := exchangeJSON) waiting 1 okResponse)) !! "msg-1"
  = Some Database.MessageStateDone.
Proof.
  rewrite (response_state_recorded (J := exchangeJSON) waiting 1 okResponse "msg-1"
             okPayload (Database.mkPendingMessage "agent-1" "/api/users" "pending" None));
    reflexivity.
Defined.

End PendingFlowAtWork.

(** ** Sweeps and shutdown *)
Section Sweeps.
Import Protocol Websocket Scenario Exchange.

Lemma cancel_pctxs_lookup (ptrs : list nat) (h : gmap nat PendingContext) (p : nat) :
  cancel_pctxs ptrs h !! p
  = (if bool_decide (p ∈ ptrs) then pending_cancel else fun pc => pc) <$> h !! p.
Proof.
  induction ptrs as [|q rest IH]; simpl.
  - destruct (h !! p); reflexivity.
  - destruct (decide (q = p)) as [->|Hne].
    + rewrite lookup_alter_eq, IH.
      rewrite (bool_decide_eq_true_2 (p ∈ p :: rest)) by apply list_elem_of_here.
      destruct (h !! p) as [pc|]; [|reflexivity].
      destruct (bool_decide (p ∈ rest)); reflexivity.
    + rewrite lookup_alter_ne, IH by done.
      destruct (decide (p ∈ rest)) as [Hin|Hnin].
      * rewrite !bool_decide_eq_true_2; [reflexivity|by apply list_elem_of_further|done].
      * rewrite !bool_decide_eq_false_2; [reflexivity| |done].
        intros [?|?]%elem_of_cons; congruence.
Qed.

Lemma is_expired_cancel (m : Manager) (ptrs : list nat) (now maxAge : Z) (p : nat) :
  is_expired (set_pctxs (cancel_pctxs ptrs) m) now maxAge p = is_expired m now maxAge p.
Proof.
  unfold is_expired. cbn [pctxs set_pctxs]. rewrite cancel_pctxs_lookup.
  destruct (pctxs m !! p) as [pc|]; [|reflexivity].
  destruct (bool_decide (p ∈ ptrs)); reflexivity.
Qed.

(** A waiter whose context was cancelled returns. *)
Lemma wait_returns_when_cancelled (m : Manager) (id : string) (p : nat)
      (pc : PendingContext) (now : Z) (pickResult : bool) :
  pctxs m !! p = Some pc -> ctxCancelled pc = true ->
  is_Some (SendRequestAndWait_wait m id p now pickResult).
Proof.
  intros Hpc Hc. unfold SendRequestAndWait_wait, select_wait. rewrite Hpc.
  assert (Hd : ctx_done pc now = true) by (unfold ctx_done; rewrite Hc; reflexivity).
  rewrite Hd.
  destruct (resultCh pc) as [|[resp|] rest]; [destruct (resultClosed pc)|..];
    destruct pickResult; eauto.
Qed.

(** X13. [Close] cancels the context of every connection and of every
    pending request, so that every caller still waiting returns; it
    removes no entry from either table and closes no socket itself. *)
Theorem Close_cancels_everything (m : Manager) :
  conns (Close m) = conn_cancel <$> conns m /\
  clients (Close m) = clients m /\
  pending (Close m) = pending m /\
  forall id p pc now pickResult,
    pending m !! id = Some p -> pctxs m !! p = Some pc ->
    ctxCancelled <$> pctxs (Close m) !! p = Some true /\
    is_Some (SendRequestAndWait_wait (Close m) id p now pickResult).
Proof.
  split; [reflexivity|]. split; [reflexivity|]. split; [reflexivity|].
  intros id p pc now pickResult Hp Hpc.
  assert (Hl : pctxs (Close m) !! p = Some (pending_cancel pc)).
  { unfold Close. cbn [pctxs pending set_pctxs set_conns logf].
    rewrite cancel_pctxs_lookup, Hpc.
    rewrite bool_decide_eq_true_2; [reflexivity|].
    apply list_elem_of_fmap. exists (id, p). split; [reflexivity|].
    by apply elem_of_map_to_list. }
  split; [rewrite Hl; reflexivity|].
  apply (wait_returns_when_cancelled _ id p (pending_cancel pc)); [exact Hl|reflexivity].
Qed.

Lemma Close_cancels_everything_witness :
  SendRequestAndWait_wait waiting "msg-1" 7%nat 2000 true = None /\
  is_Some (SendRequestAndWait_wait (Close waiting) "msg-1" 7%nat 2000 true).
Proof.
  split; [reflexivity|].
  refine (proj2 (proj2 (proj2 (proj2 (Close_cancels_everything waiting)))
                   "msg-1" 7%nat (mkPendingContext "msg-1" [] false 31000 false 1000)
                   2000 true _ _)); reflexivity.
Defined.

(** X14. The sweep of the background task keeps exactly the entries that are
    not older than the request timeout; the context of every entry it
    removes is cancelled, so that the caller of such a request
    returns. *)
Theorem cleanupExpiredPending_removes_expired (m : Manager) (now : Z) :
  let m' := cleanupExpiredPending m now in
  (forall id p,
     pending m' !! id = Some p <->
     pending m !! id = Some p
     /\ is_expired m now (RequestTimeout (config m)) p = false) /\
  (forall id p pc now' pickResult,
     pending m !! id = Some p -> pctxs m !! p = Some pc ->
     RequestTimeout (config m) < now - createdAt pc ->
     pending m' !! id = None /\
     is_Some (SendRequestAndWait_wait m' id p now' pickResult)).
Proof.
  intros m'. subst m'. unfold cleanupExpiredPending.
  cbn [pending set_pending set_pctxs config].
  split.
  - intros id p. rewrite map_lookup_filter_Some. cbn [snd].
    rewrite is_expired_cancel.
    destruct (is_expired m now (RequestTimeout (config m)) p); split;
      intros [? ?]; split; congruence.
  - intros id p pc now' pickResult Hp Hpc Hold.
    assert (Hexp : is_expired m now (RequestTimeout (config m)) p = true).
    { unfold is_expired. rewrite Hpc. by apply Z.ltb_lt. }
    split.
    + apply map_lookup_filter_None. right. intros p' Hp'. cbn [snd].
      rewrite is_expired_cancel. rewrite Hp in Hp'. injection Hp' as <-.
      rewrite Hexp. auto.
    + apply (wait_returns_when_cancelled _ id p (pending_cancel pc)); [|reflexivity].
      cbn [pctxs set_pctxs set_pending]. rewrite cancel_pctxs_lookup, Hpc.
      rewrite bool_decide_eq_true_2; [reflexivity|].
      apply list_elem_of_fmap. exists (id, p). split; [reflexivity|].
      apply elem_of_map_to_list. apply map_lookup_filter_Some. done.
Qed.

Lemma cleanupExpiredPending_removes_expired_witness :
  pending (cleanupExpiredPending waiting 31001) !! "msg-1" = None /\
  pending (cleanupExpiredPending waiting 31000) !! "msg-1" = Some 7%nat.
Proof.
  split.
  - refine (proj1 (proj2 (cleanupExpiredPending_removes_expired waiting 31001)
                     "msg-1" 7%nat (mkPendingContext "msg-1" [] false 31000 false 1000)
                     31001 true _ _ _)); [reflexivity|reflexivity|].
    vm_compute. reflexivity.
  - apply (proj1 (cleanupExpiredPending_removes_expired waiting 31000)).
    split; reflexivity.
Defined.

Lemma offer_timeout_idempotent (pc : PendingContext) :
  offer_timeout (offer_timeout pc) = offer_timeout pc.
Proof. unfold offer_timeout. destruct (resultCh pc) eqn:Hch; simpl; [reflexivity|]. by rewrite Hch. Qed.

Lemma notify_timeout_step (m : Manager) (id : string) (q : nat) (pcq : PendingContext) :
  pending m !! id = Some q -> pctxs m !! q = Some pcq ->
  exists m' b, notify_pending m id timeoutResponse = Some (m', b) /\
               pending m' = pending m /\
               forall p, pctxs m' !! p
                         = if decide (q = p) then Some (offer_timeout pcq) else pctxs m !! p.
Proof.
  intros Hq Hpcq. unfold notify_pending. rewrite Hq, Hpcq. unfold try_send.
  destruct (resultCh pcq) as [|x rest] eqn:Hch; simpl.
  - eexists _, _. split; [reflexivity|]. split; [reflexivity|].
    intros p. cbn [pctxs set_pctxs]. destruct (decide (q = p)) as [->|Hne].
    + rewrite lookup_alter_eq, Hpcq. unfold offer_timeout. rewrite Hch. reflexivity.
    + by rewrite lookup_alter_ne.
  - eexists _, _. split; [reflexivity|]. split; [reflexivity|].
    intros p. destruct (decide (q = p)) as [<-|Hne]; [|reflexivity].
    rewrite Hpcq. unfold offer_timeout. rewrite Hch. reflexivity.
Qed.

(** The loop of [CleanupExpiredPending] over identifiers whose entries
    have records: the entries are deleted, and the record of each gets
    the synthetic response offered once. *)
Lemma expire_entries_spec (expired : list string) (m : Manager) :
  (forall id p, id ∈ expired -> pending m !! id = Some p -> is_Some (pctxs m !! p)) ->
  (forall id, pending (expire_entries expired m) !! id
              = if bool_decide (id ∈ expired) then None else pending m !! id) /\
  (forall p pc, pctxs m !! p = Some pc ->
                (exists id, id ∈ expired /\ pending m !! id = Some p) ->
                pctxs (expire_entries expired m) !! p = Some (offer_timeout pc)) /\
  (forall p, ~ (exists id, id ∈ expired /\ pending m !! id = Some p) ->
             pctxs (expire_entries expired m) !! p = pctxs m !! p).
Proof.
  revert m. induction expired as [|id rest IH]; intros m Hwf.
  - split; [|split].
    + intros id. rewrite bool_decide_eq_false_2; [reflexivity|]. apply not_elem_of_nil.
    + intros p pc _ (id & Hin & _). by apply not_elem_of_nil in Hin.
    + reflexivity.
  - cbn [expire_entries].
    destruct (pending m !! id) as [q|] eqn:Hq.
    + destruct (Hwf id q) as [pcq Hpcq]; [apply list_elem_of_here|exact Hq|].
      destruct (notify_timeout_step m id q pcq Hq Hpcq) as (m' & b & -> & Hpm & Hcm).
      set (m1 := set_pending (delete id) m').
      assert (Hp1 : pending m1 = delete id (pending m)).
      { subst m1. cbn [pending set_pending]. by rewrite Hpm. }
      assert (Hc1 : forall p, pctxs m1 !! p
                              = if decide (q = p) then Some (offer_timeout pcq)
                                else pctxs m !! p) by exact Hcm.
      destruct (IH m1) as (IHp & IHhit & IHmiss).
      { intros id' p Hin Hl. rewrite Hp1 in Hl.
        apply lookup_delete_Some in Hl as [Hne Hl].
        rewrite Hc1. destruct (decide (q = p)); [eauto|].
        apply (Hwf id'); [by apply list_elem_of_further|exact Hl]. }
      split; [|split].
      * intros k. rewrite IHp, Hp1.
        destruct (decide (k = id)) as [->|Hne].
        -- rewrite (bool_decide_eq_true_2 (id ∈ id :: rest)) by apply list_elem_of_here.
           rewrite lookup_delete_eq. by destruct (bool_decide (id ∈ rest)).
        -- rewrite lookup_delete_ne by done.
           destruct (decide (k ∈ rest)) as [Hin|Hnin].
           ++ rewrite !bool_decide_eq_true_2; [reflexivity|by apply list_elem_of_further|done].
           ++ rewrite !bool_decide_eq_false_2; [reflexivity| |done].
              intros [?|?]%elem_of_cons; congruence.
      * intros p pc Hpc (k & Hin & Hk).
        destruct (decide (q = p)) as [->|Hne].
        -- assert (pcq = pc) as -> by congruence.
           destruct (decide (Exists (fun k' => pending m1 !! k' = Some p) rest))
             as [Hhit%Exists_exists|Hmiss].
           2:{ rewrite Exists_exists in Hmiss.
               rewrite (IHmiss p Hmiss), Hc1. by rewrite decide_True. }
           rewrite (IHhit p (offer_timeout pc)); [by rewrite offer_timeout_idempotent| |exact Hhit].
           rewrite Hc1. by rewrite decide_True.
        -- apply IHhit.
           ++ rewrite Hc1. by rewrite decide_False.
           ++ exists k. apply elem_of_cons in Hin as [->|Hin]; [congruence|].
              split; [exact Hin|]. rewrite Hp1. apply lookup_delete_Some.
              split; [congruence|exact Hk].
      * intros p Hmiss.
        assert (Hne : q <> p).
        { intros ->. apply Hmiss. exists id. split; [apply list_elem_of_here|exact Hq]. }
        rewrite IHmiss.
        -- rewrite Hc1. by rewrite decide_False.
        -- intros (k & Hin & Hk). apply Hmiss. exists k.
           split; [by apply list_elem_of_further|].
           rewrite Hp1 in Hk. by apply lookup_delete_Some in Hk as [_ Hk].
    + assert (Hnone : notify_pending m id timeoutResponse = None).
      { unfold notify_pending. by rewrite Hq. }
      rewrite Hnone.
      destruct (IH m) as (IHp & IHhit & IHmiss).
      { intros id' p Hin. apply Hwf. by apply list_elem_of_further. }
      split; [|split].
      * intros k. rewrite IHp.
        destruct (decide (k = id)) as [->|Hne].
        -- rewrite (bool_decide_eq_true_2 (id ∈ id :: rest)) by apply list_elem_of_here.
           rewrite Hq. by destruct (bool_decide (id ∈ rest)).
        -- destruct (decide (k ∈ rest)) as [Hin|Hnin].
           ++ rewrite !bool_decide_eq_true_2; [reflexivity|by apply list_elem_of_further|done].
           ++ rewrite !bool_decide_eq_false_2; [reflexivity| |done].
              intros [?|?]%elem_of_cons; congruence.
      * intros p pc Hpc (k & Hin & Hk). apply IHhit; [exact Hpc|].
        exists k. apply elem_of_cons in Hin as [->|Hin]; [congruence|done].
      * intros p Hmiss. apply IHmiss. intros (k & Hin & Hk). apply Hmiss.
        exists k. split; [by apply list_elem_of_further|exact Hk].
Qed.

(** X15. [CleanupExpiredPending] keeps exactly the entries that are not
    older than [maxAge].  The record of every entry it removes gets the
    synthetic response with status 504 into its slot, unless the slot
    holds a value already; its context is not cancelled.  The records
    of the entries it keeps are left as they are. *)
Theorem CleanupExpiredPending_offers_timeout (m : Manager) (maxAge now : Z) :
  let m' := CleanupExpiredPending m maxAge now in
  (forall id p,
     pending m' !! id = Some p <->
     pending m !! id = Some p /\ is_expired m now maxAge p = false) /\
  (forall id p pc,
     pending m !! id = Some p -> pctxs m !! p = Some pc ->
     maxAge < now - createdAt pc ->
     pctxs m' !! p = Some (offer_timeout pc)) /\
  (forall p pc,
     pctxs m !! p = Some pc -> now - createdAt pc <= maxAge ->
     pctxs m' !! p = Some pc).
Proof.
  intros m'. subst m'. unfold CleanupExpiredPending.
  set (expired := map fst (map_to_list _)).
  assert (Hin : forall id, id ∈ expired <->
                           exists p, pending m !! id = Some p
                                     /\ is_expired m now maxAge p = true).
  { intros id. subst expired. rewrite list_elem_of_fmap. split.
    - intros ([id' p] & -> & Hl). apply elem_of_map_to_list in Hl.
      apply map_lookup_filter_Some in Hl. exists p. exact Hl.
    - intros (p & Hp & He). exists (id, p). split; [reflexivity|].
      apply elem_of_map_to_list. by apply map_lookup_filter_Some. }
  destruct (expire_entries_spec expired m) as (Hp & Hhit & Hmiss).
  { intros id p [p' [Hp' He]]%Hin Hl. rewrite Hl in Hp'. injection Hp' as <-.
    unfold is_expired in He. destruct (pctxs m !! p); [eauto|discriminate]. }
  assert (Hlog : forall m0 : Manager,
             pending (if (0 <? length expired)%nat
                      then logf "Cleaned up %d expired pending requests" m0 else m0)
             = pending m0
             /\ pctxs (if (0 <? length expired)%nat
                       then logf "Cleaned up %d expired pending requests" m0 else m0)
                = pctxs m0).
  { intros m0. destruct (0 <? length expired)%nat; split; reflexivity. }
  destruct (Hlog (expire_entries expired m)) as [-> ->].
  split; [|split].
  - intros id p. rewrite Hp.
    destruct (decide (id ∈ expired)) as [Hid|Hid].
    + rewrite bool_decide_eq_true_2 by done.
      apply Hin in Hid as (p' & Hp' & He). split; [discriminate|].
      intros [Hl Hf]. congruence.
    + rewrite bool_decide_eq_false_2 by done. split.
      * intros Hl. split; [exact Hl|].
        destruct (is_expired m now maxAge p) eqn:He; [|reflexivity].
        exfalso. apply Hid, Hin. eauto.
      * by intros [? _].
  - intros id p pc Hl Hpc Hold. apply Hhit; [exact Hpc|].
    exists id. split; [|exact Hl]. apply Hin. exists p. split; [exact Hl|].
    unfold is_expired. rewrite Hpc. by apply Z.ltb_lt.
  - intros p pc Hpc Hyoung. rewrite Hmiss; [exact Hpc|].
    intros (id & [p' [Hp' He]]%Hin & Hl). rewrite Hl in Hp'. injection Hp' as <-.
    unfold is_expired in He. rewrite Hpc in He. apply Z.ltb_lt in He. lia.
Qed.

Lemma CleanupExpiredPending_offers_timeout_witness :
  resultCh <$> pctxs (CleanupExpiredPending waiting 300000 301001) !! 7%nat
  = Some [Some timeoutResponse].
Proof.
  rewrite (proj1 (proj2 (CleanupExpiredPending_offers_timeout waiting 300000 301001))
             "msg-1" 7%nat (mkPendingContext "msg-1" [] false 31000 false 1000));
    [reflexivity|reflexivity|reflexivity|].
  vm_compute. reflexivity.
Defined.

End Sweeps.

(** ** The upgrade handler *)
Section Upgrade.
Import Protocol Websocket Scenario Exchange.

(** X16. [HandleWebSocket] goes on to [handleConnection] exactly when the
    query names a client and a token, the store has the client, the
    token is the client's, the client is enabled, and the upgrade
    succeeds.  Whatever it answers, it leaves the connection table and
    the pending table as they are. *)
Theorem HandleWebSocket_upgrades_iff (m : Manager) (query : NetURL.Values)
        (upgradeOK : bool) (now : Z) (id : string) :
  (snd (HandleWebSocket m query upgradeOK now) = Upgraded id <->
   id = NetURL.Get query "client_id" /\ id <> "" /\
   NetURL.Get query "token" <> "" /\
   (exists c, Database.GetClient (db m) id = Some c /\
              Database.AuthToken c = NetURL.Get query "token" /\
              Database.Enabled c = 1) /\
   upgradeOK = true) /\
  clients (fst (HandleWebSocket m query upgradeOK now)) = clients m /\
  conns (fst (HandleWebSocket m query upgradeOK now)) = conns m /\
  pending (fst (HandleWebSocket m query upgradeOK now)) = pending m /\
  pctxs (fst (HandleWebSocket m query upgradeOK now)) = pctxs m.
Proof.
  split.
  2:{ unfold HandleWebSocket, db_write. cbn [db logf].
      destruct (NetURL.Get query "client_id" =? "")%string; [done|].
      destruct (NetURL.Get query "token" =? "")%string; [done|].
      destruct (negb (validateToken _)); [done|].
      destruct (Database.GetClient _ _) as [c|]; [|done].
      destruct (negb (Database.AuthToken c =? _)%string); [done|].
      destruct (Database.failing (db m)), (negb (Database.Enabled c =? 1)), upgradeOK;
        done. }
  unfold HandleWebSocket.
  destruct (String.eqb_spec (NetURL.Get query "client_id") "") as [Hid|Hid].
  { split; [discriminate|]. intros (-> & Hne & _). done. }
  destruct (String.eqb_spec (NetURL.Get query "token") "") as [Htok|Htok].
  { split; [discriminate|]. intros (_ & _ & Hne & _). done. }
  unfold validateToken. rewrite (proj2 (String.eqb_neq _ _) Htok). cbn [negb].
  cbn [db logf].
  destruct (Database.GetClient (db m) (NetURL.Get query "client_id")) as [c|] eqn:Hc.
  2:{ split; [discriminate|].
      intros (-> & _ & _ & (c' & Hc' & _) & _). congruence. }
  destruct (String.eqb_spec (Database.AuthToken c) (NetURL.Get query "token"))
    as [Hauth|Hauth]; cbn [negb].
  2:{ split; [discriminate|].
      intros (-> & _ & _ & (c' & Hc' & Ha & _) & _). congruence. }
  destruct (Z.eqb_spec (Database.Enabled c) 1) as [Hen|Hen]; cbn [negb].
  2:{ split; [discriminate|].
      intros (-> & _ & _ & (c' & Hc' & _ & He) & _). congruence. }
  destruct upgradeOK.
  - cbn [snd]. split.
    + intros [= <-]. split; [reflexivity|]. split; [exact Hid|]. split; [exact Htok|].
      split; [eauto|reflexivity].
    + intros (-> & _). reflexivity.
  - split; [discriminate|]. intros (_ & _ & _ & _ & ?). discriminate.
Qed.

(** X17. The dial of [Agent.connect] passes the upgrade handler when the
    store holds the agent's identifier with the agent's token and the
    client is enabled. *)
Theorem agent_connect_passes_upgrade (c : Agent.Config) (q : NetURL.Values)
        (m : Manager) (record : Database.Client) (now : Z) :
  Agent.connectQuery c = Some q ->
  Agent.ClientID c <> "" ->
  Agent.AuthToken c <> "" ->
  Database.GetClient (db m) (Agent.ClientID c) = Some record ->
  Database.AuthToken record = Agent.AuthToken c ->
  Database.Enabled record = 1 ->
  snd (HandleWebSocket m q true now) = Upgraded (Agent.ClientID c).
Proof.
  intros Hq Hid Htok Hrec Hauth Hen.
  destruct (agent_connect_has_token_parameter c q Hq) as [Hqid Hqtok].
  unfold HandleWebSocket. rewrite Hqid, Hqtok.
  rewrite (proj2 (String.eqb_neq _ _) Hid), (proj2 (String.eqb_neq _ _) Htok).
  unfold validateToken. rewrite (proj2 (String.eqb_neq _ _) Htok). cbn [negb db logf].
  rewrite Hrec, Hauth, String.eqb_refl, Hen. reflexivity.
Qed.

Lemma agent_connect_passes_upgrade_witness :
  let c := Agent.mkConfig (Some (Agent.mkParsedURL "ws" "tunnel.example" "8080" ∅))
             "agent-1" "secret" in
  snd (HandleWebSocket oneAgentOneRoute
         (NetURL.Set_ (NetURL.Set_ ∅ "client_id" "agent-1") "token" "secret") true 100)
  = Upgraded "agent-1".
Proof.
  intros c.
  apply (agent_connect_passes_upgrade c _ oneAgentOneRoute agentRecord 100);
    try reflexivity; discriminate.
Defined.

End Upgrade.

(** ** Route selection *)
Section Selection.
Import GoStrings Protocol Websocket Proxy Scenario Exchange.

Lemma insertByPriority_Permutation (r : Database.ServerRoute) (l : list Database.ServerRoute) :
  insertByPriority r l ≡ₚ r :: l.
Proof.
  induction l as [|x rest IH]; simpl; [reflexivity|].
  destruct (higherPriority x r); [|reflexivity].
  rewrite IH. apply Permutation_swap.
Qed.

Lemma sortByPriority_Permutation (l : list Database.ServerRoute) :
  sortByPriority l ≡ₚ l.
Proof.
  unfold sortByPriority. destruct (1 <? length l)%nat; [|reflexivity].
  induction l as [|x rest IH]; simpl; [reflexivity|].
  rewrite insertByPriority_Permutation, IH. reflexivity.
Qed.

Lemma insertByPriority_sorted (r : Database.ServerRoute) (l : list Database.ServerRoute) :
  StronglySorted byPriority l -> StronglySorted byPriority (insertByPriority r l).
Proof.
  induction l as [|x rest IH]; intros Hs; simpl.
  - constructor; constructor.
  - apply StronglySorted_inv in Hs as [Hs Hx].
    unfold higherPriority. fold (priority r). fold (priority x).
    destruct (Z.ltb_spec (priority r) (priority x)) as [Hlt|Hge].
    + constructor; [by apply IH|].
      rewrite insertByPriority_Permutation. constructor; [|exact Hx].
      unfold byPriority. lia.
    + constructor; [by constructor|].
      constructor; [exact Hge|].
      eapply Forall_impl; [exact Hx|]. unfold byPriority. intros y Hy. lia.
Qed.

Lemma sortByPriority_sorted (l : list Database.ServerRoute) :
  StronglySorted byPriority (sortByPriority l).
Proof.
  unfold sortByPriority. destruct (1 <? length l)%nat eqn:Hlen.
  - clear Hlen. induction l as [|x rest IH]; simpl; [constructor|].
    by apply insertByPriority_sorted.
  - apply Nat.ltb_ge in Hlen. destruct l as [|x [|y rest]]; simpl in Hlen; [| |lia].
    + constructor.
    + constructor; constructor.
Qed.

Lemma selectRoute_cons (h : Handler) (route : Database.ServerRoute)
      (rest : list Database.ServerRoute) :
  selectRoute h (route :: rest)
  = if available h route then Some route else selectRoute h rest.
Proof.
  unfold available. simpl.
  destruct (IsClientConnected h (Database.RouteClientID route)); [|reflexivity].
  destruct (Database.GetClient (db h) (Database.RouteClientID route)) as [ci|];
    reflexivity.
Qed.

Lemma selectRoute_None (h : Handler) (l : list Database.ServerRoute) :
  selectRoute h l = None <-> Forall (fun route => available h route = false) l.
Proof.
  induction l as [|a rest IH]; [by split; [constructor|]|].
  rewrite selectRoute_cons, Forall_cons.
  destruct (available h a); [|rewrite IH]; split; try done; intros [? ?]; done.
Qed.

Lemma selectRoute_best (h : Handler) (l : list Database.ServerRoute)
      (route : Database.ServerRoute) :
  StronglySorted byPriority l ->
  selectRoute h l = Some route ->
  route ∈ l /\ available h route = true /\
  forall other, other ∈ l -> available h other = true ->
                priority other <= priority route.
Proof.
  induction l as [|a rest IH]; [discriminate|].
  intros [Hs Ha]%StronglySorted_inv. rewrite selectRoute_cons.
  destruct (available h a) eqn:Hav.
  - intros [= <-]. split; [apply list_elem_of_here|]. split; [exact Hav|].
    intros other [->|Hin]%elem_of_cons _; [lia|].
    rewrite Forall_forall in Ha. by apply Ha.
  - intros Hsel. destruct (IH Hs Hsel) as (Hin & Hr & Hbest).
    split; [by apply list_elem_of_further|]. split; [exact Hr|].
    intros other [->|Hin']%elem_of_cons Ho; [congruence|by apply Hbest].
Qed.

Lemma elem_of_matchRoutes (routes : list Database.ServerRoute) (urlPath : string)
      (route : Database.ServerRoute) :
  route ∈ matchRoutes routes urlPath <-> route ∈ routes /\ candidate urlPath route = true.
Proof.
  unfold matchRoutes, candidate. rewrite !list_elem_of_In. apply filter_In.
Qed.

(** X18. The route the proxy forwards to is one of the stored routes that is
    enabled and matches the path, with a client that is connected and
    enabled, and no other such route has a higher priority; the path is
    handed on as it was looked up. *)
Theorem dispatch_forwards_to_best_available
        (h : Handler) (urlPath urlPath' : string) (route : Database.ServerRoute) :
  dispatchRoutes h urlPath = Forward route urlPath' ->
  urlPath' = urlPath /\
  route ∈ Database.server_routes (db h) /\
  candidate urlPath route = true /\
  available h route = true /\
  forall other,
    other ∈ Database.server_routes (db h) ->
    candidate urlPath other = true ->
    available h other = true ->
    priority other <= priority route.
Proof.
  unfold dispatchRoutes, Database.ListServerRoutes.
  destruct (Database.failing (db h)); [discriminate|].
  destruct (length _ =? 0)%nat; [discriminate|].
  destruct (selectRoute h _) as [r|] eqn:Hsel; [|discriminate].
  intros [= -> ->]. split; [reflexivity|].
  destruct (selectRoute_best h _ route (sortByPriority_sorted _) Hsel)
    as (Hin & Hav & Hbest).
  rewrite sortByPriority_Permutation in Hin.
  apply elem_of_matchRoutes in Hin as [Hin Hc].
  split; [exact Hin|]. split; [exact Hc|]. split; [exact Hav|].
  intros other Ho Hco Hao. apply Hbest; [|exact Hao].
  rewrite sortByPriority_Permutation. by apply elem_of_matchRoutes.
Qed.

Lemma dispatch_forwards_to_best_available_witness :
  candidate "/api/users" usersRoute = true /\ available oneAgentOneRoute usersRoute = true.
Proof.
  pose proof (dispatch_forwards_to_best_available oneAgentOneRoute
                "/api/users" "/api/users" usersRoute eq_refl) as H.
  split; [exact (proj1 (proj2 (proj2 H)))|exact (proj1 (proj2 (proj2 (proj2 H))))].
Defined.

(** X19. What the proxy answers without forwarding: 500 when the routes
    cannot be read; otherwise 404 exactly when no stored route is
    enabled and matches the path, and 503 exactly when some do but none
    of them has a client that is connected and enabled. *)
Theorem dispatch_reply_statuses (h : Handler) (urlPath : string) :
  (Database.failing (db h) = true ->
   dispatchRoutes h urlPath
   = Reply (http_Error "Internal server error" StatusInternalServerError)) /\
  (Database.failing (db h) = false ->
   (dispatchRoutes h urlPath = Reply (http_Error "Route not found" StatusNotFound)
    <-> forall route, route ∈ Database.server_routes (db h) ->
                      candidate urlPath route = false) /\
   (dispatchRoutes h urlPath
    = Reply (http_Error "No available backend" StatusServiceUnavailable)
    <-> (exists route, route ∈ Database.server_routes (db h)
                       /\ candidate urlPath route = true) /\
        forall route, route ∈ Database.server_routes (db h) ->
                      candidate urlPath route = true -> available h route = false)).
Proof.
  unfold dispatchRoutes, Database.ListServerRoutes.
  split; [intros ->; reflexivity|]. intros ->.
  set (matched := matchRoutes (Database.server_routes (db h)) urlPath).
  assert (Hnil : (length (sortByPriority matched) =? 0)%nat = true
                 <-> forall route, route ∈ Database.server_routes (db h) ->
                                   candidate urlPath route = false).
  { rewrite Nat.eqb_eq, (Permutation_length (sortByPriority_Permutation matched)).
    split.
    - intros Hlen route Hin. destruct (candidate urlPath route) eqn:Hc; [|reflexivity].
      assert (Hm : route ∈ matched) by by apply elem_of_matchRoutes.
      destruct matched; [by apply elem_of_nil in Hm|discriminate].
    - intros Hall. destruct matched as [|r rest] eqn:Hm; [reflexivity|].
      assert (Hr : r ∈ matched) by (rewrite Hm; apply list_elem_of_here).
      apply elem_of_matchRoutes in Hr as [Hin Hc]. rewrite (Hall r Hin) in Hc.
      discriminate. }
  assert (Hsel : selectRoute h (sortByPriority matched) = None
                 <-> forall route, route ∈ Database.server_routes (db h) ->
                                   candidate urlPath route = true ->
                                   available h route = false).
  { rewrite selectRoute_None, Forall_forall. split.
    - intros Hall route Hin Hc. apply Hall.
      rewrite sortByPriority_Permutation. by apply elem_of_matchRoutes.
    - intros Hall route Hin. rewrite sortByPriority_Permutation in Hin.
      apply elem_of_matchRoutes in Hin as [Hin Hc]. by apply Hall. }
  destruct (length (sortByPriority matched) =? 0)%nat eqn:Hlen.
  - split; [split; [intros _; by apply Hnil|reflexivity]|].
    split; [discriminate|]. intros [(route & Hin & Hc) _].
    rewrite (proj1 Hnil eq_refl route Hin) in Hc. discriminate.
  - assert (Hsome : exists route, route ∈ Database.server_routes (db h)
                                  /\ candidate urlPath route = true).
    { destruct (sortByPriority matched) as [|r rest] eqn:Hs; [discriminate|].
      assert (Hr : r ∈ matched).
      { rewrite <- (sortByPriority_Permutation matched), Hs. apply list_elem_of_here. }
      apply elem_of_matchRoutes in Hr. eauto. }
    destruct (selectRoute h (sortByPriority matched)) as [r|] eqn:Hs.
    + split; [split; [discriminate|]|split; [discriminate|]].
      * intros Hall. apply Hnil in Hall. discriminate.
      * intros [_ Hall]. apply Hsel in Hall. discriminate.
    + split; [split; [discriminate|]|].
      * intros Hall. apply Hnil in Hall. discriminate.
      * split; [intros _; split; [exact Hsome|by apply Hsel]|reflexivity].
Qed.

Lemma dispatch_reply_statuses_witness :
  dispatchRoutes oneAgentOneRoute "/api/orders"
  = Reply (http_Error "Route not found" StatusNotFound).
Proof.
  apply (proj1 (proj2 (dispatch_reply_statuses oneAgentOneRoute "/api/orders") eq_refl)).
  intros route Hin. apply list_elem_of_singleton in Hin as ->. reflexivity.
Defined.

Lemma TrimPrefix_app (prefix rest : string) : TrimPrefix (prefix +:+ rest) prefix = rest.
Proof.
  unfold TrimPrefix.
  assert (Hp : HasPrefix (prefix +:+ rest) prefix = true).
  { induction prefix as [|c prefix IH]; [apply HasPrefix_empty|].
    rewrite app_cons. simpl. rewrite Ascii.eqb_refl. exact IH. }
  rewrite Hp. apply drop_app_len.
Qed.

(** X20. The entry under [/proxy] looks the path up without that prefix, and
    refuses the bare prefix; a path that does not start with [/proxy]
    is looked up as it is.  On a path that the direct entry does not
    reserve, both entries come to the same lookup. *)
Theorem proxy_entry_strips_prefix (h : Handler) (r r' : Request) (rest : string) :
  URLPath r' = "/proxy" +:+ rest ->
  URLPath r = rest ->
  HandleProxyRequest h r'
  = (if String.eqb rest ""
     then Reply (http_Error "Invalid proxy path" StatusBadRequest)
     else dispatchRoutes h rest) /\
  (HasPrefix rest "/proxy" = false -> rest <> "" ->
   HandleProxyRequest h r = dispatchRoutes h rest) /\
  (rest <> "" -> rest <> "/" -> rest <> "/upload" -> rest <> "/health" ->
   rest <> "/status" -> HasPrefix rest "/proxy/" = false ->
   HandleDirectProxyRequest h r = HandleProxyRequest h r').
Proof.
  intros Hr' Hr.
  assert (H1 : HandleProxyRequest h r'
               = if String.eqb rest ""
                 then Reply (http_Error "Invalid proxy path" StatusBadRequest)
                 else dispatchRoutes h rest).
  { unfold HandleProxyRequest. rewrite Hr', TrimPrefix_app. reflexivity. }
  split; [exact H1|]. split.
  - intros Hnp Hne. unfold HandleProxyRequest, TrimPrefix. rewrite Hr, Hnp.
    by rewrite (proj2 (String.eqb_neq _ _) Hne).
  - intros Hne Hroot Hu Hh Hs Hp. rewrite H1.
    unfold HandleDirectProxyRequest. rewrite Hr, Hp.
    rewrite (proj2 (String.eqb_neq _ _) Hne), (proj2 (String.eqb_neq _ _) Hroot),
      (proj2 (String.eqb_neq _ _) Hu), (proj2 (String.eqb_neq _ _) Hh),
      (proj2 (String.eqb_neq _ _) Hs).
    reflexivity.
Qed.

Lemma proxy_entry_strips_prefix_witness :
  HandleProxyRequest oneAgentOneRoute
    (mkRequest "GET" "/proxy/api/users" ∅ None "203.0.113.7:5000")
  = dispatchRoutes oneAgentOneRoute "/api/users".
Proof.
  exact (proj1 (proxy_entry_strips_prefix oneAgentOneRoute
                  (mkRequest "GET" "/api/users" ∅ None "203.0.113.7:5000")
                  (mkRequest "GET" "/proxy/api/users" ∅ None "203.0.113.7:5000")
                  "/api/users" eq_refl eq_refl)).
Defined.

End Selection.

(** ** A request through the tunnel *)
Section RoundTrip.
Import GoStrings Protocol Websocket Proxy Scenario Exchange.
Context {J : JSON}.

(** With the client connected and room in its queue,
    [SendRequestAndWait] gets as far as the [select]: the entry is
    registered with an empty slot and the deadline of the timeout. *)
Lemma send_registers (m : Manager) (clientID : string)
      (requestPayload : RequestPayload.t) (timeout : Z) (id : string)
      (p : nat) (now : Z) (client : nat) (c : ClientConn) :
  clients m !! clientID = Some client ->
  conns m !! client = Some c ->
  (length (sendQueue c) < sendQueueSize c)%nat ->
  exists m',
    SendRequestAndWait_send m clientID requestPayload timeout id p now = (m', None) /\
    pending m' !! id = Some p /\
    pctxs m' !! p = Some (mkPendingContext id [] false (now + timeout) false now).
Proof.
  intros Hcl Hco Hroom. unfold SendRequestAndWait_send, IsClientConnected.
  rewrite bool_decide_eq_true_2 by (rewrite Hcl; eauto). cbn [negb].
  unfold SendToClient.
  destruct (Database.failing (db _) || bool_decide _);
    cbn [clients conns logf set_db set_pending set_pctxs];
    rewrite Hcl, Hco, (proj2 (Nat.ltb_lt _ _) Hroom);
    (eexists; split; [reflexivity|]);
    cbn [pending pctxs logf set_conns set_db set_pending set_pctxs];
    rewrite !lookup_insert_eq; done.
Qed.

(** With the client's queue full, the call ends before the [select]:
    the entry is removed again and the queue is as it was, but the row
    written for the request stays in state [pending]. *)
Lemma send_refused (m : Manager) (clientID : string)
      (requestPayload : RequestPayload.t) (timeout : Z) (id : string)
      (p : nat) (now : Z) (client : nat) (c : ClientConn) :
  clients m !! clientID = Some client ->
  conns m !! client = Some c ->
  (sendQueueSize c <= length (sendQueue c))%nat ->
  Database.failing (db m) = false ->
  Database.pending_messages (db m) !! id = None ->
  exists m',
    SendRequestAndWait_send m clientID requestPayload timeout id p now
    = (m', Some "failed to send request to client: %w") /\
    pending m' !! id = None /\
    conns m' = conns m /\
    Database.State <$> Database.pending_messages (db m') !! id
    = Some Database.MessageStatePending.
Proof.
  intros Hcl Hco Hfull Hok Hrow. unfold SendRequestAndWait_send, IsClientConnected.
  rewrite bool_decide_eq_true_2 by (rewrite Hcl; eauto). cbn [negb].
  unfold SendToClient. cbn [db clients conns logf set_db set_pending set_pctxs].
  rewrite Hok, bool_decide_eq_false_2 by (rewrite Hrow; by intros [? ?]).
  cbn [orb clients conns logf set_db set_pending set_pctxs].
  rewrite Hcl, Hco, (proj2 (Nat.ltb_ge _ _) Hfull).
  eexists. split; [reflexivity|].
  split; [rewrite pending_cleanup; apply lookup_delete_eq|].
  split; [reflexivity|].
  cbn [db SendRequestAndWait_cleanup logf set_pctxs set_pending set_db].
  unfold Database.CreatePendingMessage. rewrite Hok, Hrow.
  cbn [Database.pending_messages Database.set_pending_messages].
  rewrite lookup_insert_eq. reflexivity.
Qed.

(** X21. A request forwarded to a connected client whose answer arrives in
    time: the handler sets each header of the agent's response on the
    writer, calls [WriteHeader] with the agent's status, and passes the
    body to [Write], a string or bytes as they are, nothing for an
    absent body, any other value in its [%v] form; when the status is
    not of three digits [WriteHeader] panics and nothing is written.
    The entry of the request is gone either way. *)
Theorem forward_relays_response
        (h : Handler) (r : Request) (selectedRoute : Database.ServerRoute)
        (urlPath id : string) (p : nat) (now now' : Z) (pickResult : bool)
        (client : nat) (c : ClientConn) (from : nat)
        (msg : Message string) (response : ResponsePayload.t) :
  clients h !! Database.RouteClientID selectedRoute = Some client ->
  conns h !! client = Some c ->
  (length (sendQueue c) < sendQueueSize c)%nat ->
  MsgID msg = Some id ->
  ParsePayload_Response msg = Some response ->
  now' < now + forwardTimeout \/ pickResult = true ->
  exists h',
    forwardRequestToClient h r selectedRoute urlPath id p now
      (fun m => handleResponse m from msg) now' pickResult
    = Some (h', mkResponse (ResponsePayload.HTTPStatus response)
                           (ResponsePayload.Headers response)
                           (if WriteHeader_panics (ResponsePayload.HTTPStatus response)
                            then ""
                            else match ResponsePayload.Body response with
                                 | None => ""
                                 | Some (StringValue s) => s
                                 | Some (BytesValue b) => b
                                 | Some (OtherValue formatted) => formatted
                                 end)) /\
    pending h' !! id = None.
Proof.
  intros Hcl Hco Hroom Hid Hresp Hsel.
  unfold forwardRequestToClient, SendRequestAndWait.
  destruct (send_registers h (Database.RouteClientID selectedRoute)
              (buildRequestPayload r selectedRoute urlPath) forwardTimeout id p now
              client c Hcl Hco Hroom) as (m1 & -> & Hp & Hpc).
  destruct (wait_takes_response (handleResponse m1 from msg) id p
              (pending_set_resultCh [Some response]
                 (mkPendingContext id [] false (now + forwardTimeout) false now))
              response now' pickResult) as (h' & -> & Hgone).
  - by apply (handleResponse_delivers m1 from msg id).
  - reflexivity.
  - destruct Hsel as [Hlt | ->]; [left|by right].
    unfold ctx_done. cbn. apply Z.leb_gt. exact Hlt.
  - exists h'. done.
Qed.

(** X22. A request for a client that is not connected is answered 502 and
    leaves the manager as it was.  One for a client whose send queue is
    full is answered 502 as well; its entry is removed and the queue is
    as before, but its row in the store stays in state [pending]. *)
Theorem forward_refused
        (h : Handler) (r : Request) (selectedRoute : Database.ServerRoute)
        (urlPath id : string) (p : nat) (now now' : Z)
        (others : Manager -> Manager) (pickResult : bool) :
  (IsClientConnected h (Database.RouteClientID selectedRoute) = false ->
   forwardRequestToClient h r selectedRoute urlPath id p now others now' pickResult
   = Some (h, http_Error "Backend request failed" StatusBadGateway)) /\
  (forall client c,
     clients h !! Database.RouteClientID selectedRoute = Some client ->
     conns h !! client = Some c ->
     (sendQueueSize c <= length (sendQueue c))%nat ->
     Database.failing (db h) = false ->
     Database.pending_messages (db h) !! id = None ->
     exists h',
       forwardRequestToClient h r selectedRoute urlPath id p now others now' pickResult
       = Some (h', http_Error "Backend request failed" StatusBadGateway) /\
       pending h' !! id = None /\
       conns h' = conns h /\
       Database.State <$> Database.pending_messages (db h') !! id
       = Some Database.MessageStatePending).
Proof.
  split.
  - intros Hnc. unfold forwardRequestToClient, SendRequestAndWait, SendRequestAndWait_send.
    rewrite Hnc. reflexivity.
  - intros client c Hcl Hco Hfull Hok Hrow.
    unfold forwardRequestToClient, SendRequestAndWait.
    destruct (send_refused h (Database.RouteClientID selectedRoute)
                (buildRequestPayload r selectedRoute urlPath) forwardTimeout id p now
                client c Hcl Hco Hfull Hok Hrow) as (m1 & -> & Hrest).
    exists m1. split; [reflexivity|exact Hrest].
Qed.

End RoundTrip.

Section RoundTripAtWork.
Import GoStrings Protocol Websocket Proxy Scenario Exchange.

Lemma forward_relays_response_witness :
  exists h',
    forwardRequestToClient oneAgentOneRoute getUsers usersRoute "/api/users"
      "msg-1" 7 1000 (fun m => handleResponse (J := exchangeJSON) m 1 okResponse)
      1500 true
    = Some (h', mkResponse 200 {["Content-Type" := "text/plain"]} "OK") /\
    pending h' !! "msg-1" = None.
Proof.
  refine (forward_relays_response (J := exchangeJSON) oneAgentOneRoute getUsers
            usersRoute "/api/users" "msg-1" 7 1000 1500 true 1
            (mkClientConn "agent-1" [] 1000 100 0 100 0 30000 "unknown" [] false false)
            1 okResponse okPayload _ _ _ _ _ _); try reflexivity.
  - simpl. lia.
  - left. reflexivity.
Defined.

Lemma forward_refused_witness :
  exists h',
    forwardRequestToClient busyAgent getUsers usersRoute "/api/users"
      "msg-1" 7 1000 (fun m => m) 1500 true
    = Some (h', http_Error "Backend request failed" StatusBadGateway) /\
    pending h' !! "msg-1" = None /\
    conns h' = conns busyAgent /\
    Database.State <$> Database.pending_messages (db h') !! "msg-1"
    = Some Database.MessageStatePending.
Proof.
  refine (proj2 (forward_refused busyAgent getUsers usersRoute "/api/users"
                   "msg-1" 7 1000 1500 (fun m => m) true) 1%nat
            (mkClientConn "agent-1"
               [NewMessage MessageTypeControl OpPing "agent-1" None (OutPing 200) 200]
               1 100 0 100 1 30000 "unknown" [] false false)
            _ _ _ _ _); try reflexivity.
Defined.

End RoundTripAtWork.

(** ** Control frames and the health check *)
Section ControlFrames.
Import Protocol Websocket Control Scenario Exchange.
Context {J : JSON} {Hd : Handlers} {P : PayloadJSON}.




(** What [SendToClient] leaves alone, and where its frame goes. *)
Lemma SendToClient_frame (m : Manager) (id : string) (msg : Message OutPayload) :
  let m' := fst (SendToClient m id msg) in
  clients m' = clients m /\ pending m' = pending m /\ pctxs m' = pctxs m /\
  db m' = db m /\ logs m' = logs m /\
  (forall p c, conns m !! p = Some c ->
               exists c', conns m' !! p = Some c' /\ cancelled c' = cancelled c
                          /\ lastSeen c' = lastSeen c /\ clientID c' = clientID c) /\
  (forall p c, clients m !! id = Some p -> conns m !! p = Some c ->
               (length (sendQueue c) < sendQueueSize c)%nat ->
               snd (SendToClient m id msg) = None /\
               conns m' !! p = Some (conn_enqueue msg c)).
Proof.
  unfold SendToClient.
  destruct (clients m !! id) as [q|] eqn:Hq.
  2:{ cbn. repeat split; try done. intros p c Hc. eauto. }
  destruct (conns m !! q) as [cq|] eqn:Hcq.
  2:{ cbn. repeat split; try done; try congruence. intros p c Hc. eauto. }
  destruct (length (sendQueue cq) <? sendQueueSize cq)%nat eqn:Hroom.
  - cbn [fst snd clients pending pctxs db logs conns set_conns].
    split; [done|]. split; [done|]. split; [done|]. split; [done|]. split; [done|]. split.
    + intros p c Hc. destruct (decide (q = p)) as [->|Hne].
      * rewrite lookup_alter_eq, Hc. cbn. eauto.
      * rewrite lookup_alter_ne by done. eauto.
    + intros p c [= <-] Hc _. rewrite lookup_alter_eq, Hc.
      split; reflexivity.
  - cbn. split; [done|]. split; [done|]. split; [done|]. split; [done|]. split; [done|]. split.
    + intros p c Hc. eauto.
    + intros p c [= <-] Hc Hlt. apply Nat.ltb_lt in Hlt. congruence.
Qed.

Lemma sendRegisterResponse_frame (m : Manager) (id : string) (success : bool)
      (message : string) (now : Z) :
  let m' := sendRegisterResponse m id success message now in
  clients m' = clients m /\ pending m' = pending m /\ pctxs m' = pctxs m /\
  db m' = db m /\
  (forall p c, conns m !! p = Some c ->
               exists c', conns m' !! p = Some c' /\ cancelled c' = cancelled c
                          /\ lastSeen c' = lastSeen c /\ clientID c' = clientID c) /\
  (forall p c, clients m !! id = Some p -> conns m !! p = Some c ->
               (length (sendQueue c) < sendQueueSize c)%nat ->
               conns m' !! p
               = Some (conn_enqueue
                         (NewMessage MessageTypeControl OpRegisterAck id None
                                     (OutRegisterAck success message) now) c)).
Proof.
  unfold sendRegisterResponse.
  pose proof (SendToClient_frame m id
                (NewMessage MessageTypeControl OpRegisterAck id None
                            (OutRegisterAck success message) now)) as Hf.
  destruct (SendToClient m id _) as [m1 [e|]]; cbn [fst snd] in Hf;
    destruct Hf as (Hcl & Hpe & Hpc & Hdb & _ & Hco & Hsend);
    cbn [clients pending pctxs db conns logf];
    (split; [exact Hcl|]); (split; [exact Hpe|]); (split; [exact Hpc|]);
    (split; [exact Hdb|]); (split; [exact Hco|]);
    intros p c Hp Hc Hroom; destruct (Hsend p c Hp Hc Hroom) as [He Hl];
    [discriminate|exact Hl].
Qed.

(** X24. A REGISTER frame is answered with a REGISTER_ACK in the queue of the
    connection registered under the sender's identifier; the ACK says
    success exactly when the payload decodes, the store has the client,
    the client is enabled and the token is the client's and not empty.
    A refused registration changes nothing in the store and cancels no
    connection; an accepted one sets the client's status to [online]. *)
Theorem handleRegister_outcome (m : Manager) (client : nat) (c : ClientConn)
        (msg : Message string) (now : Z) :
  conns m !! client = Some c ->
  let accepted := registration_accepted m (clientID c) msg in
  let m' := handleRegister m client msg now in
  clients m' = clients m /\
  pending m' = pending m /\
  (forall p c0, conns m !! p = Some c0 ->
                cancelled <$> conns m' !! p = Some (cancelled c0)) /\
  (accepted = false -> db m' = db m) /\
  (accepted = true ->
   Database.Status <$> Database.clients_table (db m') !! clientID c = Some "online") /\
  (forall p c0,
     clients m !! clientID c = Some p -> conns m !! p = Some c0 ->
     (length (sendQueue c0) < sendQueueSize c0)%nat ->
     exists message,
       sendQueue <$> conns m' !! p
       = Some (sendQueue c0 ++
               [NewMessage MessageTypeControl OpRegisterAck (clientID c) None
                           (OutRegisterAck accepted message) now])).
Proof.
  intros Hc accepted m'. subst accepted m'.
  unfold handleRegister, registration_accepted. rewrite Hc.
  assert (Hrefuse : forall (l message : string),
             let m' := sendRegisterResponse (logf l m) (clientID c) false message now in
             clients m' = clients m /\ pending m' = pending m /\
             (forall p c0, conns m !! p = Some c0 ->
                           cancelled <$> conns m' !! p = Some (cancelled c0)) /\
             (false = false -> db m' = db m) /\
             (false = true ->
              Database.Status <$> Database.clients_table (db m') !! clientID c
              = Some "online") /\
             (forall p c0,
                clients m !! clientID c = Some p -> conns m !! p = Some c0 ->
                (length (sendQueue c0) < sendQueueSize c0)%nat ->
                exists message0,
                  sendQueue <$> conns m' !! p
                  = Some (sendQueue c0 ++
                          [NewMessage MessageTypeControl OpRegisterAck (clientID c) None
                                      (OutRegisterAck false message0) now]))).
  { intros l message.
    destruct (sendRegisterResponse_frame (logf l m) (clientID c) false message now)
      as (Hcl & Hpe & _ & Hdb & Hco & Hsend).
    cbn [clients pending db conns logf] in *.
    split; [exact Hcl|]. split; [exact Hpe|]. split; [|split; [|split]].
    - intros p c0 Hp. destruct (Hco p c0 Hp) as (c' & -> & Hcan & _). cbn. by rewrite Hcan.
    - intros _. exact Hdb.
    - discriminate.
    - intros p c0 Hp Hc0 Hroom. exists message.
      rewrite (Hsend p c0 Hp Hc0 Hroom). reflexivity. }
  destruct (Unmarshal_RegisterPayload (Payload msg)) as [rp|]; [|apply Hrefuse].
  destruct (Database.GetClient (db m) (clientID c)) as [ci|] eqn:Hci; [|apply Hrefuse].
  destruct (Database.Enabled ci =? 1); cbn [negb andb]; [|apply Hrefuse].
  destruct (String.eqb (RegisterPayload.AuthToken rp) ""); cbn [negb andb];
    [apply Hrefuse|].
  destruct (String.eqb (Database.AuthToken ci) (RegisterPayload.AuthToken rp));
    cbn [negb]; [|apply Hrefuse].
  assert (Hok : Database.failing (db m) = false).
  { unfold Database.GetClient in Hci. destruct (Database.failing (db m)); done. }
  assert (Hrow : Database.clients_table (db m) !! clientID c = Some ci).
  { unfold Database.GetClient in Hci. by rewrite Hok in Hci. }
  set (m1 := if (0 <? length (RegisterPayload.LocalIPs rp))%nat then _ else _).
  assert (H1 : clients m1 = clients m /\ pending m1 = pending m /\ conns m1 = conns m /\
               Database.Status <$> Database.clients_table (db m1) !! clientID c
               = Some "online").
  { subst m1. unfold db_write, Database.UpdateClientStatus, Database.UpdateClientLocalIPs.
    cbn [db logf set_db].
    repeat (rewrite Hok;
            cbn [db logf set_db Database.failing Database.set_clients_table]).
    destruct (0 <? length (RegisterPayload.LocalIPs rp))%nat;
      cbn [clients pending conns db set_db logf Database.failing
           Database.set_clients_table Database.clients_table];
      repeat (rewrite Hok;
              cbn [clients pending conns db set_db logf Database.failing
                   Database.set_clients_table Database.clients_table]);
      rewrite ?lookup_alter_eq, Hrow; done. }
  clearbody m1. destruct H1 as (Hcl1 & Hpe1 & Hco1 & Hst1).
  destruct (sendRegisterResponse_frame m1 (clientID c) true "Registration successful" now)
    as (Hcl & Hpe & _ & Hdb & Hco & Hsend).
  rewrite Hcl1 in Hcl, Hsend. rewrite Hpe1 in Hpe. rewrite Hco1 in Hco, Hsend.
  split; [exact Hcl|]. split; [exact Hpe|]. split; [|split; [|split]].
  - intros p c0 Hp. destruct (Hco p c0 Hp) as (c' & -> & Hcan & _). cbn. by rewrite Hcan.
  - discriminate.
  - intros _. rewrite Hdb. exact Hst1.
  - intros p c0 Hp Hc0 Hroom. exists "Registration successful".
    rewrite (Hsend p c0 Hp Hc0 Hroom). reflexivity.
Qed.

(** X25. A PING frame on the registered connection of a client refreshes the
    connection's last-seen instant and is answered with a PONG, put at
    the end of its send queue, that carries the timestamp of the PING;
    when the PING has no payload or one that does not decode, the PONG
    carries the server's clock in seconds.  The heartbeat update is
    queued unless the heartbeat queue holds 1000 updates, in which case
    it is dropped. *)
Theorem handlePing_answers_with_pong (m : Manager)
        (heartbeatQueue : list HeartbeatUpdate) (client : nat) (c : ClientConn)
        (msg : Message string) (now : Z) :
  conns m !! client = Some c ->
  clients m !! clientID c = Some client ->
  (length (sendQueue c) < sendQueueSize c)%nat ->
  let m' := fst (handlePing m heartbeatQueue client msg now) in
  let heartbeatQueue' := snd (handlePing m heartbeatQueue client msg now) in
  conns m' !! client
  = Some (conn_enqueue
            (NewMessage MessageTypeControl OpPong (clientID c) None
                        (OutPong (pong_timestamp msg now)) now)
            (conn_set_lastSeen now c)) /\
  heartbeatQueue'
  = (if (length heartbeatQueue <? 1000)%nat
     then heartbeatQueue ++ [mkHeartbeatUpdate (clientID c) now]
     else heartbeatQueue) /\
  ((length heartbeatQueue <= 1000)%nat -> (length heartbeatQueue' <= 1000)%nat).
Proof.
  intros Hc Hreg Hroom m' q'. subst m' q'.
  unfold handlePing, pong_timestamp. rewrite Hc.
  set (first := if (GoStrings.len (Payload msg) =? 0)%nat then _ else _).
  assert (Hfirst : exists l,
             first = (logf l m,
                      if (GoStrings.len (Payload msg) =? 0)%nat then now / 1000
                      else default (now / 1000) (Unmarshal_PingPayload (Payload msg)))).
  { subst first. destruct (GoStrings.len (Payload msg) =? 0)%nat; [eauto|].
    destruct (Unmarshal_PingPayload (Payload msg)); eauto. }
  destruct Hfirst as [l ->].
  set (ts := if (GoStrings.len (Payload msg) =? 0)%nat then _ else _).
  unfold push_heartbeat, heartbeatQueueSize.
  assert (Hsend : forall (m1 : Manager),
             clients m1 = clients m ->
             conns m1 = <[client := conn_set_lastSeen now c]> (conns m) ->
             conns (sendPong m1 (clientID c) ts now) !! client
             = Some (conn_enqueue
                       (NewMessage MessageTypeControl OpPong (clientID c) None
                                   (OutPong ts) now)
                       (conn_set_lastSeen now c))).
  { intros m1 Hcl Hco. unfold sendPong.
    pose proof (SendToClient_frame m1 (clientID c)
                  (NewMessage MessageTypeControl OpPong (clientID c) None
                              (OutPong ts) now)) as Hf.
    destruct (SendToClient m1 (clientID c) _) as [m2 [e|]]; cbn [fst snd] in Hf;
      destruct Hf as (_ & _ & _ & _ & _ & _ & Hs);
      destruct (Hs client (conn_set_lastSeen now c)) as [He Hl];
      try (rewrite Hcl; exact Hreg); try (rewrite Hco; apply lookup_insert_eq);
      try exact Hroom; [discriminate|exact Hl]. }
  assert (Hset : forall l', alter (conn_set_lastSeen now) client (conns (logf l' m))
                            = <[client := conn_set_lastSeen now c]> (conns m)).
  { intros l'. cbn [conns logf]. apply map_eq. intros i.
    destruct (decide (client = i)) as [->|Hne].
    - by rewrite lookup_alter_eq, lookup_insert_eq, Hc.
    - by rewrite lookup_alter_ne, lookup_insert_ne. }
  destruct (length heartbeatQueue <? 1000)%nat eqn:Hq; cbn [fst snd].
  - split; [apply Hsend; [reflexivity|apply Hset]|]. split; [reflexivity|].
    intros _. apply Nat.ltb_lt in Hq. rewrite length_app. simpl. lia.
  - split; [apply Hsend; [reflexivity|apply (Hset l)]|]. split; [reflexivity|]. done.
Qed.

End ControlFrames.

Section ControlFramesAtWork.
Import Protocol Websocket Control Scenario Exchange.


Lemma handleRegister_outcome_witness :
  Database.Status <$>
    Database.clients_table
      (db (handleRegister (P := agentJSON) oneAgentOneRoute 1 registerFrame 150))
    !! "agent-1"
  = Some "online".
Proof.
  refine (proj1 (proj2 (proj2 (proj2 (proj2
            (handleRegister_outcome (P := agentJSON) oneAgentOneRoute 1
               (mkClientConn "agent-1" [] 1000 100 0 100 0 30000 "unknown" [] false false)
               registerFrame 150 _))))) _); reflexivity.
Defined.

Lemma handlePing_answers_with_pong_witness :
  sendQueue <$>
    conns (fst (handlePing (P := agentJSON) oneAgent [] 1 pingFrame 160)) !! 1%nat
  = Some [NewMessage MessageTypeControl OpPong "agent-1" None (OutPong 155) 160].
Proof.
  rewrite (proj1 (handlePing_answers_with_pong (P := agentJSON) oneAgent [] 1
                    (mkClientConn "agent-1" [] 1000 100 0 100 0 30000 "unknown" []
                                  false false)
                    pingFrame 160 eq_refl eq_refl ltac:(simpl; lia))).
  reflexivity.
Defined.

End ControlFramesAtWork.

(** ** Heartbeat updates and the writer *)
Section HeartbeatsAndWriter.
Import Protocol Websocket Control Scenario Exchange.

Lemma batchUpdateHeartbeats_lookup (m : Manager) (updates : gmap string Z) (id : string) :
  Database.failing (db m) = false ->
  Database.failing (db (batchUpdateHeartbeats m updates)) = false /\
  Database.clients_table (db (batchUpdateHeartbeats m updates)) !! id
  = match updates !! id with
    | Some t => seen_at t <$> Database.clients_table (db m) !! id
    | None => Database.clients_table (db m) !! id
    end.
Proof.
  intros Hok. unfold batchUpdateHeartbeats.
  destruct (size updates =? 0)%nat eqn:Hsz.
  { apply Nat.eqb_eq, map_size_empty_iff in Hsz. subst updates.
    rewrite lookup_empty. done. }
  clear Hsz. set (m0 := logf _ m).
  change (db m) with (db m0). assert (Hok0 : Database.failing (db m0) = false) by exact Hok.
  clearbody m0. clear Hok.
  apply (map_fold_weak_ind
           (fun (acc : Manager) (u : gmap string Z) =>
              Database.failing (db acc) = false /\
              Database.clients_table (db acc) !! id
              = match u !! id with
                | Some t => seen_at t <$> Database.clients_table (db m0) !! id
                | None => Database.clients_table (db m0) !! id
                end)).
  - rewrite lookup_empty. done.
  - intros i t u acc Hfresh [Hacc IH]. unfold db_write. rewrite Hacc.
    cbn [db set_db]. unfold Database.UpdateClientLastActiveTime. rewrite Hacc.
    cbn [Database.failing Database.clients_table Database.set_clients_table].
    split; [exact Hacc|].
    destruct (decide (i = id)) as [->|Hne].
    + rewrite lookup_alter_eq, lookup_insert_eq, IH, Hfresh. reflexivity.
    + rewrite lookup_alter_ne, lookup_insert_ne by done. exact IH.
Qed.

Lemma processHeartbeatUpdates_received (m : Manager) (queue : list HeartbeatUpdate) :
  exists updates,
    processHeartbeatUpdates_run m (map HeartbeatReceived queue) = (m, updates) /\
    forall id, updates !! id
               = LastActiveTime <$> last (filter (fun u => ClientID u = id) queue).
Proof.
  unfold processHeartbeatUpdates_run.
  induction queue as [|u queue IH] using rev_ind.
  - exists ∅. split; [reflexivity|]. intros id. apply lookup_empty.
  - destruct IH as (updates & Hrun & Hl).
    rewrite map_app, foldl_app, Hrun. cbn.
    eexists. split; [reflexivity|]. intros id.
    rewrite filter_app, filter_cons, filter_nil.
    destruct (decide (ClientID u = id)) as [Heq|Hne].
    + rewrite last_snoc, <- Heq. apply lookup_insert_eq.
    + rewrite app_nil_r, lookup_insert_ne by done. apply Hl.
Qed.

(** X26. Heartbeat updates are written in batches, and within a batch the
    last update of a client wins: when the loop has taken the updates
    of a queue and the ticker fires, the row of every client named in
    the queue has as its last-seen instant that of the client's last
    update in the queue; rows of other clients are as before, no row is
    created, and the loop starts again from an empty map. *)
Theorem heartbeat_batch_last_update_wins (m : Manager) (queue : list HeartbeatUpdate)
        (id : string) :
  Database.failing (db m) = false ->
  let m' := fst (processHeartbeatUpdates_run m (map HeartbeatReceived queue ++ [FlushTick])) in
  snd (processHeartbeatUpdates_run m (map HeartbeatReceived queue ++ [FlushTick])) = ∅ /\
  Database.clients_table (db m') !! id
  = match last (filter (fun u => ClientID u = id) queue) with
    | Some u => seen_at (LastActiveTime u) <$> Database.clients_table (db m) !! id
    | None => Database.clients_table (db m) !! id
    end.
Proof.
  intros Hok m'. subst m'.
  destruct (processHeartbeatUpdates_received m queue) as (updates & Hrun & Hl).
  unfold processHeartbeatUpdates_run in *. rewrite foldl_app, Hrun. cbn [foldl fst snd].
  unfold processHeartbeatUpdates_turn.
  destruct (0 <? size updates)%nat eqn:Hsz; cbn [fst snd].
  - split; [reflexivity|].
    destruct (batchUpdateHeartbeats_lookup m updates id Hok) as [_ ->].
    rewrite Hl. destruct (last _); reflexivity.
  - apply Nat.ltb_ge in Hsz.
    assert (updates = ∅) as -> by (apply map_size_empty_iff; lia).
    split; [reflexivity|].
    specialize (Hl id). rewrite lookup_empty in Hl.
    destruct (last _); [discriminate|reflexivity].
Qed.

Lemma heartbeat_batch_last_update_wins_witness :
  Database.LastSeenTS <$>
    Database.clients_table
      (db (fst (processHeartbeatUpdates_run oneAgentOneRoute
                  (map HeartbeatReceived
                     [mkHeartbeatUpdate "agent-1" 160; mkHeartbeatUpdate "agent-1" 190]
                   ++ [FlushTick])))) !! "agent-1"
  = Some (Some 190).
Proof.
  rewrite (proj2 (heartbeat_batch_last_update_wins oneAgentOneRoute
                    [mkHeartbeatUpdate "agent-1" 160; mkHeartbeatUpdate "agent-1" 190]
                    "agent-1" eq_refl)).
  reflexivity.
Defined.

Lemma clientWriter_turn_frame (m : Manager) (client : nat) (c : ClientConn)
      (message : Message OutPayload) (rest : list (Message OutPayload)) (now : Z) :
  conns m !! client = Some c ->
  sendQueue c = message :: rest ->
  exists m',
    clientWriter_turn m client (FrameReady true) now = Some (m', Some message, true) /\
    conns m' !! client = Some (conn_set_sendQueue rest c).
Proof.
  intros Hc Hq. unfold clientWriter_turn. rewrite Hc, Hq.
  eexists. split; [reflexivity|].
  cbn [conns logf set_conns]. rewrite lookup_alter_eq, Hc. reflexivity.
Qed.

Lemma write_frames_all (queue : list (Message OutPayload)) (m : Manager) (client : nat)
      (c : ClientConn) (now : Z) :
  conns m !! client = Some c ->
  sendQueue c = queue ->
  snd (write_frames (length queue) m client now) = queue /\
  sendQueue <$> conns (fst (write_frames (length queue) m client now)) !! client = Some [].
Proof.
  revert m c. induction queue as [|message rest IH]; intros m c Hc Hq.
  - cbn. rewrite Hc. cbn. by rewrite Hq.
  - cbn [length write_frames].
    destruct (clientWriter_turn_frame m client c message rest now Hc Hq) as (m' & -> & Hc').
    destruct (IH m' (conn_set_sendQueue rest c) Hc' eq_refl) as [Hfr Hq'].
    destruct (write_frames (length rest) m' client now) as [m'' frames].
    cbn [fst snd] in *. by rewrite Hfr.
Qed.

(** X27. The send queue is first in, first out: the writer of a connection
    puts the frames on the socket in the order [SendToClient] accepted
    them, so a frame that [SendToClient] accepts goes out right after
    the frames that were queued before it, and the queue is empty
    then. *)
Theorem writer_sends_in_order (m : Manager) (id : string) (client : nat)
        (c : ClientConn) (msg : Message OutPayload) (now : Z) :
  clients m !! id = Some client ->
  conns m !! client = Some c ->
  (length (sendQueue c) < sendQueueSize c)%nat ->
  let m1 := fst (SendToClient m id msg) in
  snd (write_frames (length (sendQueue c) + 1) m1 client now) = sendQueue c ++ [msg] /\
  sendQueue <$>
    conns (fst (write_frames (length (sendQueue c) + 1) m1 client now)) !! client
  = Some [].
Proof.
  intros Hcl Hc Hroom m1. subst m1.
  assert (Hc1 : conns (fst (SendToClient m id msg)) !! client = Some (conn_enqueue msg c)).
  { unfold SendToClient. rewrite Hcl, Hc, (proj2 (Nat.ltb_lt _ _) Hroom).
    cbn [fst conns set_conns]. rewrite lookup_alter_eq, Hc. reflexivity. }
  replace (length (sendQueue c) + 1)%nat with (length (sendQueue c ++ [msg]))
    by (rewrite length_app; reflexivity).
  apply (write_frames_all _ _ client (conn_enqueue msg c)); [exact Hc1|reflexivity].
Qed.

Lemma writer_sends_in_order_witness :
  snd (write_frames 1
         (fst (SendToClient oneAgent "agent-1"
                 (NewMessage MessageTypeControl OpPing "agent-1" None (OutPing 200) 200)))
         1 300)
  = [NewMessage MessageTypeControl OpPing "agent-1" None (OutPing 200) 200].
Proof.
  apply (proj1 (writer_sends_in_order oneAgent "agent-1" 1
                  (mkClientConn "agent-1" [] 1000 100 0 100 0 30000 "unknown" []
                                false false)
                  (NewMessage MessageTypeControl OpPing "agent-1" None (OutPing 200) 200)
                  300 eq_refl eq_refl ltac:(simpl; lia))).
Defined.

End HeartbeatsAndWriter.

(** ** The agent's retries *)
Section Retries.
Import GoStrings Retry.

Lemma take_len_eqb_HasPrefix (s keyword : string) :
  String.eqb (take (len keyword) s) keyword = HasPrefix s keyword.
Proof.
  revert s. induction keyword as [|c k IH]; intros s; [reflexivity|].
  destruct s as [|d t]; [reflexivity|].
  cbn [len String.length take HasPrefix String.eqb]. fold (len k). rewrite IH.
  reflexivity.
Qed.

Lemma contains_loop_shift (c : ascii) (t keyword : string) (i turns : nat) :
  contains_loop (String c t) keyword (S i) turns = contains_loop t keyword i turns.
Proof.
  revert i. induction turns as [|k IH]; intros i; [reflexivity|].
  cbn [contains_loop drop]. rewrite IH. reflexivity.
Qed.

Lemma HasPrefix_len (s prefix : string) :
  HasPrefix s prefix = true -> (len prefix <= len s)%nat.
Proof.
  intros [rest ->]%HasPrefix_iff. rewrite len_app. lia.
Qed.

Lemma Contains_len (s substr : string) :
  Contains s substr = true -> (len substr <= len s)%nat.
Proof.
  intros (a & b & ->)%Contains_iff. rewrite !len_app. lia.
Qed.

Lemma Contains_cons (c : ascii) (t substr : string) :
  Contains (String c t) substr = HasPrefix (String c t) substr || Contains t substr.
Proof.
  unfold Contains. rewrite Index_cons.
  destruct (HasPrefix (String c t) substr); [reflexivity|]. cbn [orb].
  pose proof (Index_lower_bound t substr).
  destruct (Index t substr <? 0) eqn:E.
  - apply Z.ltb_lt in E. symmetry. apply Z.leb_gt. lia.
  - apply Z.ltb_ge in E. rewrite (proj2 (Z.leb_le _ _) E). apply Z.leb_le. lia.
Qed.

Lemma contains_loop_Contains (s keyword : string) :
  (len keyword <= len s)%nat ->
  contains_loop s keyword 0 (len s - len keyword + 1) = Contains s keyword.
Proof.
  induction s as [|c t IH]; intros Hlen.
  - cbn [len String.length] in Hlen.
    assert (keyword = "") as -> by (destruct keyword; [reflexivity|simpl in Hlen; lia]).
    reflexivity.
  - rewrite Contains_cons.
    replace (len (String c t) - len keyword + 1)%nat
      with (S (len (String c t) - len keyword))
      by lia.
    cbn [contains_loop drop]. rewrite take_len_eqb_HasPrefix.
    destruct (HasPrefix (String c t) keyword) eqn:Hp; [reflexivity|]. cbn [orb].
    rewrite contains_loop_shift.
    destruct (decide (len keyword <= len t)%nat) as [Hle|Hgt].
    + rewrite <- IH by exact Hle. f_equal. cbn [len String.length] in *. fold (len t). lia.
    + replace (len (String c t) - len keyword)%nat with 0%nat
        by (cbn [len String.length] in *; fold (len t) in *; lia).
      destruct (Contains t keyword) eqn:Hc; [|reflexivity].
      apply Contains_len in Hc. lia.
Qed.

(** X28. The search [contains] of the retry package finds a keyword exactly
    when [strings.Contains] does: it says whether one of the keywords
    occurs in the string. *)
Theorem contains_is_any_Contains (s : string) (keywords : list string) :
  contains s keywords = existsb (Contains s) keywords.
Proof.
  induction keywords as [|keyword rest IH]; [reflexivity|].
  cbn [contains existsb]. rewrite IH.
  destruct (len keyword <=? len s)%nat eqn:Hlen.
  - apply Nat.leb_le in Hlen. rewrite (contains_loop_Contains s keyword Hlen).
    destruct (Contains s keyword); reflexivity.
  - apply Nat.leb_gt in Hlen. cbn [andb].
    destruct (Contains s keyword) eqn:Hc; [|reflexivity].
    apply Contains_len in Hc. lia.
Qed.

(** What the loop of [ExecuteWithRetry] does from attempt [attempt] on,
    when every earlier call failed with an error worth retrying. *)
Lemma retry_loop_spec (config : RetryConfig) (fn : Z -> option GoError)
      (done : Z -> bool -> bool) (turns : nat) (attempt : Z)
      (lastErr : option GoError) :
  1 <= attempt ->
  attempt + Z.of_nat turns = MaxAttempts config + 1 ->
  (forall k, 1 <= k < attempt -> ShouldRetry config (fn k) k = true) ->
  let r := retry_loop config fn done attempt turns lastErr (attempt - 1) in
  attempt - 1 <= snd r <= MaxAttempts config /\
  (forall k, 1 <= k < snd r -> ShouldRetry config (fn k) k = true) /\
  (fst r = Succeeded -> 1 <= snd r /\ fn (snd r) = None).
Proof.
  revert attempt lastErr. induction turns as [|k IH]; intros attempt lastErr Ha Hsum Hprev r;
    subst r.
  - cbn [retry_loop fst snd]. split; [lia|]. split.
    + intros j Hj. apply Hprev. lia.
    + discriminate.
  - cbn [retry_loop].
    destruct (done attempt false).
    { cbn [fst snd]. split; [lia|]. split.
      - intros j Hj. apply Hprev. lia.
      - discriminate. }
    destruct (fn attempt) as [e|] eqn:Hfn.
    2:{ cbn [fst snd]. split; [lia|]. split.
        - intros j Hj. apply Hprev. exact Hj.
        - intros _; split; [lia|exact Hfn]. }
    destruct (ShouldRetry config (Some e) attempt) eqn:Hsr; cbn [negb].
    2:{ cbn [fst snd]. split; [lia|]. split.
        - intros j Hj. apply Hprev. exact Hj.
        - discriminate. }
    destruct ((attempt <? MaxAttempts config) && done attempt true).
    { cbn [fst snd]. split; [lia|]. split.
      - intros j Hj. apply Hprev. exact Hj.
      - discriminate. }
    assert (Hlt : attempt < MaxAttempts config).
    { unfold ShouldRetry in Hsr.
      destruct (MaxAttempts config <=? attempt) eqn:Hm; [discriminate|].
      by apply Z.leb_gt in Hm. }
    destruct (IH (attempt + 1) (Some e)) as (Hb & Hall & Hs).
    + lia.
    + lia.
    + intros j Hj. destruct (decide (j = attempt)) as [->|Hne].
      * rewrite Hfn. exact Hsr.
      * apply Hprev. lia.
    + replace (attempt + 1 - 1) with attempt in Hb, Hall, Hs by lia.
      split; [lia|]. split; [exact Hall|exact Hs].
Qed.

(** X29. [ExecuteWithRetry] calls the function at most [MaxAttempts] times,
    and every call but the last returned an error that [ShouldRetry]
    accepts.  So an error that is neither of the network, a timeout nor
    of the server is tried at most three times, and one of
    authentication or of the protocol once.  When it returns [nil], the
    last call returned [nil]. *)
Theorem ExecuteWithRetry_bounded (config : RetryConfig) (fn : Z -> option GoError)
        (done : Z -> bool -> bool) :
  let calls := snd (ExecuteWithRetry config fn done) in
  0 <= calls <= Z.max 0 (MaxAttempts config) /\
  (forall k, 1 <= k < calls -> ShouldRetry config (fn k) k = true) /\
  (fst (ExecuteWithRetry config fn done) = Succeeded -> 1 <= calls /\ fn calls = None) /\
  ((forall k, ClassifyError (fn k) = ErrorTypeUnknown) -> calls <= 3) /\
  ((forall k, ClassifyError (fn k) = ErrorTypeAuth
              \/ ClassifyError (fn k) = ErrorTypeProtocol) -> calls <= 1).
Proof.
  intros calls. subst calls. unfold ExecuteWithRetry.
  destruct (Z.le_gt_cases (MaxAttempts config) 0) as [Hneg|Hpos].
  { replace (Z.to_nat (MaxAttempts config)) with 0%nat by lia.
    cbn [retry_loop fst snd]. split; [lia|]. split; [intros k Hk; lia|].
    split; [discriminate|]. split; intros _; lia. }
  destruct (retry_loop_spec config fn done (Z.to_nat (MaxAttempts config)) 1 None)
    as (Hb & Hall & Hs); [lia|lia|intros k Hk; lia|].
  change (1 - 1) with 0 in *.
  split; [lia|]. split; [exact Hall|]. split; [exact Hs|]. split.
  - intros Hunk.
    destruct (Z.le_gt_cases (snd (retry_loop config fn done 1
                                    (Z.to_nat (MaxAttempts config)) None 0)) 3)
      as [Hle|Hgt]; [exact Hle|].
    specialize (Hall 3 ltac:(lia)). unfold ShouldRetry in Hall.
    destruct (fn 3) as [e|] eqn:Hfn; [|discriminate].
    destruct (MaxAttempts config <=? 3); [discriminate|].
    specialize (Hunk 3). rewrite Hfn in Hunk. rewrite Hunk in Hall. discriminate.
  - intros Hauth.
    destruct (Z.le_gt_cases (snd (retry_loop config fn done 1
                                    (Z.to_nat (MaxAttempts config)) None 0)) 1)
      as [Hle|Hgt]; [exact Hle|].
    specialize (Hall 1 ltac:(lia)). unfold ShouldRetry in Hall.
    destruct (fn 1) as [e|] eqn:Hfn; [|discriminate].
    destruct (MaxAttempts config <=? 1); [discriminate|].
    destruct (Hauth 1) as [Hc|Hc]; rewrite Hfn in Hc; rewrite Hc in Hall; discriminate.
Qed.

End Retries.

(** ** Disconnecting a client *)
Section Disconnect.
Import Protocol Websocket Control Scenario Exchange.
Context {J : JSON} {Hd : Handlers}.


End Disconnect.

Section DisconnectAtWork.
Import Protocol Websocket Control Scenario Exchange.


End DisconnectAtWork.
